(** * Telegraf plugins and pipeline: a shallow embedding

    From the Go sources of the tree:
    - [Homie]       plugins/outputs/mqtt/homie.go
    - [Prometheus]  plugins/outputs/prometheus_client (the output plugin)
    - [DCOS]        plugins/inputs/dcos (point construction)
    - [InfluxUDP]   plugins/outputs/influxdb, the tests of the UDP client;
                    the client, whose source is not in the tree, is their
                    parameter
    - [TestUtil]    testutil, the test of [RequireMetricsEqual], with the
                    functions of the package it calls as parameters

    [UDPStandIn] and [Examples] hold the inputs of the instances.

    The pipeline itself (metric model, accumulator, buffer, delivery runner)
    has no source in the tree; [Metric], [Buffer], [Accumulator] and
    [Delivery] render its specification, each definition saying so.

    Go strings are byte strings ([string]); where a Go function works on the
    UTF-8 decoding of a string (package [regexp], [strings.ToLower]) the text
    is a list of code points ([rune]).  Go maps are [gmap]s; a [range] over a
    map visits it in an order Go leaves open, here that of [map_to_list]. *)

From Stdlib Require Import ZArith NArith Bool List Lia Ascii String.
From Stdlib Require Import Floats.SpecFloat Structures.OrderedTypeEx.
From stdpp Require Import base option list strings pretty gmap sorting.

(** Go's [float64], as the IEEE 754 value it holds. *)
Definition float64 : Type := spec_float.

(** ** Package [strings] and [sort], as far as the plugins use them *)

Module GoStrings.

Local Open Scope string_scope.

(** [strings.ReplaceAll(s, old, new)] for one-byte [old] and [new]. *)
Fixpoint ReplaceAll (s : string) (old new : ascii) : string :=
  match s with
  | EmptyString => EmptyString
  | String c rest =>
      String (if Ascii.eqb c old then new else c) (ReplaceAll rest old new)
  end.

(** [strings.HasPrefix(s, prefix)]. *)
Definition HasPrefix (s prefix : string) : bool := String.prefix prefix s.

(** [strings.HasSuffix(s, suffix)]. *)
Definition HasSuffix (s suffix : string) : bool :=
  (String.length suffix <=? String.length s)%nat
  && String.eqb (substring (String.length s - String.length suffix) (String.length suffix) s) suffix.

(** [strings.TrimPrefix(s, prefix)]. *)
Definition TrimPrefix (s prefix : string) : string :=
  if HasPrefix s prefix
  then substring (String.length prefix) (String.length s - String.length prefix) s
  else s.

(** [strings.Join(elems, sep)]. *)
Definition Join (elems : list string) (sep : string) : string := String.concat sep elems.

(** The order of Go's [<=] on strings: bytewise lexicographic. *)
Definition string_le (a b : string) : Prop := String.leb a b = true.

#[export] Instance string_le_dec a b : Decision (string_le a b).
Proof. unfold string_le. apply _. Defined.

(** [sort.Strings]: the result is the sorted arrangement, whichever
    algorithm produces it. *)
Definition Strings (l : list string) : list string := merge_sort string_le l.

End GoStrings.

Local Open Scope N_scope.

(** ** plugins/outputs/mqtt/homie.go *)

Module Homie.

(** A Go [rune]: one Unicode code point of the decoded string (an invalid
    byte decodes to U+FFFD). *)
Definition rune : Type := N.

Definition hyphen : rune := 45.

Definition isLowerAZ (r : rune) : bool := (97 <=? r) && (r <=? 122).

Definition isDigit (r : rune) : bool := (48 <=? r) && (r <=? 57).

(** The character class of [idRe], [[^a-z0-9]]. *)
Definition idRe_class (r : rune) : bool := negb (isLowerAZ r || isDigit r).

(** What a Homie topic ID may contain: [a-z], [0-9] and the hyphen. *)
Definition idChar (r : rune) : bool := isLowerAZ r || isDigit r || (r =? hyphen).

Section NormalizeID.

(** [unicode.ToLower] outside ASCII is a table of the Go runtime; it can map
    a non-ASCII rune to an ASCII one (U+212A KELVIN SIGN to [k]). *)
Variable unicodeLower : rune -> rune.

(** [unicode.ToLower]: ASCII is handled before the case tables. *)
Definition toLower (r : rune) : rune :=
  if r <=? 127
  then (if (65 <=? r) && (r <=? 90) then r + 32 else r)
  else unicodeLower r.

(** [strings.ToLower]. *)
Definition ToLower (s : list rune) : list rune := map toLower s.

(** [idRe.ReplaceAllString(s, "-")] for [idRe = ([^a-z0-9]+)]: every maximal
    run of runes of the class becomes one hyphen.  [inrun] tells that the
    rune before the current one belonged to a run already replaced. *)
Fixpoint replaceRuns (inrun : bool) (s : list rune) : list rune :=
  match s with
  | [] => []
  | r :: rest =>
      if idRe_class r
      then (if inrun then replaceRuns true rest else hyphen :: replaceRuns true rest)
      else r :: replaceRuns false rest
  end.

Definition ReplaceAllString (s : list rune) : list rune := replaceRuns false s.

(** [strings.Trim(s, "-")] with a one-byte cutset trims the right end, then
    the left end. *)
Fixpoint TrimLeft (s : list rune) : list rune :=
  match s with
  | [] => []
  | r :: rest => if r =? hyphen then TrimLeft rest else s
  end.

Fixpoint TrimRight (s : list rune) : list rune :=
  match s with
  | [] => []
  | r :: rest =>
      match TrimRight rest with
      | [] => if r =? hyphen then [] else [r]
      | t => r :: t
      end
  end.

Definition Trim (s : list rune) : list rune := TrimLeft (TrimRight s).

Definition normalizeID (raw : list rune) : list rune :=
  let id := ToLower raw in
  let id := ReplaceAllString id in
  Trim id.

End NormalizeID.

(** The runes of a string of ASCII bytes. *)
Definition asciiRunes (s : string) : list rune :=
  N_of_ascii <$> list_ascii_of_string s.

(** A value held in a Go [interface{}], by its dynamic type.  [GoStringer]
    is a value of a type not listed that has a [String] method, with the
    text the method returns; [GoOther] is a value of any remaining type. *)
Inductive goValue :=
| GoInt (v : Z) | GoInt8 (v : Z) | GoInt16 (v : Z) | GoInt32 (v : Z) | GoInt64 (v : Z)
| GoUint (v : Z) | GoUint8 (v : Z) | GoUint16 (v : Z) | GoUint32 (v : Z) | GoUint64 (v : Z)
| GoFloat32 (v : float64) | GoFloat64 (v : float64)
| GoBytes (v : string) | GoString (v : string)
| GoBool (v : bool)
| GoStringer (goType text : string)
| GoOther (goType : string).

(** The [%T] of a value. *)
Definition typeName (value : goValue) : string :=
  match value with
  | GoInt _ => "int" | GoInt8 _ => "int8" | GoInt16 _ => "int16"
  | GoInt32 _ => "int32" | GoInt64 _ => "int64"
  | GoUint _ => "uint" | GoUint8 _ => "uint8" | GoUint16 _ => "uint16"
  | GoUint32 _ => "uint32" | GoUint64 _ => "uint64"
  | GoFloat32 _ => "float32" | GoFloat64 _ => "float64"
  | GoBytes _ => "[]uint8" | GoString _ => "string" | GoBool _ => "bool"
  | GoStringer goType _ => goType
  | GoOther goType => goType
  end%string.

(** The six kinds of field value in the words of the specification
    (section 3: signed integer, unsigned integer, float64, boolean, string,
    timestamp), told of a Go value; [convertType] is compared with it.  A
    timestamp is a [time.Time], a type with a [String] method. *)
Definition supportedKind (value : goValue) : bool :=
  match value with
  | GoInt _ | GoInt8 _ | GoInt16 _ | GoInt32 _ | GoInt64 _ => true
  | GoUint _ | GoUint8 _ | GoUint16 _ | GoUint32 _ | GoUint64 _ => true
  | GoFloat64 _ => true
  | GoBool _ => true
  | GoString _ => true
  | GoStringer goType _ => String.eqb goType "time.Time"
  | GoFloat32 _ | GoBytes _ | GoOther _ => false
  end.

Section ConvertType.

(** [internal.ToString], of package [internal]. *)
Variable ToString : goValue -> string + string.

(** [convertType]: the text and the Homie datatype of a value, or the error. *)
Definition convertType (value : goValue) : string * string + string :=
  match ToString value with
  | inr err => inr err
  | inl v =>
      match value with
      | GoInt8 _ | GoInt16 _ | GoInt32 _ | GoInt64 _
      | GoUint8 _ | GoUint16 _ | GoUint32 _ | GoUint64 _ => inl (v, "integer")
      | GoFloat32 _ | GoFloat64 _ => inl (v, "float")
      | GoBytes _ | GoString _ | GoStringer _ _ => inl (v, "string")
      | GoBool _ => inl (v, "boolean")
      | GoInt _ | GoUint _ | GoOther _ => inr ("unknown type " ++ typeName value)
      end
  end%string.

End ConvertType.

(** The shape of a string on which [ReplaceAllString] changes nothing: runes
    of the class are hyphens and no two of them are adjacent. *)
Fixpoint canon (inrun : bool) (s : list rune) : Prop :=
  match s with
  | [] => True
  | r :: rest =>
      if idRe_class r
      then r = hyphen /\ inrun = false /\ canon true rest
      else canon false rest
  end.

End Homie.

(** ** plugins/outputs/prometheus_client *)

Module Prometheus.

Local Open Scope Z_scope.
Local Open Scope string_scope.

(** [config.Duration] and [time.Duration]: an [int64] count of nanoseconds. *)
Definition Duration : Type := Z.

Definition Second : Duration := 1000000000.

Definition defaultListen : string := ":9273".
Definition defaultPath : string := "/metrics".
Definition defaultExpirationInterval : Duration := 60 * Second.
Definition defaultReadTimeout : Duration := 10 * Second.
Definition defaultWriteTimeout : Duration := 10 * Second.

(** A Go [error] value, by its message. *)
Definition error : Type := string.

Section Client.

(** Types of the packages the plugin calls into. *)
Variables (Metric Collector MetricTypes Secret IPNet ServerConfig TLSConf Registry : Type).

(** What can be registered with a [prometheus.Registry]. *)
Inductive Registrant :=
| GoCollector
| ProcessCollector
| PluginCollector (c : Collector).

(** The calls that leave the package; each one that returns an [error] in Go
    returns a sum here. *)
Variable NewRegistry : Registry.
Variable Register : Registry -> Registrant -> Registry + error.
Variable TypeMappings_Init : MetricTypes -> option error.
Variable v1_NewCollector : Duration -> bool -> bool -> MetricTypes -> Collector.
Variable v2_NewCollector : Duration -> bool -> bool -> MetricTypes -> Collector.
Variable ParseCIDR : string -> IPNet + error.
Variable Secret_Get : Secret -> string + error.
Variable TLSConfig : ServerConfig -> option TLSConf + error.
(** The [Add] method of the [Collector] interface. *)
Variable Collector_Add : Collector -> list Metric -> option error.

(** The handlers mounted on the mux, by the way they are composed. *)
Inductive Handler :=
| promHandler (registry : Registry)
| landingPageHandler
| rangeHandler (ipRange : list IPNet) (next : Handler)
| authHandler (username password : string) (next : Handler)
| headerHandler (next : Handler).

(** [http.Server], the fields [Init] sets. *)
Record Server := {
  Addr : string;
  srvHandler : list (string * Handler);
  srvTLSConfig : option TLSConf;
  srvReadTimeout : Duration;
  srvWriteTimeout : Duration
}.

Record PrometheusClient := {
  Listen : string;
  ReadTimeout : Duration;
  WriteTimeout : Duration;
  MetricVersion : Z;
  BasicUsername : string;
  BasicPassword : Secret;
  IPRange : list string;
  ExpirationInterval : Duration;
  Path : string;
  CollectorsExclude : list string;
  StringAsLabel : bool;
  ExportTimestamp : bool;
  TypeMappings : MetricTypes;
  tlsServerConfig : ServerConfig;
  server : option Server;
  collector : option Collector
}.

Definition set_collector (c : Collector) (p : PrometheusClient) : PrometheusClient :=
  {| Listen := Listen p; ReadTimeout := ReadTimeout p; WriteTimeout := WriteTimeout p;
     MetricVersion := MetricVersion p; BasicUsername := BasicUsername p;
     BasicPassword := BasicPassword p; IPRange := IPRange p;
     ExpirationInterval := ExpirationInterval p; Path := Path p;
     CollectorsExclude := CollectorsExclude p; StringAsLabel := StringAsLabel p;
     ExportTimestamp := ExportTimestamp p; TypeMappings := TypeMappings p;
     tlsServerConfig := tlsServerConfig p; server := server p; collector := Some c |}.

Definition set_Path (path : string) (p : PrometheusClient) : PrometheusClient :=
  {| Listen := Listen p; ReadTimeout := ReadTimeout p; WriteTimeout := WriteTimeout p;
     MetricVersion := MetricVersion p; BasicUsername := BasicUsername p;
     BasicPassword := BasicPassword p; IPRange := IPRange p;
     ExpirationInterval := ExpirationInterval p; Path := path;
     CollectorsExclude := CollectorsExclude p; StringAsLabel := StringAsLabel p;
     ExportTimestamp := ExportTimestamp p; TypeMappings := TypeMappings p;
     tlsServerConfig := tlsServerConfig p; server := server p; collector := collector p |}.

Definition set_ReadTimeout (d : Duration) (p : PrometheusClient) : PrometheusClient :=
  {| Listen := Listen p; ReadTimeout := d; WriteTimeout := WriteTimeout p;
     MetricVersion := MetricVersion p; BasicUsername := BasicUsername p;
     BasicPassword := BasicPassword p; IPRange := IPRange p;
     ExpirationInterval := ExpirationInterval p; Path := Path p;
     CollectorsExclude := CollectorsExclude p; StringAsLabel := StringAsLabel p;
     ExportTimestamp := ExportTimestamp p; TypeMappings := TypeMappings p;
     tlsServerConfig := tlsServerConfig p; server := server p; collector := collector p |}.

Definition set_WriteTimeout (d : Duration) (p : PrometheusClient) : PrometheusClient :=
  {| Listen := Listen p; ReadTimeout := ReadTimeout p; WriteTimeout := d;
     MetricVersion := MetricVersion p; BasicUsername := BasicUsername p;
     BasicPassword := BasicPassword p; IPRange := IPRange p;
     ExpirationInterval := ExpirationInterval p; Path := Path p;
     CollectorsExclude := CollectorsExclude p; StringAsLabel := StringAsLabel p;
     ExportTimestamp := ExportTimestamp p; TypeMappings := TypeMappings p;
     tlsServerConfig := tlsServerConfig p; server := server p; collector := collector p |}.

Definition set_server (srv : Server) (p : PrometheusClient) : PrometheusClient :=
  {| Listen := Listen p; ReadTimeout := ReadTimeout p; WriteTimeout := WriteTimeout p;
     MetricVersion := MetricVersion p; BasicUsername := BasicUsername p;
     BasicPassword := BasicPassword p; IPRange := IPRange p;
     ExpirationInterval := ExpirationInterval p; Path := Path p;
     CollectorsExclude := CollectorsExclude p; StringAsLabel := StringAsLabel p;
     ExportTimestamp := ExportTimestamp p; TypeMappings := TypeMappings p;
     tlsServerConfig := tlsServerConfig p; server := Some srv; collector := collector p |}.

(** [defaultCollectors] after the [delete] of every excluded name. *)
Definition defaultCollectors (exclude : list string) : gmap string bool :=
  foldl (fun m c => delete c m) (<["gocollector" := true]> (<["process" := true]> ∅)) exclude.

(** The loop over [defaultCollectors]; Go visits the keys in an unspecified
    order, here the order of [map_to_list]. *)
Fixpoint registerDefaults (registry : Registry) (names : list string) : Registry + error :=
  match names with
  | [] => inl registry
  | name :: rest =>
      if String.eqb name "gocollector" then
        match Register registry GoCollector with
        | inr err => inr err
        | inl registry => registerDefaults registry rest
        end
      else if String.eqb name "process" then
        match Register registry ProcessCollector with
        | inr err => inr err
        | inl registry => registerDefaults registry rest
        end
      else inr ("unrecognized collector " ++ name)
  end.

(** The loop over [p.IPRange]. *)
Fixpoint parseIPRange (cidrs : list string) : list IPNet + error :=
  match cidrs with
  | [] => inl []
  | cidr :: rest =>
      match ParseCIDR cidr with
      | inr err => inr ("error parsing ip_range: " ++ err)
      | inl ipNet =>
          match parseIPRange rest with
          | inr err => inr err
          | inl nets => inl (ipNet :: nets)
          end
      end
  end.

(** [Init]: the receiver after the call and the returned error ([None] is
    Go's [nil]).  Assignments made before a failing step stay in place. *)
Definition Init (p : PrometheusClient) : PrometheusClient * option error :=
  match registerDefaults NewRegistry (map_to_list (defaultCollectors (CollectorsExclude p))).*1 with
  | inr err => (p, Some err)
  | inl registry =>
  match TypeMappings_Init (TypeMappings p) with
  | Some err => (p, Some err)
  | None =>
  let c :=
    if (MetricVersion p =? 2)%Z
    then v2_NewCollector (ExpirationInterval p) (StringAsLabel p) (ExportTimestamp p) (TypeMappings p)
    else v1_NewCollector (ExpirationInterval p) (StringAsLabel p) (ExportTimestamp p) (TypeMappings p) in
  let p := set_collector c p in
  match Register registry (PluginCollector c) with
  | inr err => (p, Some err)
  | inl registry =>
  match parseIPRange (IPRange p) with
  | inr err => (p, Some err)
  | inl ipRange =>
  match Secret_Get (BasicPassword p) with
  | inr err => (p, Some err)
  | inl password =>
  let prom := promHandler registry in
  let p := if String.eqb (Path p) EmptyString then set_Path "/metrics" p else p in
  let mux :=
    [ (Path p, headerHandler (authHandler (BasicUsername p) password (rangeHandler ipRange prom)));
      ("/", headerHandler (authHandler (BasicUsername p) password (rangeHandler ipRange landingPageHandler))) ] in
  match TLSConfig (tlsServerConfig p) with
  | inr err => (p, Some err)
  | inl tlsConfig =>
  let p := if (ReadTimeout p <? Second)%Z then set_ReadTimeout defaultReadTimeout p else p in
  let p := if (WriteTimeout p <? Second)%Z then set_WriteTimeout defaultWriteTimeout p else p in
  let srv := {| Addr := Listen p; srvHandler := mux; srvTLSConfig := tlsConfig;
                srvReadTimeout := ReadTimeout p; srvWriteTimeout := WriteTimeout p |} in
  (set_server srv p, None)
  end end end end end end.

(** [Write] hands the batch to the collector and returns what [Add] returns;
    the call panics on a client that was never initialised. *)
Inductive WriteResult :=
| Returned (err : option error)
| Panic.

Definition Write (p : PrometheusClient) (metrics : list Metric) : WriteResult :=
  match collector p with
  | Some c => Returned (Collector_Add c metrics)
  | None => Panic
  end.

End Client.

Arguments Listen {_ _ _ _ _ _ _} p.
Arguments ReadTimeout {_ _ _ _ _ _ _} p.
Arguments WriteTimeout {_ _ _ _ _ _ _} p.
Arguments Path {_ _ _ _ _ _ _} p.
Arguments server {_ _ _ _ _ _ _} p.
Arguments collector {_ _ _ _ _ _ _} p.
Arguments Addr {_ _ _} s.
Arguments srvHandler {_ _ _} s.
Arguments srvTLSConfig {_ _ _} s.
Arguments srvReadTimeout {_ _ _} s.
Arguments srvWriteTimeout {_ _ _} s.

End Prometheus.

(** ** plugins/inputs/dcos *)

Module DCOS.

Import GoStrings.
Local Open Scope string_scope.

Definition nodeDimensions : list string := ["hostname"; "path"; "interface"].
Definition containerDimensions : list string := ["hostname"; "container_id"; "task_name"].
Definition appDimensions : list string := ["hostname"; "container_id"; "task_name"].

(** One element of [metrics.Datapoints], the fields [createPoints] reads.
    [Tags] is [None] for a nil map. *)
Record dataPoint := {
  Name : string;
  Tags : option (gmap string string);
  Unit : string;
  Value : float64
}.

(** A value of [metrics.Dimensions] ([map[string]interface{}]), by the
    cases of the type switch. *)
Inductive dimension :=
| DimString (v : string)
| DimStringMap (v : gmap string string)
| DimOther.

Record metrics := {
  Datapoints : list dataPoint;
  Dimensions : gmap string dimension
}.

(** A value stored in [point.fields]: [int64] or [float64]. *)
Inductive fieldValue :=
| Int64 (v : Z)
| Float64 (v : float64).

Record point := {
  tags : gmap string string;
  labels : gmap string string;
  fields : gmap string fieldValue
}.

Section CreatePoints.

(** Go's conversion [int64(f)]: truncation towards zero, and a value chosen
    by the implementation when [f] is not representable. *)
Variable int64_of_float64 : float64 -> Z.

(** The field key of a datapoint (lines 190 to 201). *)
Definition fieldKeyOf (dp : dataPoint) : string :=
  let fieldKey := ReplaceAll (Name dp) "." "_" in
  let fieldKey :=
    if String.eqb (Unit dp) "bytes" && negb (HasSuffix fieldKey "_bytes")
    then fieldKey ++ "_bytes"
    else fieldKey in
  TrimPrefix fieldKey "dcos_metrics_module_".

(** The series key of a tag map, from the pairs in the order [tagList] in
    which the [range] over the map visited them. *)
Definition seriesKeyFrom (tagList : list (string * string)) : string :=
  let tagset := (fun kv => kv.1 ++ "=" ++ kv.2) <$> tagList in
  let seriesParts := Strings tagset in
  Join seriesParts ",".

Definition seriesKeyOf (tags : gmap string string) : string :=
  seriesKeyFrom (map_to_list tags).

(** The value stored for a datapoint (lines 221 to 225). *)
Definition fieldValueOf (dp : dataPoint) : fieldValue :=
  if String.eqb (Unit dp) "bytes"
  then Int64 (int64_of_float64 (Value dp))
  else Float64 (Value dp).

(** One turn of the loop over [m.Datapoints].  The map holds pointers in
    Go and the field is assigned in place; here the updated point is put
    back under its key. *)
Definition addDatapoint (points : gmap string point) (dp : dataPoint) : gmap string point :=
  let fieldKey := fieldKeyOf dp in
  let dpTags := default ∅ (Tags dp) in
  let seriesKey := seriesKeyOf dpTags in
  let p :=
    match points !! seriesKey with
    | Some p => p
    | None => {| tags := dpTags; labels := ∅; fields := ∅ |}
    end in
  <[seriesKey := {| tags := tags p; labels := labels p;
                    fields := <[fieldKey := fieldValueOf dp]> (fields p) |}]> points.

Definition collectPoints (datapoints : list dataPoint) : gmap string point :=
  foldl addDatapoint ∅ datapoints.

(** One dimension applied to a point (the type switch of lines 231 to 240). *)
Definition applyDimension (p : point) (kv : string * dimension) : point :=
  match kv.2 with
  | DimString v =>
      {| tags := <[kv.1 := v]> (tags p); labels := labels p; fields := fields p |}
  | DimStringMap v =>
      if String.eqb kv.1 "labels"
      then {| tags := tags p;
              labels := foldl (fun l kv => <[kv.1 := kv.2]> l) (labels p) (map_to_list v);
              fields := fields p |}
      else p
  | DimOther => p
  end.

(** [createPoints]; the points come in the order of the [range] over the
    map, here that of [map_to_list]. *)
Definition createPoints (m : metrics) : list point :=
  let points := collectPoints (Datapoints m) in
  (fun kp => foldl applyDimension kp.2 (map_to_list (Dimensions m))) <$> map_to_list points.

(** The tag map [addMetrics] builds for one point (lines 253 to 263). *)
Definition metricTags (cluster : string) (tagDimensions : list string) (p : point)
  : gmap string string :=
  let acc := <["cluster" := cluster]> ∅ in
  let acc :=
    foldl (fun acc tagkey =>
             match tags p !! tagkey with
             | Some v => <[tagkey := v]> acc
             | None => acc
             end) acc tagDimensions in
  foldl (fun acc kv => <[kv.1 := kv.2]> acc) acc (map_to_list (labels p)).

(** One call [acc.AddFields(measurement, fields, tags, t)]. *)
Record addFieldsCall := {
  call_measurement : string;
  call_fields : gmap string fieldValue;
  call_tags : gmap string string;
  call_time : Z
}.

(** [addMetrics], as the calls it makes on the accumulator; [tm] is the
    value of [time.Now()]. *)
Definition addMetrics (tm : Z) (cluster mname : string) (m : metrics)
    (tagDimensions : list string) : list addFieldsCall :=
  (fun p => {| call_measurement := mname; call_fields := fields p;
               call_tags := metricTags cluster tagDimensions p; call_time := tm |})
  <$> createPoints m.

Definition addNodeMetrics (tm : Z) (cluster : string) (m : metrics) :=
  addMetrics tm cluster "dcos_node" m nodeDimensions.

Definition addContainerMetrics (tm : Z) (cluster : string) (m : metrics) :=
  addMetrics tm cluster "dcos_container" m containerDimensions.

Definition addAppMetrics (tm : Z) (cluster : string) (m : metrics) :=
  addMetrics tm cluster "dcos_app" m appDimensions.

End CreatePoints.

End DCOS.

(** ** The metric model *)

Module Metric.

Import GoStrings.
Local Open Scope string_scope.

(** Modelled from the spec: the six kinds of field value of section 3
    (signed integer, unsigned integer, float64, boolean, string, timestamp);
    package [metric] itself is not part of this tree. *)
Inductive value :=
| SignedInteger (v : Z)
| UnsignedInteger (v : N)
| Float (v : float64)
| Boolean (v : bool)
| Text (v : string)
| Timestamp (ns : Z).

(** Modelled from the spec: a value offered for storing, a Go
    [interface{}]: one of the six kinds, or a value of another Go type,
    kept by the name of its type. *)
Inductive offered :=
| Supported (v : value)
| Unsupported (goType : string).

(** Modelled from the spec: the construction-time errors of section 7. *)
Inductive MetricError :=
| InvalidMetric
| UnsupportedFieldType.

Inductive result (A : Type) :=
| Ok (a : A)
| Err (e : MetricError).
Arguments Ok {A} a.
Arguments Err {A} e.

(** Modelled from the spec: the Metric of section 3, a name, a tag mapping
    with unique keys, a field mapping, and a timestamp in nanoseconds; the
    type is declared in package [metric], which is not part of this tree. *)
Record Metric := {
  name : string;
  tags : gmap string string;
  fields : gmap string value;
  tm : Z
}.

(** [metric.New(name, tags, fields, tm)].  The function is defined outside
    this tree; its call sites (testutil tests, influxdb_test) take one
    result, a [telegraf.Metric], and no error, also where the field map is
    the empty [map[string]interface{}{}].  The field maps of the call sites
    hold values of the supported kinds. *)
Definition New (name : string) (tags : gmap string string)
    (fields : gmap string value) (tm : Z) : Metric :=
  {| name := name; tags := tags; fields := fields; tm := tm |}.

(** Modelled from the spec: an attempted construction in the words of
    section 4.1, "fails with InvalidMetric if no fields or empty name";
    [metric.New] is defined outside this tree.  The tests of the tree are
    compared with it. *)
Definition construct_spec (name : string) (tags : gmap string string)
    (fields : gmap string value) (tm : Z) : result Metric :=
  if decide (fields = ∅ \/ name = EmptyString) then Err InvalidMetric
  else Ok (New name tags fields tm).

(** Modelled from the spec: an attempted construction (section 4.1),
    which fails with [InvalidMetric] when the measurement name is empty;
    [metric.New] is defined outside this tree.  For the empty field mapping
    the model follows the call sites of the tree and not section 4.1, which
    has the construction fail there too: [TestUDP_ErrorLogging] and
    [TestRequireMetricsEqual] construct metrics from the empty
    [map[string]interface{}{}] and go on to use them. *)
Definition construct (name : string) (tags : gmap string string)
    (fields : gmap string value) (tm : Z) : result Metric :=
  if decide (name = EmptyString) then Err InvalidMetric
  else Ok (New name tags fields tm).

(** The metrics of a list of constructions, when none of them failed. *)
Definition constructed (metrics : list (result Metric)) : option (list Metric) :=
  mapM (fun c => match c with Ok m => Some m | Err _ => None end) metrics.

(** Modelled from the spec: adding a tag during accumulation (section 4.1),
    a method of the metric that is not part of this tree; the tag replaces
    one of the same key. *)
Definition AddTag (m : Metric) (key val : string) : Metric :=
  {| name := name m; tags := <[key := val]> (tags m); fields := fields m; tm := tm m |}.

(** Modelled from the spec: storing a field (section 4.1), a method of the
    metric that is not part of this tree.  A value of one of the six kinds
    is stored as it is and replaces a field of the same key; any other
    value fails with [UnsupportedFieldType]. *)
Definition AddField (m : Metric) (key : string) (v : offered) : result Metric :=
  match v with
  | Supported v =>
      Ok {| name := name m; tags := tags m; fields := <[key := v]> (fields m); tm := tm m |}
  | Unsupported _ => Err UnsupportedFieldType
  end.

Definition SetTime (m : Metric) (t : Z) : Metric :=
  {| name := name m; tags := tags m; fields := fields m; tm := t |}.

Definition SetFields (m : Metric) (fs : gmap string value) : Metric :=
  {| name := name m; tags := tags m; fields := fs; tm := tm m |}.

(** The order on tags: by key. *)
Definition tag_le (a b : string * string) : Prop := string_le a.1 b.1.

#[export] Instance tag_le_dec a b : Decision (tag_le a b).
Proof. unfold tag_le. apply _. Defined.

(** Modelled from the spec: the tags "sorted for deterministic identity"
    (section 3), from the pairs in any order of enumeration. *)
Definition sortTags (pairs : list (string * string)) : list (string * string) :=
  merge_sort tag_le pairs.

Definition TagList (m : Metric) : list (string * string) :=
  sortTags (map_to_list (tags m)).

(** Modelled from the spec: the identity of a metric "for buffering
    purposes", its name and its sorted tags (section 4.1). *)
Definition seriesKey (m : Metric) : string * list (string * string) :=
  (name m, TagList m).

Definition seriesIdentical (m1 m2 : Metric) : bool :=
  bool_decide (seriesKey m1 = seriesKey m2).

End Metric.

(** ** The buffer of a destination *)

Module Buffer.

Import Metric.

(** Modelled from the spec: the Buffer of sections 3 and 4.4, which is not
    part of this tree.  [items] holds the metrics oldest first; [removed]
    counts the metrics that have left at the front, by eviction or by
    acknowledgment, and so numbers the first item; [peeks] counts the calls
    of [PeekBatch].  The overflow policy is the default one, drop-oldest. *)
Record Buffer := {
  capacity : nat;
  items : list Metric;
  removed : nat;
  peeks : nat
}.

(** Modelled from the spec: "a zero-capacity Buffer is invalid
    configuration, rejected at construction". *)
Definition NewBuffer (capacity : nat) : option Buffer :=
  if (capacity =? 0)%nat then None
  else Some {| capacity := capacity; items := []; removed := 0; peeks := 0 |}.

Definition Len (b : Buffer) : nat := length (items b).

Definition Capacity (b : Buffer) : nat := capacity b.

(** Modelled from the spec: [Push], "if at capacity, evicts oldest per
    policy before inserting; returns whether an eviction occurred". *)
Definition Push (m : Metric) (b : Buffer) : Buffer * bool :=
  if (capacity b <=? Len b)%nat
  then ({| capacity := capacity b; items := tail (items b) ++ [m];
           removed := S (removed b); peeks := peeks b |}, true)
  else ({| capacity := capacity b; items := items b ++ [m];
           removed := removed b; peeks := peeks b |}, false).

Definition PushAll (ms : list Metric) (b : Buffer) : Buffer :=
  foldl (fun b m => (Push m b).1) b ms.

(** Modelled from the spec: the tracking token of a Delivery Batch, the
    number of the peek and the range of metrics it returned. *)
Record Token := {
  token_id : nat;
  token_first : nat;
  token_count : nat
}.

(** Modelled from the spec: [PeekBatch], "up to [maxSize] oldest metrics
    without removing them, plus a tracking token". *)
Definition PeekBatch (maxSize : nat) (b : Buffer) : list Metric * Token * Buffer :=
  let batch := take maxSize (items b) in
  (batch,
   {| token_id := peeks b; token_first := removed b; token_count := length batch |},
   {| capacity := capacity b; items := items b; removed := removed b; peeks := S (peeks b) |}).

(** Modelled from the spec: [Acknowledge], which removes the metrics of
    the matching peek that are still present; those evicted since the peek
    are gone already. *)
Definition Acknowledge (t : Token) (b : Buffer) : Buffer :=
  let present := (token_first t + token_count t - removed b)%nat in
  {| capacity := capacity b; items := drop present (items b);
     removed := (removed b + Nat.min present (Len b))%nat; peeks := peeks b |}.

(** The buffers there can be: one made by [NewBuffer], then pushed to,
    peeked at and acknowledged in any order. *)
Inductive reachable : Buffer -> Prop :=
| reach_new (N : nat) (b : Buffer) : NewBuffer N = Some b -> reachable b
| reach_push (m : Metric) (b : Buffer) : reachable b -> reachable (Push m b).1
| reach_peek (maxSize : nat) (b : Buffer) : reachable b -> reachable (PeekBatch maxSize b).2
| reach_ack (t : Token) (b : Buffer) : reachable b -> reachable (Acknowledge t b).

End Buffer.

(** ** The accumulator of a collector run *)

Module Accumulator.

Import Metric Buffer.
Local Open Scope string_scope.

(** An error recorded during a run: one raised by building a metric, or
    one the collector reports, by its message. *)
Inductive RunError :=
| MetricErr (e : MetricError)
| PluginErr (msg : string).

(** Modelled from the spec: the Accumulator of sections 3 and 4.2, which is
    not part of this tree: the buffers of the registered destinations, held
    from its creation on, and the non-fatal errors of the run. *)
Record Accumulator := {
  buffers : list Buffer;
  errors : list RunError
}.

Definition NewAccumulator (destinations : list Buffer) : Accumulator :=
  {| buffers := destinations; errors := [] |}.

(** Modelled from the spec: [AddError] "records a non-fatal error
    associated with the current collector run" (section 4.2). *)
Definition AddError (err : RunError) (acc : Accumulator) : Accumulator :=
  {| buffers := buffers acc; errors := errors acc ++ [err] |}.

(** The fields of a call stored one after the other into a metric. *)
Fixpoint storeFields (m : Metric) (fs : list (string * offered)) : result Metric :=
  match fs with
  | [] => Ok m
  | (key, v) :: rest =>
      match AddField m key v with
      | Ok m => storeFields m rest
      | Err e => Err e
      end
  end.

(** A metric built from the arguments of [AddFields] with [New] and
    [AddField]. *)
Definition buildMetric (measurement : string) (tags : gmap string string)
    (fields : list (string * offered)) (tm : Z) : result Metric :=
  storeFields (New measurement tags ∅ tm) fields.

Section Run.

(** How the accumulator builds the metric of a call, and with which
    construction-time error it may fail. *)
Variable build : string -> gmap string string -> list (string * offered) -> Z -> result Metric.

(** The clock, read when a call carries no timestamp. *)
Variable now : Z.

(** Modelled from the spec: [AddFields] "builds a Metric, on success
    forwards a copy to every destination's Buffer" (section 4.2), each
    buffer applying its overflow policy; a construction-time error is
    "reported via [AddError], collection continues" (section 7). *)
Definition AddFields (measurement : string) (tags : gmap string string)
    (fields : list (string * offered)) (timestamp : option Z)
    (acc : Accumulator) : Accumulator :=
  match build measurement tags fields (default now timestamp) with
  | Ok m => {| buffers := (fun b => (Push m b).1) <$> buffers acc; errors := errors acc |}
  | Err e => AddError (MetricErr e) acc
  end.

(** What a collector does with the accumulator during [Gather]. *)
Inductive call :=
| CallAddFields (measurement : string) (tags : gmap string string)
    (fields : list (string * offered)) (timestamp : option Z)
| CallAddError (err : RunError).

Definition perform (acc : Accumulator) (c : call) : Accumulator :=
  match c with
  | CallAddFields measurement tags fields timestamp =>
      AddFields measurement tags fields timestamp acc
  | CallAddError err => AddError err acc
  end.

(** Modelled from the spec: one collector run (section 6), the calls the
    collector makes on a fresh accumulator followed by the fatal error it
    returns, if any.  The errors collected are surfaced when the run is
    over; the buffers keep what was forwarded. *)
Record RunReport := {
  run_buffers : list Buffer;
  run_errors : list RunError;
  run_fatal : option string
}.

Definition run (destinations : list Buffer) (calls : list call)
    (fatal : option string) : RunReport :=
  let acc := foldl perform (NewAccumulator destinations) calls in
  {| run_buffers := buffers acc; run_errors := errors acc; run_fatal := fatal |}.

Definition isAddError (c : call) : bool :=
  match c with
  | CallAddError _ => true
  | CallAddFields _ _ _ _ => false
  end.

(** The errors a call puts on record. *)
Definition reported (c : call) : list RunError :=
  match c with
  | CallAddError err => [err]
  | CallAddFields measurement tags fields timestamp =>
      match build measurement tags fields (default now timestamp) with
      | Ok _ => []
      | Err e => [MetricErr e]
      end
  end.

End Run.

End Accumulator.

(** ** Delivery to a destination *)

Module Delivery.

Import Metric Buffer.

(** Modelled from the spec: one flush tick of the Delivery Runner (section
    4.5, steps 1 to 5) on the buffer of its destination, the runner not
    being part of this tree: peek a batch, hand it to the destination's
    [Write], acknowledge the token when [Write] returns nil and leave the
    buffer alone otherwise.  Timeout and backoff are left out. *)
Definition flush (write : list Metric -> option string) (batchSize : nat) (b : Buffer)
  : Buffer * option string :=
  let '(batch, token, b) := PeekBatch batchSize b in
  match batch with
  | [] => (b, None)
  | _ =>
      match write batch with
      | None => (Acknowledge token b, None)
      | Some err => (b, Some err)
      end
  end.

End Delivery.

(** ** testutil: the test of [RequireMetricsEqual] *)

Module TestUtil.

Import GoStrings Metric.
Local Open Scope string_scope.

(** [TestRequireMetricsEqual] of package [testutil].  [MustMetric],
    [SortMetrics] and [RequireMetricsEqual] are defined in files of the
    package that are not part of this tree and are the parameters of the
    test; the test is the condition under which it passes. *)
Section Tests.

(** [cmp.Option]. *)
Variable cmpOption : Type.

(** [MustMetric]: the metric, or the error of a construction that fails;
    the call sites take one result, as those of [metric.New] do. *)
Variable MustMetric :
  string -> gmap string string -> gmap string value -> Z -> result Metric.

Variable SortMetrics : cmpOption.

(** [RequireMetricsEqual(t, want, got, opts...)]: whether the assertion
    holds. *)
Variable RequireMetricsEqual : list Metric -> list Metric -> list cmpOption -> bool.

(** The case "sort metrics option sorts by name". *)
Definition TestRequireMetricsEqual : bool :=
  let got := [ MustMetric "cpu" ∅ ∅ 0; MustMetric "net" ∅ ∅ 0 ] in
  let want := [ MustMetric "net" ∅ ∅ 0; MustMetric "cpu" ∅ ∅ 0 ] in
  let opts := [ SortMetrics ] in
  match constructed got, constructed want with
  | Some got, Some want => RequireMetricsEqual want got opts
  | _, _ => false
  end.

End Tests.

(** An assertion written for the test: the names of the metrics of the two
    lists, sorted, are the same.  It stands in for [RequireMetricsEqual] to
    show that the test can pass. *)
Definition sameSeries (want got : list Metric) (opts : list unit) : bool :=
  bool_decide (merge_sort string_le (name <$> want) = merge_sort string_le (name <$> got)).

End TestUtil.

(** ** plugins/outputs/influxdb: the tests of the UDP client *)

Module InfluxUDP.

Import Metric.
Local Open Scope string_scope.

Definition error : Type := string.

(** [MockConn] of influxdb_test: [Write] and [Close] call the function
    fields, which are nil ([None]) when the literal leaves them out; to
    call a nil function panics.  [WriteF] is taken by the error it returns
    for the bytes, [CloseF] by the error it returns.  What the functions
    of the tests do besides (they append the bytes to a buffer, they set
    [closed]) is read off the calls a run made, see [run]. *)
Record MockConn := {
  WriteF : option (string -> option error);
  CloseF : option (option error)
}.

(** [MockDialer] of influxdb_test, by what [DialContextF] returns. *)
Record MockDialer := {
  DialContextF : MockConn + error
}.

(** [testutil.Logger{}]. *)
Inductive Logger := testutil_Logger.

(** [influxdb.UDPConfig], the fields the tests set; a field a literal
    leaves out has its zero value. *)
Record UDPConfig := {
  MaxPayloadSize : nat;
  URL : option string;
  Dialer : option MockDialer;
  Log : option Logger
}.

(** What a call of [client.Write] did, as a test can see it: the error it
    returned, the byte slices it handed to [Write] of the connection, in
    order, the number of its calls of [Close] of the connection, and the
    text the standard logger has received when the call returns
    ([TestUDP_ErrorLogging] sets the output of the logger to a buffer
    before it makes the client and reads the buffer after the call). *)
Record run := {
  returned : option error;
  written : list string;
  closes : nat;
  logged : string
}.

(** The calls the mocks of a configuration admit.  To call the nil
    [WriteF] or [CloseF] panics, and so does a method of the nil [Conn]
    that comes with the error of a failed dial; a test in which that
    happens fails. *)
Definition admits (config : UDPConfig) (r : run) : bool :=
  match Dialer config with
  | None => true
  | Some dialer =>
      match DialContextF dialer with
      | inr _ => (length (written r) =? 0)%nat && (closes r =? 0)%nat
      | inl conn =>
          (bool_decide (is_Some (WriteF conn)) || (length (written r) =? 0)%nat)
          && (bool_decide (is_Some (CloseF conn)) || (closes r =? 0)%nat)
      end
  end.

(** [strings.Contains], as [require.Contains] uses it on the log. *)
Definition Contains (s substr : string) : bool :=
  match String.index 0 substr s with
  | Some _ => true
  | None => false
  end.

Definition metricString : string := "cpu value=42 0" ++ String "010" EmptyString.

(** The double quote. *)
Definition quote : string := String "034" EmptyString.

(** 42.0 *)
Definition float_42 : float64 := S754_finite false 5910974510923776 (-47).

(** [getURL().String()]. *)
Definition getURL : option string := Some "udp://localhost:0".

(** The connection of [TestUDP_Simple]: [WriteF] appends the bytes to the
    buffer and returns nil. *)
Definition recordingConn : MockConn :=
  {| WriteF := Some (fun _ => None); CloseF := None |}.

(** The connection of [TestUDP_WriteError]: [WriteF] returns an error,
    [CloseF] sets [closed] and returns nil. *)
Definition refusingConn : MockConn :=
  {| WriteF := Some (fun _ => Some "write udp 127.0.0.1:52190->127.0.0.1:9999: write: connection refused");
     CloseF := Some None |}.

(** The connection of [TestUDP_ErrorLogging], [&MockConn{}]. *)
Definition bareConn : MockConn := {| WriteF := None; CloseF := None |}.

Definition config_NoURL : UDPConfig :=
  {| MaxPayloadSize := 0; URL := None; Dialer := None; Log := None |}.

Definition config_URL : UDPConfig :=
  {| MaxPayloadSize := 0; URL := getURL; Dialer := None; Log := None |}.

Definition config_Simple : UDPConfig :=
  {| MaxPayloadSize := 0; URL := getURL;
     Dialer := Some {| DialContextF := inl recordingConn |}; Log := None |}.

Definition config_DialError : UDPConfig :=
  {| MaxPayloadSize := 0; URL := Some "invalid://127.0.0.1:9999";
     Dialer := Some {| DialContextF :=
                         inr ("unsupported scheme [invalid://localhost:9999]: "
                              ++ quote ++ "invalid" ++ quote) |};
     Log := None |}.

Definition config_WriteError : UDPConfig :=
  {| MaxPayloadSize := 0; URL := getURL;
     Dialer := Some {| DialContextF := inl refusingConn |}; Log := None |}.

(** The case "logs need more space". *)
Definition config_NeedMoreSpace : UDPConfig :=
  {| MaxPayloadSize := 1; URL := getURL;
     Dialer := Some {| DialContextF := inl bareConn |}; Log := Some testutil_Logger |}.

(** The case "logs series name". *)
Definition config_SeriesName : UDPConfig :=
  {| MaxPayloadSize := 0; URL := getURL;
     Dialer := Some {| DialContextF := inl bareConn |}; Log := Some testutil_Logger |}.

Definition logContains_NeedMoreSpace : string :=
  "could not serialize metric: " ++ quote ++ "cpu" ++ quote ++ ": need more space".

Definition logContains_SeriesName : string :=
  "could not serialize metric: " ++ quote ++ "cpu,host=example.org" ++ quote
  ++ ": no serializable fields".

(** *** The tests of influxdb_test

    Packages [metric] and [influxdb] are not part of this tree: the tests
    are taken with [metric.New], [influxdb.ErrMissingURL],
    [influxdb.NewUDPClient] and the methods [URL] and [Write] of the client
    as parameters, and each test is the condition under which it passes. *)
Section Tests.

(** The client [NewUDPClient] returns. *)
Variable Client : Type.

(** [metric.New]: the metric, or the error of a construction that fails.
    The call sites take one result ([m := metric.New(...)]), so a
    construction that fails leaves the test without the metric of its
    batch, and the test fails. *)
Variable metric_New :
  string -> gmap string string -> gmap string value -> Z -> result Metric.

Variable ErrMissingURL : error.

Variable NewUDPClient : UDPConfig -> Client + error.

(** [client.URL()]. *)
Variable client_URL : Client -> string.

(** [client.Write(ctx, metrics)]: what the call did, [None] when it
    panics. *)
Variable Write : Client -> list Metric -> option run.

Definition getMetric : result Metric :=
  metric_New "cpu" ∅ (<["value" := Float float_42]> ∅) 0.

(** The metric of the case "logs series name": a tag and the empty field
    map. *)
Definition metricWithoutFields : result Metric :=
  metric_New "cpu" (<["host" := "example.org"]> ∅) ∅ 0.

(** What the tests of [Write] share: the client is made without an error,
    the metrics of the batch are constructed, [Write] returns, having
    called nothing that panics, and the assertions on the call hold. *)
Definition writes (config : UDPConfig) (metrics : list (result Metric))
    (assertions : run -> bool) : bool :=
  match NewUDPClient config with
  | inr _ => false
  | inl client =>
      match constructed metrics with
      | None => false
      | Some batch =>
          match Write client batch with
          | None => false
          | Some r => admits config r && assertions r
          end
      end
  end.

Definition TestUDP_NewUDPClientNoURL : bool :=
  match NewUDPClient config_NoURL with
  | inr err => String.eqb err ErrMissingURL
  | inl _ => false
  end.

Definition TestUDP_URL : bool :=
  match NewUDPClient config_URL with
  | inr _ => false
  | inl client => bool_decide (getURL = Some (client_URL client))
  end.

(** The buffer of the test holds the bytes of the calls of [WriteF], in
    order. *)
Definition TestUDP_Simple : bool :=
  writes config_Simple [getMetric; getMetric]
    (fun r => bool_decide (returned r = None)
              && String.eqb (metricString ++ metricString)
                            (String.concat EmptyString (written r))).

Definition TestUDP_DialError : bool :=
  writes config_DialError [getMetric]
    (fun r => bool_decide (is_Some (returned r))).

(** [closed] is true when [CloseF] was called. *)
Definition TestUDP_WriteError : bool :=
  writes config_WriteError [getMetric]
    (fun r => bool_decide (is_Some (returned r)) && (0 <? closes r)%nat).

Definition TestUDP_ErrorLogging : bool :=
  forallb
    (fun tt : UDPConfig * list (result Metric) * string =>
       let '(config, metrics, logContains) := tt in
       writes config metrics
         (fun r => bool_decide (returned r = None) && Contains (logged r) logContains))
    [ (config_NeedMoreSpace, [getMetric], logContains_NeedMoreSpace);
      (config_SeriesName, [metricWithoutFields], logContains_SeriesName) ].

End Tests.

End InfluxUDP.

(** ** A client for the tests of influxdb_test *)

Module UDPStandIn.

Import Metric InfluxUDP.
Local Open Scope string_scope.

(** A client written for the tests of influxdb_test.  It stands in for the
    client of package [influxdb], which is not part of this tree, and shows
    that the tests can pass together; it is used for nothing else. *)
Definition Client : Type := UDPConfig.

Definition ErrMissingURL : error := "missing URL".

Definition NewUDPClient (config : UDPConfig) : Client + error :=
  match URL config with
  | None => inr ErrMissingURL
  | Some _ => inl config
  end.

Definition client_URL (client : Client) : string := default EmptyString (URL client).

(** The line protocol of the metrics of the tests, for a maximum payload
    size. *)
Definition serialize (maxPayload : nat) (m : Metric) : string + string :=
  let series :=
    name m ++ String.concat EmptyString ((fun kv => "," ++ kv.1 ++ "=" ++ kv.2) <$> TagList m) in
  let quoted := quote ++ series ++ quote in
  if (size (fields m) =? 0)%nat then inr (quoted ++ ": no serializable fields")
  else if (0 <? maxPayload)%nat && (maxPayload <? String.length metricString)%nat
       then inr (quoted ++ ": need more space")
       else inl metricString.

Fixpoint writeMetrics (maxPayload : nat) (conn : MockConn) (metrics : list Metric)
    (r : run) : option run :=
  match metrics with
  | [] => Some r
  | m :: rest =>
      match serialize maxPayload m with
      | inr msg =>
          writeMetrics maxPayload conn rest
            {| returned := None; written := written r; closes := closes r;
               logged := logged r ++ "E! could not serialize metric: " ++ msg
                         ++ String "010" EmptyString |}
      | inl octets =>
          match WriteF conn with
          | None => None
          | Some f =>
              let r := {| returned := None; written := written r ++ [octets];
                          closes := closes r; logged := logged r |} in
              match f octets with
              | None => writeMetrics maxPayload conn rest r
              | Some err =>
                  match CloseF conn with
                  | None => None
                  | Some _ =>
                      Some {| returned := Some err; written := written r;
                              closes := S (closes r); logged := logged r |}
                  end
              end
          end
      end
  end.

Definition Write (client : Client) (metrics : list Metric) : option run :=
  let r := {| returned := None; written := []; closes := 0; logged := EmptyString |} in
  match Dialer client with
  | None => Some {| returned := Some "no dialer"; written := []; closes := 0;
                    logged := EmptyString |}
  | Some dialer =>
      match DialContextF dialer with
      | inr err => Some {| returned := Some err; written := []; closes := 0;
                           logged := EmptyString |}
      | inl conn => writeMetrics (MaxPayloadSize client) conn metrics r
      end
  end.

End UDPStandIn.

(** ** Worked configurations *)

Module Scenario.

Import Metric Buffer Accumulator.
Local Open Scope Z_scope.
Local Open Scope string_scope.

(** The metrics A, B, C, D of the scenario of section 8 of the spec. *)
Definition mA : Metric := New "A" ∅ (<["value" := SignedInteger 1]> ∅) 1.
Definition mB : Metric := New "B" ∅ (<["value" := SignedInteger 2]> ∅) 2.
Definition mC : Metric := New "C" ∅ (<["value" := SignedInteger 3]> ∅) 3.
Definition mD : Metric := New "D" ∅ (<["value" := SignedInteger 4]> ∅) 4.

Definition buffer3 : Buffer :=
  {| capacity := 3%nat; items := []; removed := 0%nat; peeks := 0%nat |}.

(** A metric with a tag and two fields. *)
Definition cpu0 : Metric :=
  New "cpu" (<["host" := "example.org"]> ∅)
      (<["usage" := Float (S754_zero false)]> (<["cores" := UnsignedInteger 8%N]> ∅)) 0.

(** A run that reports an error between two metrics. *)
Definition calls3 : list call :=
  [ CallAddFields "dcos_container" (<["cluster" := "a"]> ∅) [("mem_total_bytes", Supported (SignedInteger 1024))] None;
    CallAddError (PluginErr "container 7: connection refused");
    CallAddFields "dcos_app" (<["cluster" := "a"]> ∅) [("requests", Supported (Float (S754_zero false)))] (Some 5) ].

(** The plugin as [init] registers it, then configured with an empty
    path and a write timeout of half a second. *)
Definition client0 : Prometheus.PrometheusClient unit unit string string unit unit unit :=
  {| Prometheus.Listen := Prometheus.defaultListen;
     Prometheus.ReadTimeout := 0;
     Prometheus.WriteTimeout := 500000000;
     Prometheus.MetricVersion := 0;
     Prometheus.BasicUsername := "telegraf";
     Prometheus.BasicPassword := "secret";
     Prometheus.IPRange := ["192.168.0.0/24"];
     Prometheus.ExpirationInterval := Prometheus.defaultExpirationInterval;
     Prometheus.Path := EmptyString;
     Prometheus.CollectorsExclude := ["process"];
     Prometheus.StringAsLabel := true;
     Prometheus.ExportTimestamp := false;
     Prometheus.TypeMappings := tt;
     Prometheus.tlsServerConfig := tt;
     Prometheus.server := None;
     Prometheus.collector := None |}.

(** [Init] with collaborators that all succeed. *)
Definition Init0 :=
  Prometheus.Init unit unit string string unit unit unit
    tt (fun r _ => inl r) (fun _ => None) (fun _ _ _ _ => tt) (fun _ _ _ _ => tt)
    (fun cidr => inl cidr) (fun secret => inl secret) (fun _ => inl None).

End Scenario.

(** ** plugins/outputs/mqtt/homie.go: the device messages *)

Module HomieDevice.

Import GoStrings.
Local Open Scope string_scope.

(** A rune of [a-z0-9], the complement of the class of [idRe]. *)
Definition alnum (r : Homie.rune) : bool := negb (Homie.idRe_class r).

(** [strings.Contains(s, substr)] for a one-byte [substr]. *)
Fixpoint Contains (s : string) (substr : ascii) : bool :=
  match s with
  | EmptyString => false
  | String c rest => Ascii.eqb c substr || Contains rest substr
  end.

(** The Go string of a list of ASCII runes, one byte each. *)
Definition stringOfRunes (l : list Homie.rune) : string :=
  string_of_list_ascii (ascii_of_N <$> l).

(** [message{topic, payload}] of the mqtt output. *)
Record message := Message { topic : string; payload : string }.

Section Collect.

Variable unicodeLower : Homie.rune -> Homie.rune.

(** The UTF-8 decoding of a Go string, as [strings.ToLower] and package
    [regexp] read it. *)
Variable decode : string -> list Homie.rune.

Variables (Template Metric FieldValue : Type).

(** [t.Execute(&b, m)]: the text written to the builder, or the error. *)
Variable Execute : Template -> Metric -> string + string.

(** [metric.TagList()] and [metric.FieldList()]. *)
Variable TagList : Metric -> list (string * string).
Variable FieldList : Metric -> list (string * FieldValue).

(** [normalizeID] on a Go string: the result of [Homie.normalizeID] holds
    ASCII runes only and is encoded a byte per rune. *)
Definition normalizeID (raw : string) : string :=
  stringOfRunes (Homie.normalizeID unicodeLower (decode raw)).

(** The fields of [MQTT] that [collectHomieDeviceMessages] uses. *)
Record MQTT := {
  homieSeen : gmap string (gmap string bool);
  homieDeviceNameGenerator : Template;
  homieNodeIDGenerator : Template
}.

Definition set_homieSeen (seen : gmap string (gmap string bool)) (m : MQTT) : MQTT :=
  {| homieSeen := seen;
     homieDeviceNameGenerator := homieDeviceNameGenerator m;
     homieNodeIDGenerator := homieNodeIDGenerator m |}.

(** [homieGenerate], for a metric that is a [telegraf.TemplateMetric]. *)
Definition homieGenerate (t : Template) (m : Metric) : string + string :=
  match Execute t m with
  | inr err => inr err
  | inl result =>
      if Contains result "/" then inr "cannot contain /" else inl result
  end.

(** [collectHomieDeviceMessages]: the receiver after the call, and the
    messages with the node ID or the error.  What was assigned to
    [m.homieSeen] before a failing step stays in place. *)
Definition collectHomieDeviceMessages (m : MQTT) (topic : string) (metric : Metric)
    : MQTT * (list message * string + string) :=
  let device :=
    match homieSeen m !! topic with
    | Some _ => inl ([], m)
    | None =>
        match homieGenerate (homieDeviceNameGenerator m) metric with
        | inr err => inr err
        | inl deviceName =>
            inl ([ Message (topic ++ "/$homie") "4.0";
                   Message (topic ++ "/$name") deviceName;
                   Message (topic ++ "/$state") "ready" ],
                 set_homieSeen (<[topic := ∅]> (homieSeen m)) m)
        end
    end in
  match device with
  | inr err => (m, inr ("generating device name failed: " ++ err))
  | inl (messages, m) =>
      match homieGenerate (homieNodeIDGenerator m) metric with
      | inr err => (m, inr ("generating device ID failed: " ++ err))
      | inl nodeName =>
          let nodeID := normalizeID nodeName in
          let nodes := default ∅ (homieSeen m !! topic) in
          let '(messages, m) :=
            if default false (nodes !! nodeID) then (messages, m)
            else
              let nodes := <[nodeID := true]> nodes in
              let m := set_homieSeen (<[topic := nodes]> (homieSeen m)) m in
              let nodeIDs := Strings (map_to_list nodes).*1 in
              ((messages ++ [ Message (topic ++ "/$nodes") (Join nodeIDs ",");
                              Message (topic ++ "/" ++ nodeID ++ "/$name") nodeName ])%list,
               m) in
          let properties :=
            Strings (((fun tag => normalizeID tag.1) <$> TagList metric)
                     ++ ((fun field => normalizeID field.1) <$> FieldList metric))%list in
          (m, inl ((messages ++ [ Message (topic ++ "/" ++ nodeID ++ "/$properties")
                                          (Join properties ",") ])%list,
                   nodeID))
      end
  end.

End Collect.

End HomieDevice.

(** ** plugins/outputs/prometheus_client: listening *)

Module PrometheusServe.

Import Prometheus.
Local Open Scope string_scope.

(** [url.URL], the fields the plugin sets and reads. *)
Record URL := {
  Scheme : string;
  Host : string;
  urlPath : string
}.

(** A call that may dereference a nil pointer. *)
Inductive outcome (A : Type) :=
| Done (a : A)
| Panics.
Arguments Done {A} a.
Arguments Panics {A}.

Section Serve.

Variables (Collector MetricTypes Secret IPNet ServerConfig TLSConf Registry Listener : Type).

(** The plugin as [Init] handles it, and its field [url]. *)
Record Plugin := {
  client : PrometheusClient Collector MetricTypes Secret IPNet ServerConfig TLSConf Registry;
  url : option URL
}.

(** The calls that leave the package. *)
Variable ParseRequestURI : string -> URL + error.
Variable strings_ToLower : string -> string.
Variable tls_Listen : string -> TLSConf -> Listener + error.
Variable net_Listen : string -> Listener + error.
Variable SplitHostPort : string -> string * string + error.
(** [strconv.ParseUint(s, 10, 32)]. *)
Variable ParseUint : string -> Z + error.
Variable vsock_Listen : Z -> Listener + error.
(** [listener.Addr().String()]. *)
Variable Listener_Addr : Listener -> string.
(** [u.String()]. *)
Variable URL_String : URL -> string.
(** [server.Shutdown(ctx)]. *)
Variable Shutdown : Server IPNet TLSConf Registry -> option error.

Definition listenTCP (p : PrometheusClient Collector MetricTypes Secret IPNet ServerConfig TLSConf Registry)
    (host : string) : outcome (Listener + error) :=
  match server p with
  | None => Panics
  | Some srv =>
      match srvTLSConfig srv with
      | Some tlsConfig => Done (tls_Listen host tlsConfig)
      | None => Done (net_Listen host)
      end
  end.

Definition listenVsock (host : string) : Listener + error :=
  match SplitHostPort host with
  | inr err => inr err
  | inl (_, portStr) =>
      match ParseUint portStr with
      | inr err => inr err
      | inl port => vsock_Listen port
      end
  end.

Definition listen (p : PrometheusClient Collector MetricTypes Secret IPNet ServerConfig TLSConf Registry)
    : outcome (Listener + error) :=
  match ParseRequestURI (Listen p) with
  | inr _ => listenTCP p (Listen p)
  | inl u =>
      let scheme := strings_ToLower (Scheme u) in
      if String.eqb scheme EmptyString || String.eqb scheme "tcp" || String.eqb scheme "http"
      then listenTCP p (Host u)
      else if String.eqb scheme "vsock"
      then Done (listenVsock (Host u))
      else listenTCP p (Host u)
  end.

(** [Connect]: the plugin after the call and the returned error.  The
    goroutine it starts serves the listener and assigns no field of the
    plugin. *)
Definition Connect (pl : Plugin) : outcome (Plugin * option error) :=
  match listen (client pl) with
  | Panics => Panics
  | Done (inr err) => Done (pl, Some err)
  | Done (inl listener) =>
      match server (client pl) with
      | None => Panics
      | Some srv =>
          let scheme := match srvTLSConfig srv with Some _ => "https" | None => "http" end in
          Done ({| client := client pl;
                   url := Some {| Scheme := scheme;
                                  Host := Listener_Addr listener;
                                  urlPath := Path (client pl) |} |},
                None)
      end
  end.

(** The method [URL]. *)
Definition URL_of (pl : Plugin) : string :=
  match url pl with
  | Some u => URL_String u
  | None => EmptyString
  end.

(** [Close]; the result of [prometheus.Unregister] is dropped. *)
Definition Close (pl : Plugin) : outcome (Plugin * option error) :=
  match server (client pl) with
  | None => Panics
  | Some srv =>
      let err := Shutdown srv in
      Done ({| client := client pl; url := None |}, err)
  end.

End Serve.

Arguments client {_ _ _ _ _ _ _} p.
Arguments url {_ _ _ _ _ _ _} p.

End PrometheusServe.

(** ** plugins/inputs/dcos: initialisation *)

Module DCOSInit.

Local Open Scope string_scope.

Definition error : Type := string.

Section Initialize.

Variables (Client Filter PrivateKey ClientConfig TLSConf ParsedURL : Type).

(** The implementations of the interface [credentials]. *)
Inductive credentials :=
| serviceAccount (accountID : string) (privateKey : PrivateKey)
| tokenCreds (Path : string)
| nullCreds.

(** The struct [DCOS]; a nil interface value is [None]. *)
Record DCOS := {
  ClusterURL : string;
  ServiceAccountID : string;
  ServiceAccountPrivateKey : string;
  TokenFile : string;
  NodeInclude : list string;
  NodeExclude : list string;
  ContainerInclude : list string;
  ContainerExclude : list string;
  AppInclude : list string;
  AppExclude : list string;
  MaxConnections : Z;
  ResponseTimeout : Z;
  tlsClientConfig : ClientConfig;
  client : option Client;
  creds : option credentials;
  initialized : bool;
  nodeFilter : option Filter;
  containerFilter : option Filter;
  appFilter : option Filter
}.

(** The calls that leave the package.  [filter.NewIncludeExcludeFilter]
    returns a filter and an error, as in Go. *)
Variable NewIncludeExcludeFilter : list string -> list string -> option Filter * option error.
Variable TLSConfig : ClientConfig -> TLSConf + error.
Variable url_Parse : string -> ParsedURL + error.
Variable newClusterClient : ParsedURL -> Z -> Z -> TLSConf -> Client.
Variable ReadFile : string -> string + error.
Variable ParseRSAPrivateKeyFromPEM : string -> PrivateKey + error.

Definition set_nodeFilter (f : option Filter) (d : DCOS) : DCOS :=
  {| ClusterURL := ClusterURL d; ServiceAccountID := ServiceAccountID d;
     ServiceAccountPrivateKey := ServiceAccountPrivateKey d; TokenFile := TokenFile d;
     NodeInclude := NodeInclude d; NodeExclude := NodeExclude d;
     ContainerInclude := ContainerInclude d; ContainerExclude := ContainerExclude d;
     AppInclude := AppInclude d; AppExclude := AppExclude d;
     MaxConnections := MaxConnections d; ResponseTimeout := ResponseTimeout d;
     tlsClientConfig := tlsClientConfig d; client := client d; creds := creds d;
     initialized := initialized d; nodeFilter := f;
     containerFilter := containerFilter d; appFilter := appFilter d |}.

Definition set_containerFilter (f : option Filter) (d : DCOS) : DCOS :=
  {| ClusterURL := ClusterURL d; ServiceAccountID := ServiceAccountID d;
     ServiceAccountPrivateKey := ServiceAccountPrivateKey d; TokenFile := TokenFile d;
     NodeInclude := NodeInclude d; NodeExclude := NodeExclude d;
     ContainerInclude := ContainerInclude d; ContainerExclude := ContainerExclude d;
     AppInclude := AppInclude d; AppExclude := AppExclude d;
     MaxConnections := MaxConnections d; ResponseTimeout := ResponseTimeout d;
     tlsClientConfig := tlsClientConfig d; client := client d; creds := creds d;
     initialized := initialized d; nodeFilter := nodeFilter d;
     containerFilter := f; appFilter := appFilter d |}.

Definition set_appFilter (f : option Filter) (d : DCOS) : DCOS :=
  {| ClusterURL := ClusterURL d; ServiceAccountID := ServiceAccountID d;
     ServiceAccountPrivateKey := ServiceAccountPrivateKey d; TokenFile := TokenFile d;
     NodeInclude := NodeInclude d; NodeExclude := NodeExclude d;
     ContainerInclude := ContainerInclude d; ContainerExclude := ContainerExclude d;
     AppInclude := AppInclude d; AppExclude := AppExclude d;
     MaxConnections := MaxConnections d; ResponseTimeout := ResponseTimeout d;
     tlsClientConfig := tlsClientConfig d; client := client d; creds := creds d;
     initialized := initialized d; nodeFilter := nodeFilter d;
     containerFilter := containerFilter d; appFilter := f |}.

Definition set_client (c : Client) (d : DCOS) : DCOS :=
  {| ClusterURL := ClusterURL d; ServiceAccountID := ServiceAccountID d;
     ServiceAccountPrivateKey := ServiceAccountPrivateKey d; TokenFile := TokenFile d;
     NodeInclude := NodeInclude d; NodeExclude := NodeExclude d;
     ContainerInclude := ContainerInclude d; ContainerExclude := ContainerExclude d;
     AppInclude := AppInclude d; AppExclude := AppExclude d;
     MaxConnections := MaxConnections d; ResponseTimeout := ResponseTimeout d;
     tlsClientConfig := tlsClientConfig d; client := Some c; creds := creds d;
     initialized := initialized d; nodeFilter := nodeFilter d;
     containerFilter := containerFilter d; appFilter := appFilter d |}.

Definition set_creds (c : credentials) (d : DCOS) : DCOS :=
  {| ClusterURL := ClusterURL d; ServiceAccountID := ServiceAccountID d;
     ServiceAccountPrivateKey := ServiceAccountPrivateKey d; TokenFile := TokenFile d;
     NodeInclude := NodeInclude d; NodeExclude := NodeExclude d;
     ContainerInclude := ContainerInclude d; ContainerExclude := ContainerExclude d;
     AppInclude := AppInclude d; AppExclude := AppExclude d;
     MaxConnections := MaxConnections d; ResponseTimeout := ResponseTimeout d;
     tlsClientConfig := tlsClientConfig d; client := client d; creds := Some c;
     initialized := initialized d; nodeFilter := nodeFilter d;
     containerFilter := containerFilter d; appFilter := appFilter d |}.

Definition set_initialized (b : bool) (d : DCOS) : DCOS :=
  {| ClusterURL := ClusterURL d; ServiceAccountID := ServiceAccountID d;
     ServiceAccountPrivateKey := ServiceAccountPrivateKey d; TokenFile := TokenFile d;
     NodeInclude := NodeInclude d; NodeExclude := NodeExclude d;
     ContainerInclude := ContainerInclude d; ContainerExclude := ContainerExclude d;
     AppInclude := AppInclude d; AppExclude := AppExclude d;
     MaxConnections := MaxConnections d; ResponseTimeout := ResponseTimeout d;
     tlsClientConfig := tlsClientConfig d; client := client d; creds := creds d;
     initialized := b; nodeFilter := nodeFilter d;
     containerFilter := containerFilter d; appFilter := appFilter d |}.

(** [createFilters]: each filter field is assigned what the constructor
    returned before the error is looked at. *)
Definition createFilters (d : DCOS) : DCOS * option error :=
  let '(f, err) := NewIncludeExcludeFilter (NodeInclude d) (NodeExclude d) in
  let d := set_nodeFilter f d in
  match err with
  | Some err => (d, Some err)
  | None =>
  let '(f, err) := NewIncludeExcludeFilter (ContainerInclude d) (ContainerExclude d) in
  let d := set_containerFilter f d in
  match err with
  | Some err => (d, Some err)
  | None =>
  let '(f, err) := NewIncludeExcludeFilter (AppInclude d) (AppExclude d) in
  let d := set_appFilter f d in
  match err with
  | Some err => (d, Some err)
  | None => (d, None)
  end end end.

Definition createClient (d : DCOS) : Client + error :=
  match TLSConfig (tlsClientConfig d) with
  | inr err => inr err
  | inl tlsCfg =>
      match url_Parse (ClusterURL d) with
      | inr err => inr err
      | inl address =>
          inl (newClusterClient address (ResponseTimeout d) (MaxConnections d) tlsCfg)
      end
  end.

Definition createCredentials (d : DCOS) : credentials + error :=
  if negb (String.eqb (ServiceAccountID d) EmptyString)
     && negb (String.eqb (ServiceAccountPrivateKey d) EmptyString)
  then
    match ReadFile (ServiceAccountPrivateKey d) with
    | inr err => inr err
    | inl bs =>
        match ParseRSAPrivateKeyFromPEM bs with
        | inr err => inr err
        | inl privateKey => inl (serviceAccount (ServiceAccountID d) privateKey)
        end
    end
  else if negb (String.eqb (TokenFile d) EmptyString)
  then inl (tokenCreds (TokenFile d))
  else inl nullCreds.

(** [initialize]: the receiver after the call and the returned error. *)
Definition initialize (d : DCOS) : DCOS * option error :=
  if negb (initialized d) then
    match createFilters d with
    | (d, Some err) => (d, Some err)
    | (d, None) =>
        let step :=
          match client d with
          | Some _ => inl d
          | None =>
              match createClient d with
              | inr err => inr err
              | inl c => inl (set_client c d)
              end
          end in
        match step with
        | inr err => (d, Some err)
        | inl d =>
            let step :=
              match creds d with
              | Some _ => inl d
              | None =>
                  match createCredentials d with
                  | inr err => inr err
                  | inl c => inl (set_creds c d)
                  end
              end in
            match step with
            | inr err => (d, Some err)
            | inl d => (set_initialized true d, None)
            end
        end
    end
  else (d, None).

End Initialize.

End DCOSInit.

(** ** plugins/inputs/dcos: gathering *)

Module DCOSGather.

Import DCOS DCOSInit.
Local Open Scope Z_scope.
Local Open Scope string_scope.

(** A Go [error] returned by the cluster client: its message and, when
    [errors.As] finds an [apiError] in its chain, the status code of that. *)
Record goError := {
  errMessage : string;
  apiStatus : option Z
}.

(** The test of lines 156 to 159 and 173 to 176. *)
Definition isNotFound (err : goError) : bool :=
  match apiStatus err with
  | Some statusCode => (statusCode =? 404)%Z
  | None => false
  end.

(** The error [Gather] returns: that of [initialize] or that of a call on
    the credentials or the client. *)
Inductive gatherError :=
| InitError (err : DCOSInit.error)
| CallError (err : goError).

(** A call on the accumulator. *)
Inductive accCall :=
| AddError (err : goError)
| AddFields (call : addFieldsCall).

(** The calls one goroutine makes on the accumulator, in their order.  The
    goroutines run concurrently: how the calls of different goroutines
    interleave is left open. *)
Definition routineCalls : Type := list accCall.

(** The goroutines that add metrics, each reading the clock for itself. *)
Inductive routine :=
| NodeRoutine (node : string)
| ContainerRoutine (node container : string)
| AppRoutine (node container : string).

(** [summary], the fields [Gather] reads; a slave and a container by
    their [ID]. *)
Record summary := {
  Cluster : string;
  Slaves : list string
}.

(** What a call returns, when it returns. *)
Inductive result (A : Type) :=
| Returns (a : A)
| Panic.
Arguments Returns {A} a.
Arguments Panic {A}.

Section Gather.

Variable int64_of_float64 : float64 -> Z.
Variables (Client Filter PrivateKey ClientConfig TLSConf ParsedURL : Type).

(** The calls of [initialize]. *)
Variable NewIncludeExcludeFilter : list string -> list string -> option Filter * option DCOSInit.error.
Variable TLSConfig : ClientConfig -> TLSConf + DCOSInit.error.
Variable url_Parse : string -> ParsedURL + DCOSInit.error.
Variable newClusterClient : ParsedURL -> Z -> Z -> TLSConf -> Client.
Variable ReadFile : string -> string + DCOSInit.error.
Variable ParseRSAPrivateKeyFromPEM : string -> PrivateKey + DCOSInit.error.

(** [filter.Match]. *)
Variable Match : Filter -> string -> bool.
(** The method [token] of the credentials, given the client (nil is
    [None]), and the methods of the client. *)
Variable token : credentials PrivateKey -> option Client -> result (string + goError).
Variable setToken : Client -> string -> Client.
Variable getSummary : Client -> summary + goError.
Variable getContainers : Client -> string -> list string + goError.
Variable getNodeMetrics : Client -> string -> metrics + goError.
Variable getContainerMetrics : Client -> string -> string -> metrics + goError.
Variable getAppMetrics : Client -> string -> string -> metrics + goError.
(** [time.Now()] as each goroutine reads it in [addMetrics]. *)
Variable now : routine -> Z.

(** The goroutine of lines 127 to 135. *)
Definition nodeMetricsRoutine (c : Client) (cluster node : string) : routineCalls :=
  match getNodeMetrics c node with
  | inr err => [AddError err]
  | inl m => AddFields <$> addNodeMetrics int64_of_float64 (now (NodeRoutine node)) cluster m
  end.

(** The goroutine of lines 152 to 164. *)
Definition containerRoutine (c : Client) (cluster node container : string) : routineCalls :=
  match getContainerMetrics c node container with
  | inr err => if isNotFound err then [] else [AddError err]
  | inl m =>
      AddFields <$> addContainerMetrics int64_of_float64
                      (now (ContainerRoutine node container)) cluster m
  end.

(** The goroutine of lines 169 to 181. *)
Definition appRoutine (c : Client) (cluster node container : string) : routineCalls :=
  match getAppMetrics c node container with
  | inr err => if isNotFound err then [] else [AddError err]
  | inl m =>
      AddFields <$> addAppMetrics int64_of_float64 (now (AppRoutine node container)) cluster m
  end.

(** The loop of [gatherContainers] over the containers: the goroutines it
    starts.  A nil filter makes [Match] panic. *)
Fixpoint containerRoutines (d : DCOS Client Filter PrivateKey ClientConfig) (c : Client)
    (cluster node : string) (containers : list string) : result (list routineCalls) :=
  match containers with
  | [] => Returns []
  | container :: rest =>
      match containerFilter _ _ _ _ d with
      | None => Panic
      | Some containerFilter =>
          let started :=
            if Match containerFilter container
            then [containerRoutine c cluster node container] else [] in
          match appFilter _ _ _ _ d with
          | None => Panic
          | Some appFilter =>
              let started :=
                if Match appFilter container
                then (started ++ [appRoutine c cluster node container])%list else started in
              match containerRoutines d c cluster node rest with
              | Panic => Panic
              | Returns more => Returns (started ++ more)%list
              end
          end
      end
  end.

(** [gatherContainers]: the calls it makes itself, and the goroutines it
    starts and waits for. *)
Definition gatherContainers (d : DCOS Client Filter PrivateKey ClientConfig) (c : Client)
    (cluster node : string) : result (routineCalls * list routineCalls) :=
  match getContainers c node with
  | inr err => Returns ([AddError err], [])
  | inl containers =>
      match containerRoutines d c cluster node containers with
      | Panic => Panic
      | Returns started => Returns ([], started)
      end
  end.

(** [gatherNode], run in a goroutine of its own: its calls come first in
    the list, then those of the goroutines started for the node. *)
Definition gatherNode (d : DCOS Client Filter PrivateKey ClientConfig) (c : Client)
    (cluster node : string) : result (list routineCalls) :=
  match nodeFilter _ _ _ _ d with
  | None => Panic
  | Some nodeFilter =>
      if negb (Match nodeFilter node) then Returns [[]]
      else
        match gatherContainers d c cluster node with
        | Panic => Panic
        | Returns (own, started) =>
            Returns (own :: nodeMetricsRoutine c cluster node :: started)
        end
  end.

(** The loop of [Gather] over [summary.Slaves]. *)
Fixpoint gatherNodes (d : DCOS Client Filter PrivateKey ClientConfig) (c : Client)
    (cluster : string) (nodes : list string) : result (list routineCalls) :=
  match nodes with
  | [] => Returns []
  | node :: rest =>
      match gatherNode d c cluster node with
      | Panic => Panic
      | Returns routines =>
          match gatherNodes d c cluster rest with
          | Panic => Panic
          | Returns more => Returns (routines ++ more)%list
          end
      end
  end.

(** [Gather]: the receiver after the call, and the returned error with the
    calls made on the accumulator, goroutine by goroutine. *)
Definition Gather (d : DCOS Client Filter PrivateKey ClientConfig)
    : DCOS Client Filter PrivateKey ClientConfig
      * result (option gatherError * list routineCalls) :=
  match initialize Client Filter PrivateKey ClientConfig TLSConf ParsedURL
          NewIncludeExcludeFilter TLSConfig url_Parse newClusterClient ReadFile
          ParseRSAPrivateKeyFromPEM d with
  | (d, Some err) => (d, Returns (Some (InitError err), []))
  | (d, None) =>
      match creds _ _ _ _ d with
      | None => (d, Panic)
      | Some credentials =>
          match token credentials (client _ _ _ _ d) with
          | Panic => (d, Panic)
          | Returns (inr err) => (d, Returns (Some (CallError err), []))
          | Returns (inl tok) =>
              match client _ _ _ _ d with
              | None => (d, Panic)
              | Some c =>
                  let c := setToken c tok in
                  let d := set_client _ _ _ _ c d in
                  match getSummary c with
                  | inr err => (d, Returns (Some (CallError err), []))
                  | inl summary =>
                      match gatherNodes d c (Cluster summary) (Slaves summary) with
                      | Panic => (d, Panic)
                      | Returns routines => (d, Returns (None, routines))
                      end
                  end
              end
          end
      end
  end.

End Gather.

End DCOSGather.

(** ** Instances of the plugins, with the calls that leave them fixed *)

Module Examples.

Local Open Scope Z_scope.
Local Open Scope string_scope.

(** *** homie.go *)

(** A template in the instance is a prefix written before the name of the
    metric; [None] is a template whose execution fails. *)
Definition Execute0 (t : option string) (metric : string) : string + string :=
  match t with
  | Some text => inl (text ++ metric)
  | None => inr "template: node: unexpected EOF"
  end.

Definition TagList0 (metric : string) : list (string * string) :=
  [("Host", "example.org"); ("cpu", "cpu0")].

Definition FieldList0 (metric : string) : list (string * Z) :=
  [("usage_idle", 97); ("Usage User", 2)].

Definition collect0 :=
  HomieDevice.collectHomieDeviceMessages (fun r => r) Homie.asciiRunes
    (option string) string Z Execute0 TagList0 FieldList0.

Definition mqtt0 : HomieDevice.MQTT (option string) :=
  {| HomieDevice.homieSeen := ∅;
     HomieDevice.homieDeviceNameGenerator := Some "Telegraf ";
     HomieDevice.homieNodeIDGenerator := Some "Node " |}.

(** The same with a node-ID template that fails. *)
Definition mqtt1 : HomieDevice.MQTT (option string) :=
  {| HomieDevice.homieSeen := ∅;
     HomieDevice.homieDeviceNameGenerator := Some "Telegraf ";
     HomieDevice.homieNodeIDGenerator := None |}.

(** The messages and the node ID of a result, empty for an error. *)
Definition messagesOf (r : list HomieDevice.message * string + string) : list HomieDevice.message :=
  match r with inl (msgs, _) => msgs | inr _ => [] end.

Definition nodeIDOf (r : list HomieDevice.message * string + string) : string :=
  match r with inl (_, nodeID) => nodeID | inr _ => EmptyString end.

(** *** prometheus_client *)

(** [Init] where no CIDR can be parsed. *)
Definition Init1 :=
  Prometheus.Init unit unit string string unit unit unit
    tt (fun r _ => inl r) (fun _ => None) (fun _ _ _ _ => tt) (fun _ _ _ _ => tt)
    (fun cidr => inr ("invalid CIDR address: " ++ cidr)) (fun secret => inl secret)
    (fun _ => inl None).

(** A registry that refuses the process collector. *)
Definition Register2 (r : unit) (c : Prometheus.Registrant unit) : unit + string :=
  match c with
  | Prometheus.ProcessCollector _ => inr "duplicate metrics collector registration attempted"
  | _ => inl r
  end.

Definition Init2 :=
  Prometheus.Init unit unit string string unit unit unit
    tt Register2 (fun _ => None) (fun _ _ _ _ => tt) (fun _ _ _ _ => tt)
    (fun cidr => inl cidr) (fun secret => inl secret) (fun _ => inl None).

(** Listeners are known by their address. *)
Definition ParseRequestURI0 (s : string) : PrometheusServe.URL + string :=
  if String.prefix "vsock://" s
  then inl {| PrometheusServe.Scheme := "vsock";
              PrometheusServe.Host := substring 8 (String.length s - 8) s;
              PrometheusServe.urlPath := EmptyString |}
  else inr "invalid URI for request".

Definition Connect0 :=
  PrometheusServe.Connect unit unit string string unit unit unit string
    ParseRequestURI0 (fun s => s)
    (fun host _ => inl ("[::]" ++ host)) (fun host => inl ("[::]" ++ host))
    (fun host => inl ("2", "9273")) (fun _ => inl 9273) (fun port => inl "vm(2):9273")
    (fun listener => listener).

(** [Shutdown] that runs into its deadline. *)
Definition Close0 :=
  PrometheusServe.Close unit unit string string unit unit unit
    (fun _ => Some "context deadline exceeded").

Definition URL0 :=
  PrometheusServe.URL_of unit unit string string unit unit unit
    (fun u => PrometheusServe.Scheme u ++ "://" ++ PrometheusServe.Host u
              ++ PrometheusServe.urlPath u).

(** A client listening on a vsock address, with a TLS configuration. *)
Definition server3 : Prometheus.Server string unit unit :=
  {| Prometheus.Addr := "vsock://2:9273";
     Prometheus.srvHandler := [];
     Prometheus.srvTLSConfig := Some tt;
     Prometheus.srvReadTimeout := Prometheus.defaultReadTimeout;
     Prometheus.srvWriteTimeout := Prometheus.defaultWriteTimeout |}.

Definition client3 : Prometheus.PrometheusClient unit unit string string unit unit unit :=
  {| Prometheus.Listen := "vsock://2:9273";
     Prometheus.ReadTimeout := Prometheus.defaultReadTimeout;
     Prometheus.WriteTimeout := Prometheus.defaultWriteTimeout;
     Prometheus.MetricVersion := 2;
     Prometheus.BasicUsername := EmptyString;
     Prometheus.BasicPassword := EmptyString;
     Prometheus.IPRange := [];
     Prometheus.ExpirationInterval := Prometheus.defaultExpirationInterval;
     Prometheus.Path := Prometheus.defaultPath;
     Prometheus.CollectorsExclude := [];
     Prometheus.StringAsLabel := true;
     Prometheus.ExportTimestamp := false;
     Prometheus.TypeMappings := tt;
     Prometheus.tlsServerConfig := tt;
     Prometheus.server := Some server3;
     Prometheus.collector := Some tt |}.

(** *** dcos *)

(** Two datapoints of one container and the dimensions of its node. *)
Definition metrics0 : DCOS.metrics :=
  {| DCOS.Datapoints :=
       [ {| DCOS.Name := "cpus.user.time"; DCOS.Tags := Some (<["hostname" := "stale"]> ∅);
            DCOS.Unit := "seconds"; DCOS.Value := S754_zero false |};
         {| DCOS.Name := "mem.total"; DCOS.Tags := Some (<["hostname" := "stale"]> ∅);
            DCOS.Unit := "bytes"; DCOS.Value := S754_zero false |} ];
     DCOS.Dimensions :=
       <["hostname" := DCOS.DimString "192.168.122.18"]>
         (<["labels" := DCOS.DimStringMap (<["DCOS_SPACE" := "/telegraf"]> ∅)]>
            (<["task_labels" := DCOS.DimStringMap (<["ignored" := "yes"]> ∅)]> ∅)) |}.

Definition point0 : DCOS.point :=
  {| DCOS.tags := <["hostname" := "192.168.122.18"]> ∅;
     DCOS.labels := <["DCOS_SPACE" := "/telegraf"]> ∅;
     DCOS.fields := <["cpus_user_time" := DCOS.Float64 (S754_zero false)]>
                      (<["mem_total_bytes" := DCOS.Int64 0]> ∅) |}.

(** The plugin with a token file, and with a service account whose key
    cannot be read. *)
Definition dcos0 : DCOSInit.DCOS string (list string * list string) string unit :=
  {| DCOSInit.ClusterURL := "https://dcos.example.org";
     DCOSInit.ServiceAccountID := EmptyString;
     DCOSInit.ServiceAccountPrivateKey := EmptyString;
     DCOSInit.TokenFile := "/home/dcos/.dcos/token";
     DCOSInit.NodeInclude := []; DCOSInit.NodeExclude := [];
     DCOSInit.ContainerInclude := []; DCOSInit.ContainerExclude := [];
     DCOSInit.AppInclude := []; DCOSInit.AppExclude := [];
     DCOSInit.MaxConnections := 10;
     DCOSInit.ResponseTimeout := 20 * Prometheus.Second;
     DCOSInit.tlsClientConfig := tt;
     DCOSInit.client := None; DCOSInit.creds := None;
     DCOSInit.initialized := false;
     DCOSInit.nodeFilter := None; DCOSInit.containerFilter := None;
     DCOSInit.appFilter := None |}.

Definition dcos1 : DCOSInit.DCOS string (list string * list string) string unit :=
  {| DCOSInit.ClusterURL := "https://dcos.example.org";
     DCOSInit.ServiceAccountID := "telegraf";
     DCOSInit.ServiceAccountPrivateKey := "/etc/telegraf/telegraf-sa-key.pem";
     DCOSInit.TokenFile := "/home/dcos/.dcos/token";
     DCOSInit.NodeInclude := []; DCOSInit.NodeExclude := [];
     DCOSInit.ContainerInclude := []; DCOSInit.ContainerExclude := [];
     DCOSInit.AppInclude := []; DCOSInit.AppExclude := [];
     DCOSInit.MaxConnections := 10;
     DCOSInit.ResponseTimeout := 20 * Prometheus.Second;
     DCOSInit.tlsClientConfig := tt;
     DCOSInit.client := None; DCOSInit.creds := None;
     DCOSInit.initialized := false;
     DCOSInit.nodeFilter := None; DCOSInit.containerFilter := None;
     DCOSInit.appFilter := None |}.

Definition initialize0 :=
  DCOSInit.initialize string (list string * list string) string unit unit string
    (fun include exclude => (Some (include, exclude), None))
    (fun _ => inl tt) (fun address => inl address) (fun address _ _ _ => address)
    (fun path => inr ("open " ++ path ++ ": no such file or directory"))
    (fun bs => inl bs).

(** A cluster of one node with one container: the node's metrics cannot
    be fetched, the container's metrics are not found, the app's are. *)
Definition Gather0 :=
  DCOSGather.Gather (fun _ => 0) string (list string * list string) string unit unit string
    (fun include exclude => (Some (include, exclude), None))
    (fun _ => inl tt) (fun address => inl address) (fun address _ _ _ => address)
    (fun path => inr ("open " ++ path ++ ": no such file or directory"))
    (fun bs => inl bs)
    (fun _ _ => true)
    (fun _ _ => DCOSGather.Returns (inl "eyJhbGciOiJSUzI1NiJ9"))
    (fun c _ => c)
    (fun _ => inl {| DCOSGather.Cluster := "a"; DCOSGather.Slaves := ["node1"] |})
    (fun _ _ => inl ["container1"])
    (fun _ _ => inr {| DCOSGather.errMessage := "connection refused";
                       DCOSGather.apiStatus := None |})
    (fun _ _ _ => inr {| DCOSGather.errMessage := "not found";
                         DCOSGather.apiStatus := Some 404 |})
    (fun _ _ _ => inl metrics0)
    (fun _ => 0).

(** The same cluster when the summary is refused. *)
Definition Gather1 :=
  DCOSGather.Gather (fun _ => 0) string (list string * list string) string unit unit string
    (fun include exclude => (Some (include, exclude), None))
    (fun _ => inl tt) (fun address => inl address) (fun address _ _ _ => address)
    (fun path => inr ("open " ++ path ++ ": no such file or directory"))
    (fun bs => inl bs)
    (fun _ _ => true)
    (fun _ _ => DCOSGather.Returns (inl "eyJhbGciOiJSUzI1NiJ9"))
    (fun c _ => c)
    (fun _ => inr {| DCOSGather.errMessage := "unauthorized";
                     DCOSGather.apiStatus := Some 401 |})
    (fun _ _ => inl ["container1"])
    (fun _ _ => inr {| DCOSGather.errMessage := "connection refused";
                       DCOSGather.apiStatus := None |})
    (fun _ _ _ => inr {| DCOSGather.errMessage := "not found";
                         DCOSGather.apiStatus := Some 404 |})
    (fun _ _ _ => inl metrics0)
    (fun _ => 0).

(** The calls of a result, none for a panic. *)
Definition routinesOf (r : DCOSGather.result (option DCOSGather.gatherError
                                              * list DCOSGather.routineCalls))
    : list DCOSGather.routineCalls :=
  match r with
  | DCOSGather.Returns (_, routines) => routines
  | DCOSGather.Panic => []
  end.

(** A stand-in for [internal.ToString], which is not part of this tree,
    on the values of the examples: the decimal digits of an integer, the
    text of a string or of a byte slice, [true] or [false]; it refuses every
    other value. *)
Definition ToString0 (value : Homie.goValue) : string + string :=
  match value with
  | Homie.GoInt v | Homie.GoInt8 v | Homie.GoInt16 v | Homie.GoInt32 v | Homie.GoInt64 v
  | Homie.GoUint v | Homie.GoUint8 v | Homie.GoUint16 v | Homie.GoUint32 v
  | Homie.GoUint64 v => inl (pretty v)
  | Homie.GoString v | Homie.GoBytes v => inl v
  | Homie.GoBool v => inl (if v then "true" else "false")
  | _ => inr ("type " ++ Homie.typeName value ++ " not supported")
  end.

End Examples.

(** * Properties *)

(** ** The order of [sort.Strings] *)

Section OrderFacts.
Import GoStrings.

#[export] Instance string_le_total : Total string_le.
Proof. intros a b. apply String.leb_total. Qed.

#[export] Instance string_le_antisymm : AntiSymm (=) string_le.
Proof. intros a b. apply String.leb_antisym. Qed.

#[export] Instance string_le_trans : Transitive string_le.
Proof.
  intros a b c. unfold string_le, String.leb.
  destruct (String.compare a b) eqn:Hab; [| |discriminate].
  - apply String.compare_eq_iff in Hab. now subst.
  - intros _. destruct (String.compare b c) eqn:Hbc; [| |discriminate]; intros _.
    + apply String.compare_eq_iff in Hbc. subst. now rewrite Hab.
    + apply String_as_OT.cmp_lt in Hab, Hbc.
      pose proof (String_as_OT.lt_trans _ _ _ Hab Hbc) as H.
      apply String_as_OT.cmp_lt in H. unfold String_as_OT.cmp in H. now rewrite H.
Qed.

(** [sort.Strings] does not depend on the order in which its input was
    collected. *)
Lemma Strings_perm (l1 l2 : list string) : l1 ≡ₚ l2 -> Strings l1 = Strings l2.
Proof.
  intros H. unfold Strings.
  apply (Sorted_unique string_le); try apply Sorted_merge_sort; try apply _.
  now rewrite !merge_sort_Permutation.
Qed.

End OrderFacts.


(** ** Prefixes and suffixes of Go strings *)

Section StringFacts.
Import GoStrings.
Local Open Scope string_scope.

Lemma substring_all (s : string) : substring 0 (String.length s) s = s.
Proof. induction s as [|c s IH]; cbn; [reflexivity|]. now rewrite IH. Qed.

Lemma substring_after (u v : string) :
  substring (String.length u) (String.length v) (u ++ v) = v.
Proof. induction u as [|c u IH]; cbn; [apply substring_all|exact IH]. Qed.

Lemma length_append (u v : string) :
  String.length (u ++ v) = (String.length u + String.length v)%nat.
Proof. induction u as [|c u IH]; simpl; [reflexivity|]. now f_equal. Qed.

Lemma substring_split (s : string) : forall n : nat,
  (n <= String.length s)%nat ->
  s = substring 0 n s ++ substring n (String.length s - n) s.
Proof.
  induction s as [|c s IH]; intros [|n] Hn; simpl in *; try reflexivity; try lia.
  - now rewrite substring_all.
  - change (String c s = String c (substring 0 n s ++ substring n (String.length s - n) s)).
    f_equal. apply IH. lia.
Qed.

Lemma HasSuffix_append (u suffix : string) : HasSuffix (u ++ suffix) suffix = true.
Proof.
  unfold HasSuffix. rewrite length_append.
  replace (String.length u + String.length suffix - String.length suffix)%nat
    with (String.length u) by lia.
  rewrite substring_after, String.eqb_refl.
  apply andb_true_iff. split; [|reflexivity]. apply Nat.leb_le. lia.
Qed.

Lemma HasSuffix_inv (s suffix : string) :
  HasSuffix s suffix = true -> exists u, s = u ++ suffix.
Proof.
  unfold HasSuffix. intros H. apply andb_true_iff in H as [Hl He].
  apply Nat.leb_le in Hl. apply String.eqb_eq in He.
  exists (substring 0 (String.length s - String.length suffix) s).
  remember (String.length s - String.length suffix)%nat as n eqn:Hn.
  assert (Hs : String.length suffix = (String.length s - n)%nat) by lia.
  rewrite Hs in He. rewrite <- He.
  apply substring_split. lia.
Qed.

Lemma HasPrefix_inv (s : string) : forall pre : string,
  HasPrefix s pre = true ->
  s = pre ++ substring (String.length pre) (String.length s - String.length pre) s.
Proof.
  unfold HasPrefix.
  induction s as [|c s IH]; intros [|a pre]; simpl; try discriminate.
  - reflexivity.
  - intros _. now rewrite substring_all.
  - destruct (ascii_dec a c) as [->|]; [|discriminate].
    intros H.
    change (String c s
            = String c (pre ++ substring (String.length pre)
                                         (String.length s - String.length pre) s)).
    f_equal. now apply IH.
Qed.

Lemma HasPrefix_append (pre r : string) : HasPrefix (pre ++ r) pre = true.
Proof.
  unfold HasPrefix. induction pre as [|a pre IH]; [now destruct r|].
  change (String.prefix (String a pre) (String a (pre ++ r)) = true). simpl.
  destruct (ascii_dec a a); [exact IH|congruence].
Qed.

Lemma TrimPrefix_append (pre r : string) : TrimPrefix (pre ++ r) pre = r.
Proof.
  unfold TrimPrefix. rewrite HasPrefix_append, length_append.
  replace (String.length pre + String.length r - String.length pre)%nat
    with (String.length r) by lia.
  apply substring_after.
Qed.

Lemma append_assoc (a b c : string) : (a ++ b) ++ c = a ++ (b ++ c).
Proof.
  induction a as [|x a IH]; [reflexivity|].
  change (String x ((a ++ b) ++ c) = String x (a ++ (b ++ c))). now f_equal.
Qed.

(** Two ways of cutting one string in two. *)
Lemma append_eq_inv (a : string) : forall b c d : string,
  a ++ b = c ++ d ->
  (exists k, a = c ++ k /\ d = k ++ b) \/ (exists k, c = a ++ k /\ b = k ++ d).
Proof.
  induction a as [|x a IH]; intros b c d H.
  - right. exists c. split; [reflexivity|exact H].
  - destruct c as [|y c].
    + left. exists (String x a). split; [reflexivity|symmetry; exact H].
    + change (String x (a ++ b) = String y (c ++ d)) in H.
      injection H as -> H. destruct (IH _ _ _ H) as [(k & -> & ->)|(k & -> & ->)].
      * left. now exists k.
      * right. now exists k.
Qed.

Lemma substring_before (k r : string) : substring 0 (String.length k) (k ++ r) = k.
Proof.
  induction k as [|c k IH]; [now destruct r|].
  change (String c (substring 0 (String.length k) (k ++ r)) = String c k). now f_equal.
Qed.

(** A cut of a string is given by the place of the cut. *)
Lemma append_cut (s k r : string) :
  s = k ++ r ->
  exists n : nat, (n <= String.length s)%nat
    /\ k = substring 0 n s /\ r = substring n (String.length s - n) s.
Proof.
  intros ->. exists (String.length k). rewrite length_append. split; [lia|].
  rewrite substring_before. split; [reflexivity|].
  replace (String.length k + String.length r - String.length k)%nat
    with (String.length r) by lia.
  now rewrite substring_after.
Qed.

End StringFacts.

(** ** homie.go: [normalizeID] *)

Section HomieFacts.
Import Homie.
Variable unicodeLower : rune -> rune.

Example normalizeID_living_room :
  normalizeID (fun r => r) (asciiRunes "--Living Room/Temp_1!")
  = asciiRunes "living-room-temp-1".
Proof. reflexivity. Qed.

Lemma replaceRuns_canon (s : list rune) : forall b, canon b (replaceRuns b s).
Proof.
  induction s as [|r rest IH]; intros b; simpl; [exact I|].
  destruct (idRe_class r) eqn:Hr.
  - destruct b; simpl.
    + apply IH.
    + change (idRe_class hyphen) with true. cbv iota. auto.
  - simpl. rewrite Hr. apply IH.
Qed.

Lemma canon_fixed (s : list rune) : forall b, canon b s -> replaceRuns b s = s.
Proof.
  induction s as [|r rest IH]; intros b H; simpl in *; [reflexivity|].
  destruct (idRe_class r).
  - destruct H as (-> & -> & H). f_equal. now apply IH.
  - f_equal. now apply IH.
Qed.

Lemma canon_weaken (s : list rune) : canon true s -> canon false s.
Proof.
  destruct s as [|r rest]; simpl; [auto|].
  destruct (idRe_class r); [|auto]. intros (_ & ? & _). discriminate.
Qed.

Lemma canon_any (s : list rune) b : canon b s -> canon false s.
Proof. destruct b; [apply canon_weaken | auto]. Qed.

Lemma canon_idChar (s : list rune) :
  forall b, canon b s -> Forall (fun r => idChar r = true) s.
Proof.
  induction s as [|r rest IH]; intros b H; simpl in *; constructor.
  - unfold idChar. unfold idRe_class in H.
    destruct (isLowerAZ r || isDigit r); [reflexivity|].
    simpl in H. destruct H as (-> & _). reflexivity.
  - destruct (idRe_class r); [destruct H as (_ & _ & H)|]; eapply IH; eauto.
Qed.

Lemma idChar_toLower (r : rune) : idChar r = true -> toLower unicodeLower r = r.
Proof.
  unfold idChar, isLowerAZ, isDigit, hyphen, toLower. intros H.
  destruct (r <=? 127) eqn:H1; [destruct ((65 <=? r) && (r <=? 90)) eqn:H2|];
    [| reflexivity |]; exfalso;
    repeat match goal with
    | H : _ && _ = true |- _ => apply andb_true_iff in H; destruct H
    | H : _ || _ = true |- _ => apply orb_true_iff in H; destruct H
    | H : (_ <=? _) = true |- _ => apply N.leb_le in H
    | H : (_ <=? _) = false |- _ => apply N.leb_gt in H
    | H : (_ =? _) = true |- _ => apply N.eqb_eq in H
    end; lia.
Qed.

Lemma idChar_ToLower (s : list rune) :
  Forall (fun r => idChar r = true) s -> ToLower unicodeLower s = s.
Proof.
  unfold ToLower.
  induction 1 as [|r rest Hr _ IH]; simpl; [reflexivity|].
  now rewrite IH, idChar_toLower.
Qed.

Lemma TrimRight_canon (s : list rune) : forall b, canon b s -> canon b (TrimRight s).
Proof.
  induction s as [|r rest IH]; intros b H; simpl in *; [exact I|].
  destruct (idRe_class r) eqn:Hr.
  - destruct H as (-> & -> & H). specialize (IH _ H).
    destruct (TrimRight rest) as [|x t]; simpl; [exact I|].
    change (idRe_class hyphen) with true. cbv iota. auto.
  - specialize (IH _ H).
    destruct (TrimRight rest) as [|x t].
    + destruct (r =? hyphen); simpl; [exact I|]. now rewrite Hr.
    + simpl (canon b (r :: x :: t)). now rewrite Hr.
Qed.

Lemma TrimLeft_canon (s : list rune) : canon false s -> canon false (TrimLeft s).
Proof.
  induction s as [|r rest IH]; intros H; simpl; [exact I|].
  destruct (r =? hyphen) eqn:E; [|exact H].
  apply N.eqb_eq in E; subst r. simpl in H.
  change (idRe_class hyphen) with true in H. cbv iota in H.
  apply IH, canon_weaken, H.
Qed.

Lemma TrimLeft_head (s : list rune) : head (TrimLeft s) <> Some hyphen.
Proof.
  induction s as [|r rest IH]; simpl; [discriminate|].
  destruct (r =? hyphen) eqn:E; [exact IH|].
  simpl. intros [= ->]. discriminate.
Qed.

Lemma TrimRight_last (s : list rune) : last (TrimRight s) <> Some hyphen.
Proof.
  induction s as [|r rest IH]; simpl; [discriminate|].
  destruct (TrimRight rest) as [|x t] eqn:Ht.
  - destruct (r =? hyphen) eqn:E; simpl; [discriminate|].
    intros [= ->]. discriminate.
  - rewrite last_cons. destruct (last (x :: t)) eqn:El; [exact IH|].
    apply last_None in El. discriminate.
Qed.

Lemma TrimLeft_last (s : list rune) :
  last s <> Some hyphen -> last (TrimLeft s) <> Some hyphen.
Proof.
  induction s as [|r rest IH]; simpl; [auto|].
  destruct (r =? hyphen) eqn:E; [|auto].
  intros H. apply IH. intros Hl. apply H. rewrite last_cons, Hl. reflexivity.
Qed.

Lemma TrimLeft_fixed (s : list rune) : head s <> Some hyphen -> TrimLeft s = s.
Proof.
  destruct s as [|r rest]; simpl; [reflexivity|].
  destruct (r =? hyphen) eqn:E; [|reflexivity].
  apply N.eqb_eq in E; subst r. intros H. now destruct H.
Qed.

Lemma TrimRight_fixed (s : list rune) : last s <> Some hyphen -> TrimRight s = s.
Proof.
  induction s as [|r rest IH]; simpl; [reflexivity|].
  rewrite last_cons. intros H.
  destruct rest as [|x t].
  - simpl in *. destruct (r =? hyphen) eqn:E; [|reflexivity].
    apply N.eqb_eq in E; subst r. now destruct H.
  - rewrite IH.
    + reflexivity.
    + destruct (last (x :: t)) eqn:El; [exact H|].
      apply last_None in El. discriminate.
Qed.

(** C8: [normalizeID] returns only lowercase ASCII letters, digits and
    hyphens, with no hyphen at either end, and applying it a second time
    changes nothing. *)
Theorem normalizeID_charset_idempotent (s : list rune) :
  let id := normalizeID unicodeLower s in
  Forall (fun r => idChar r = true) id
  /\ head id <> Some hyphen
  /\ last id <> Some hyphen
  /\ normalizeID unicodeLower id = id.
Proof.
  cbv zeta. unfold normalizeID, ReplaceAllString, Trim.
  set (x := replaceRuns false (ToLower unicodeLower s)).
  assert (Hx : canon false x) by apply replaceRuns_canon.
  assert (Hc : canon false (TrimLeft (TrimRight x)))
    by (apply TrimLeft_canon, TrimRight_canon, Hx).
  assert (Hh : head (TrimLeft (TrimRight x)) <> Some hyphen) by apply TrimLeft_head.
  assert (Hl : last (TrimLeft (TrimRight x)) <> Some hyphen)
    by (apply TrimLeft_last, TrimRight_last).
  assert (Hf := canon_idChar _ _ Hc).
  repeat split; auto.
  rewrite (idChar_ToLower _ Hf), (canon_fixed _ _ Hc).
  rewrite (TrimRight_fixed _ Hl). now apply TrimLeft_fixed.
Qed.

(** [convertType] gives a datatype to the sized integers, the floats,
    strings, byte slices, stringers and booleans that [ToString] accepts
    and an error to every other value, the plain [int] and [uint] among
    them. *)
Lemma convertType_cases (ToString : goValue -> string + string) (value : goValue) (v : string) :
  ToString value = inl v ->
  match value with
  | GoInt _ | GoUint _ | GoOther _ =>
      convertType ToString value = inr ("unknown type " ++ typeName value)%string
  | _ => exists dtype, convertType ToString value = inl (v, dtype)
  end.
Proof.
  intros H. unfold convertType. rewrite H. destruct value; eauto.
Qed.

(** C4, as stated, fails on [convertType]: a byte slice is none of the six
    kinds, and [convertType] accepts it and gives it the datatype "string",
    whatever text [ToString] has for it. *)
Lemma convertType_accepts_bytes :
  supportedKind (GoBytes "on") = false
  /\ convertType Examples.ToString0 (GoBytes "on") = inl ("on"%string, "string"%string)
  /\ (forall (ToString : goValue -> string + string) (v : string),
        ToString (GoBytes "on") = inl v ->
        convertType ToString (GoBytes "on") = inl (v, "string"%string)).
Proof.
  split; [reflexivity|]. split; [reflexivity|].
  intros ToString v H. unfold convertType. now rewrite H.
Qed.

(** C4, amended: the kinds [convertType] accepts.  An error of [ToString]
    is returned as it is.  A value [ToString] has a text for is accepted
    with that text when its type is one of [int8] to [int64] and [uint8]
    to [uint64] (datatype "integer"), [float32] and [float64] ("float"),
    [[]byte], [string] and the types with a [String] method ("string"), or
    [bool] ("boolean"); a value of any other type, the plain [int] and
    [uint] among them, is refused with the error "unknown type" and the
    name of the type.  Against the six kinds: [float32], [[]byte] and the
    types with a [String] method other than [time.Time] are accepted and
    are none of the six; [int] and [uint] are refused and are integers. *)
Theorem convertType_kinds (ToString : goValue -> string + string) (value : goValue) :
  (forall err, ToString value = inr err -> convertType ToString value = inr err)
  /\ (forall v, ToString value = inl v ->
        match value with
        | GoInt8 _ | GoInt16 _ | GoInt32 _ | GoInt64 _
        | GoUint8 _ | GoUint16 _ | GoUint32 _ | GoUint64 _ =>
            convertType ToString value = inl (v, "integer"%string) /\ supportedKind value = true
        | GoFloat64 _ =>
            convertType ToString value = inl (v, "float"%string) /\ supportedKind value = true
        | GoFloat32 _ =>
            convertType ToString value = inl (v, "float"%string) /\ supportedKind value = false
        | GoString _ =>
            convertType ToString value = inl (v, "string"%string) /\ supportedKind value = true
        | GoBytes _ =>
            convertType ToString value = inl (v, "string"%string) /\ supportedKind value = false
        | GoStringer goType _ =>
            convertType ToString value = inl (v, "string"%string)
            /\ supportedKind value = String.eqb goType "time.Time"%string
        | GoBool _ =>
            convertType ToString value = inl (v, "boolean"%string) /\ supportedKind value = true
        | GoInt _ | GoUint _ =>
            convertType ToString value = inr ("unknown type " ++ typeName value)%string
            /\ supportedKind value = true
        | GoOther _ =>
            convertType ToString value = inr ("unknown type " ++ typeName value)%string
            /\ supportedKind value = false
        end)
  /\ (forall v dtype, convertType ToString value = inl (v, dtype) ->
        ToString value = inl v
        /\ dtype ∈ ["integer"; "float"; "string"; "boolean"]%string).
Proof.
  unfold convertType. split; [|split].
  - intros err H. now rewrite H.
  - intros v H. rewrite H. destruct value; split; reflexivity.
  - intros v dtype. destruct (ToString value) as [v0|err]; [|discriminate].
    destruct value; intros [= <- <-]; (split; [reflexivity|]);
      repeat first [apply list_elem_of_here | apply list_elem_of_further].
Qed.

End HomieFacts.

(** ** prometheus_client: [Init] *)

Section PrometheusFacts.
Import Prometheus.
Local Open Scope Z_scope.
Local Open Scope string_scope.

Context {Metric Collector MetricTypes Secret IPNet ServerConfig TLSConf Registry : Type}.
Variable NewRegistry : Registry.
Variable Register : Registry -> Registrant Collector -> Registry + error.
Variable TypeMappings_Init : MetricTypes -> option error.
Variable v1_NewCollector v2_NewCollector : Duration -> bool -> bool -> MetricTypes -> Collector.
Variable ParseCIDR : string -> IPNet + error.
Variable Secret_Get : Secret -> string + error.
Variable TLSConfig : ServerConfig -> option TLSConf + error.

Abbreviation client := (PrometheusClient Collector MetricTypes Secret IPNet ServerConfig TLSConf Registry).
Abbreviation init :=
  (Init Collector MetricTypes Secret IPNet ServerConfig TLSConf Registry NewRegistry Register
        TypeMappings_Init v1_NewCollector v2_NewCollector ParseCIDR Secret_Get TLSConfig).

(** C9: when [Init] returns nil the server exists, its read and write
    timeouts are at least one second (a configured value below one second
    has become the ten-second default, any other is kept) and an empty
    [Path] has become "/metrics" (any other is kept). *)
Theorem Init_nil_timeouts_path (p p' : client) :
  init p = (p', None) ->
  exists srv,
    server p' = Some srv
    /\ Second <= srvReadTimeout srv
    /\ Second <= srvWriteTimeout srv
    /\ srvReadTimeout srv
       = (if (ReadTimeout p <? Second)%Z then 10 * Second else ReadTimeout p)
    /\ srvWriteTimeout srv
       = (if (WriteTimeout p <? Second)%Z then 10 * Second else WriteTimeout p)
    /\ srvReadTimeout srv = ReadTimeout p'
    /\ srvWriteTimeout srv = WriteTimeout p'
    /\ Path p'
       = (if String.eqb (Path p) EmptyString then "/metrics" else Path p)
    /\ Path p' <> EmptyString.
Proof.
  unfold Init. intros H.
  repeat match type of H with
  | (match ?x with _ => _ end) = _ => destruct x eqn:?; try discriminate H
  end.
  cbv zeta in H. injection H as <-. clear.
  assert (HS : Second = 1000000000) by reflexivity.
  assert (HR : defaultReadTimeout = 10 * Second) by reflexivity.
  assert (HW : defaultWriteTimeout = 10 * Second) by reflexivity.
  cbn -[Z.ltb String.eqb Z.mul Second defaultReadTimeout defaultWriteTimeout].
  destruct (String.eqb_spec (Path p) EmptyString) as [Hp|Hp];
    cbn -[Z.ltb String.eqb Z.mul Second defaultReadTimeout defaultWriteTimeout];
  destruct (Z.ltb_spec (ReadTimeout p) Second);
    cbn -[Z.ltb String.eqb Z.mul Second defaultReadTimeout defaultWriteTimeout];
  destruct (Z.ltb_spec (WriteTimeout p) Second);
    cbn -[Z.ltb String.eqb Z.mul Second defaultReadTimeout defaultWriteTimeout];
  (eexists; split; [reflexivity|]);
  cbn -[Z.ltb String.eqb Z.mul Second defaultReadTimeout defaultWriteTimeout];
  rewrite ?HR, ?HW;
  repeat split; try lia; try reflexivity; try assumption; try discriminate.
Qed.

(** [Write] returns what the collector's [Add] returns for the batch. *)
Lemma Write_returns_Add (Collector_Add : Collector -> list Metric -> option error)
    (p : client) (c : Collector) (metrics : list Metric) :
  collector p = Some c ->
  Write Metric Collector MetricTypes Secret IPNet ServerConfig TLSConf Registry
        Collector_Add p metrics
  = Returned (Collector_Add c metrics).
Proof. unfold Write. now intros ->. Qed.

End PrometheusFacts.

(** ** dcos: [createPoints] *)

Section DCOSFacts.
Import GoStrings DCOS.
Local Open Scope string_scope.
Variable int64_of_float64 : float64 -> Z.

Example fieldKeyOf_bytes_appended :
  fieldKeyOf {| Name := "mem.total"; Tags := None; Unit := "bytes"; Value := S754_zero false |}
  = "mem_total_bytes".
Proof. reflexivity. Qed.

Example fieldKeyOf_bytes_present :
  fieldKeyOf {| Name := "dcos.metrics.module.container_received_bytes"; Tags := None;
                Unit := "bytes"; Value := S754_zero false |}
  = "container_received_bytes".
Proof. reflexivity. Qed.

Example fieldKeyOf_module_bytes :
  fieldKeyOf {| Name := "dcos.metrics.module.bytes"; Tags := None;
                Unit := "bytes"; Value := S754_zero false |}
  = "bytes".
Proof. reflexivity. Qed.

(** The series key does not depend on the order in which the [range]
    over the tag map visits it. *)
Lemma seriesKeyFrom_order (tagmap : gmap string string) (tagList : list (string * string)) :
  tagList ≡ₚ map_to_list tagmap -> seriesKeyFrom tagList = seriesKeyOf tagmap.
Proof.
  intros H. unfold seriesKeyOf, seriesKeyFrom. f_equal.
  apply Strings_perm. now rewrite H.
Qed.

(** The series key is not injective: a separator inside a tag value makes
    two tag maps share a key. *)
Example seriesKeyOf_collision :
  seriesKeyOf (<["a" := "b,c=d"]> ∅) = seriesKeyOf (<["a" := "b"]> (<["c" := "d"]> ∅))
  /\ (<["a" := "b,c=d"]> ∅ : gmap string string) <> <["a" := "b"]> (<["c" := "d"]> ∅).
Proof.
  split; [vm_compute; reflexivity|].
  intros H. apply (f_equal (fun m : gmap string string => m !! "c")) in H.
  vm_compute in H. discriminate H.
Qed.

Lemma collectPoints_snoc (dps : list dataPoint) (dp : dataPoint) :
  collectPoints int64_of_float64 (dps ++ [dp])
  = addDatapoint int64_of_float64 (collectPoints int64_of_float64 dps) dp.
Proof. unfold collectPoints. now rewrite foldl_app. Qed.

(** After a datapoint has been handled its series has a point, and the
    point holds the value of this datapoint under its field key, whatever
    was there before. *)
Lemma addDatapoint_stores (points : gmap string point) (dp : dataPoint) :
  exists p,
    addDatapoint int64_of_float64 points dp !! seriesKeyOf (default ∅ (Tags dp)) = Some p
    /\ fields p !! fieldKeyOf dp = Some (fieldValueOf int64_of_float64 dp).
Proof.
  unfold addDatapoint. eexists. rewrite lookup_insert_eq. split; [reflexivity|].
  cbn. apply lookup_insert_eq.
Qed.

(** A datapoint handled later leaves the series of an earlier one in place
    and can only add to its fields or replace one of them. *)
Lemma addDatapoint_keeps (points : gmap string point) (dp : dataPoint)
    (key : string) (p : point) (fieldKey : string) :
  points !! key = Some p -> is_Some (fields p !! fieldKey) ->
  exists p', addDatapoint int64_of_float64 points dp !! key = Some p'
             /\ is_Some (fields p' !! fieldKey)
             /\ tags p' = tags p.
Proof.
  intros Hp Hf. unfold addDatapoint.
  destruct (decide (seriesKeyOf (default ∅ (Tags dp)) = key)) as [->|Hne].
  - rewrite Hp, lookup_insert_eq. eexists. split; [reflexivity|]. cbn. split; [|reflexivity].
    destruct (decide (fieldKeyOf dp = fieldKey)) as [->|Hk].
    + rewrite lookup_insert_eq. eauto.
    + now rewrite lookup_insert_ne.
  - rewrite lookup_insert_ne by assumption. eauto.
Qed.

(** Every datapoint ends up in the point of its series key. *)
Lemma collectPoints_holds (dps : list dataPoint) (dp : dataPoint) :
  dp ∈ dps ->
  exists p,
    collectPoints int64_of_float64 dps !! seriesKeyOf (default ∅ (Tags dp)) = Some p
    /\ is_Some (fields p !! fieldKeyOf dp).
Proof.
  induction dps as [|d dps IH] using rev_ind; [intros H; inversion H|].
  rewrite collectPoints_snoc, elem_of_app, list_elem_of_singleton.
  intros [H| ->].
  - destruct (IH H) as (p & Hp & Hf).
    destruct (addDatapoint_keeps _ d _ _ _ Hp Hf) as (p' & Hp' & Hf' & _). eauto.
  - destruct (addDatapoint_stores (collectPoints int64_of_float64 dps) d) as (p & Hp & Hf).
    exists p. rewrite Hf. eauto.
Qed.

(** Datapoints with equal tag maps are merged into one point. *)
Lemma collectPoints_merges (dps : list dataPoint) (dp1 dp2 : dataPoint) :
  dp1 ∈ dps -> dp2 ∈ dps ->
  default ∅ (Tags dp1) = default ∅ (Tags dp2) ->
  exists p,
    collectPoints int64_of_float64 dps !! seriesKeyOf (default ∅ (Tags dp1)) = Some p
    /\ is_Some (fields p !! fieldKeyOf dp1)
    /\ is_Some (fields p !! fieldKeyOf dp2).
Proof.
  intros H1 H2 Heq.
  destruct (collectPoints_holds dps dp1 H1) as (p & Hp & Hf1).
  destruct (collectPoints_holds dps dp2 H2) as (p2 & Hp2 & Hf2).
  rewrite <- Heq, Hp in Hp2. injection Hp2 as <-. eauto.
Qed.

(** The value stored: an [int64] for the unit "bytes", the float itself
    for any other unit. *)
Lemma fieldValueOf_kind (dp : dataPoint) :
  (Unit dp = "bytes" -> fieldValueOf int64_of_float64 dp = Int64 (int64_of_float64 (Value dp)))
  /\ (Unit dp <> "bytes" -> fieldValueOf int64_of_float64 dp = Float64 (Value dp)).
Proof.
  unfold fieldValueOf. destruct (String.eqb_spec (Unit dp) "bytes"); split; congruence.
Qed.

(** The field key of a datapoint of unit "bytes" ends in "_bytes", with one
    exception: the key "dcos_metrics_module_bytes", which loses its prefix
    and with it the underscore of the suffix. *)
Lemma fieldKeyOf_bytes (dp : dataPoint) :
  Unit dp = "bytes" ->
  HasSuffix (fieldKeyOf dp) "_bytes" = true \/ fieldKeyOf dp = "bytes".
Proof.
  intros Hunit. unfold fieldKeyOf. rewrite Hunit.
  change (String.eqb "bytes" "bytes") with true. cbn [andb].
  set (k0 := ReplaceAll (Name dp) "." "_").
  assert (Hk1 : exists u, (if negb (HasSuffix k0 "_bytes") then k0 ++ "_bytes" else k0)
                          = u ++ "_bytes").
  { destruct (HasSuffix k0 "_bytes") eqn:E; cbn [negb].
    - now apply HasSuffix_inv.
    - now exists k0. }
  destruct Hk1 as [u ->]. unfold TrimPrefix.
  destruct (HasPrefix (u ++ "_bytes") "dcos_metrics_module_") eqn:Hp;
    [|left; apply HasSuffix_append].
  apply HasPrefix_inv in Hp.
  set (r := substring _ _ _) in *.
  apply append_eq_inv in Hp as [(k & _ & ->)|(k & Hpre & Hb)];
    [left; apply HasSuffix_append|].
  assert (Hsuf : HasSuffix "dcos_metrics_module_" k = true)
    by (rewrite Hpre; apply HasSuffix_append).
  apply append_cut in Hb as (n & Hn & -> & ->). clear Hpre.
  do 7 (destruct n as [|n]; [vm_compute in Hsuf |- *; auto; discriminate Hsuf|]).
  cbn in Hn. lia.
Qed.

(** C10 at a datapoint named "dcos.metrics.module.bytes" with the unit
    "bytes": the only point has the signed-integer field under the key
    "bytes", which does not end in "_bytes". *)
Theorem createPoints_module_bytes_key (v : float64) :
  createPoints int64_of_float64
    {| Datapoints := [ {| Name := "dcos.metrics.module.bytes"; Tags := None;
                          Unit := "bytes"; Value := v |} ];
       Dimensions := ∅ |}
  = [ {| tags := ∅; labels := ∅; fields := <["bytes" := Int64 (int64_of_float64 v)]> ∅ |} ]
  /\ HasSuffix "bytes" "_bytes" = false.
Proof. split; vm_compute; reflexivity. Qed.

(** A pair inserted after the other pairs of a list with distinct keys. *)
Lemma foldl_insert_lookup (l : list (string * string)) :
  NoDup l.*1 -> forall (acc : gmap string string) (k : string),
  foldl (fun acc kv => <[kv.1 := kv.2]> acc) acc l !! k
  = match (list_to_map l : gmap string string) !! k with
    | Some v => Some v
    | None => acc !! k
    end.
Proof.
  induction l as [|[k1 v1] l IH]; intros Hnd acc k; cbn.
  - now rewrite lookup_empty.
  - cbn in Hnd. apply NoDup_cons in Hnd as [Hk1 Hnd]. rewrite (IH Hnd).
    destruct (decide (k1 = k)) as [->|Hne].
    + rewrite !lookup_insert_eq.
      now rewrite (not_elem_of_list_to_map_1 _ _ Hk1).
    + rewrite !lookup_insert_ne by assumption. reflexivity.
Qed.

(** The loop of [addMetrics] over the tag dimensions. *)
Lemma foldl_dimensions_lookup (p : point) (tagDimensions : list string) :
  forall (acc : gmap string string) (k : string),
  foldl (fun acc tagkey =>
           match tags p !! tagkey with
           | Some v => <[tagkey := v]> acc
           | None => acc
           end) acc tagDimensions !! k
  = match (if bool_decide (k ∈ tagDimensions) then tags p !! k else None) with
    | Some v => Some v
    | None => acc !! k
    end.
Proof.
  induction tagDimensions as [|d rest IH]; intros acc k; cbn; [reflexivity|].
  rewrite IH. destruct (decide (k ∈ rest)) as [Hin|Hin].
  - rewrite !bool_decide_eq_true_2 by (try right; assumption).
    destruct (tags p !! k) as [v|] eqn:Hk; [reflexivity|].
    destruct (tags p !! d) as [vd|] eqn:Hd; [|reflexivity].
    rewrite lookup_insert_ne; [reflexivity|]. intros ->. congruence.
  - rewrite (bool_decide_eq_false_2 _ Hin).
    destruct (decide (k = d)) as [->|Hne].
    + rewrite bool_decide_eq_true_2 by left.
      destruct (tags p !! d) as [vd|]; [apply lookup_insert_eq|reflexivity].
    + rewrite bool_decide_eq_false_2
        by (intros H; apply elem_of_cons in H as [H|H]; contradiction).
      destruct (tags p !! d) as [vd|]; [now rewrite lookup_insert_ne|reflexivity].
Qed.

(** The tags [addMetrics] hands to the accumulator, key by key: the label
    if there is one, else the tag of the point if the key is a tag
    dimension, else the cluster for the key "cluster". *)
Lemma metricTags_lookup (cluster : string) (tagDimensions : list string)
    (p : point) (k : string) :
  metricTags cluster tagDimensions p !! k
  = match labels p !! k with
    | Some v => Some v
    | None =>
        match (if bool_decide (k ∈ tagDimensions) then tags p !! k else None) with
        | Some v => Some v
        | None => if bool_decide (k = "cluster") then Some cluster else None
        end
    end.
Proof.
  unfold metricTags.
  rewrite foldl_insert_lookup by apply NoDup_fst_map_to_list.
  rewrite list_to_map_to_list. destruct (labels p !! k); [reflexivity|].
  rewrite foldl_dimensions_lookup.
  destruct (if bool_decide (k ∈ tagDimensions) then tags p !! k else None); [reflexivity|].
  destruct (decide (k = "cluster")) as [->|Hne].
  - now rewrite lookup_insert_eq, bool_decide_eq_true_2.
  - rewrite lookup_insert_ne by congruence.
    now rewrite lookup_empty, bool_decide_eq_false_2.
Qed.

(** A datapoint that does not write the field leaves it as it is. *)
Lemma addDatapoint_other_field (points : gmap string point) (dp : dataPoint)
    (key : string) (p : point) (fieldKey : string) (v : fieldValue) :
  points !! key = Some p -> fields p !! fieldKey = Some v ->
  seriesKeyOf (default ∅ (Tags dp)) <> key \/ fieldKeyOf dp <> fieldKey ->
  exists p', addDatapoint int64_of_float64 points dp !! key = Some p'
             /\ fields p' !! fieldKey = Some v.
Proof.
  intros Hp Hf Hother. unfold addDatapoint.
  destruct (decide (seriesKeyOf (default ∅ (Tags dp)) = key)) as [Heq|Hne].
  - destruct Hother as [Hk|Hk]; [contradiction|].
    rewrite Heq, Hp, lookup_insert_eq. eexists. split; [reflexivity|]. cbn.
    now rewrite lookup_insert_ne.
  - rewrite lookup_insert_ne by assumption. eauto.
Qed.

(** The field of a series holds the value of the last datapoint written
    under its key. *)
Lemma collectPoints_last_write (before after : list dataPoint) (dp : dataPoint) :
  (forall d, d ∈ after ->
     seriesKeyOf (default ∅ (Tags d)) <> seriesKeyOf (default ∅ (Tags dp))
     \/ fieldKeyOf d <> fieldKeyOf dp) ->
  exists p,
    collectPoints int64_of_float64 (before ++ dp :: after)
      !! seriesKeyOf (default ∅ (Tags dp)) = Some p
    /\ fields p !! fieldKeyOf dp = Some (fieldValueOf int64_of_float64 dp).
Proof.
  induction after as [|d after IH] using rev_ind; intros Hafter.
  - rewrite collectPoints_snoc. apply addDatapoint_stores.
  - replace (before ++ dp :: after ++ [d])%list with ((before ++ dp :: after) ++ [d])%list
      by (now rewrite <- app_assoc).
    rewrite collectPoints_snoc.
    destruct IH as (p & Hp & Hf).
    { intros d' Hd'. apply Hafter, elem_of_app. now left. }
    apply (addDatapoint_other_field _ d _ _ _ _ Hp Hf).
    apply Hafter, elem_of_app. right. now left.
Qed.

(** C7: while the dcos input accumulates a metric, setting a tag or a
    field whose key is present replaces the value without notice and no
    step can fail or report an error: in [addMetrics] a label replaces the
    cluster tag or a dimension tag of its key and a dimension tag replaces
    the cluster tag; in [createPoints] a string dimension replaces the tag
    of its key, and the field of a series holds what the last datapoint
    wrote under its key. *)
Theorem accumulation_last_write_wins (cluster : string) (tagDimensions : list string)
    (p : point) (k : string) :
  (forall v, labels p !! k = Some v ->
     metricTags cluster tagDimensions p !! k = Some v)
  /\ (forall v, labels p !! k = None -> k ∈ tagDimensions -> tags p !! k = Some v ->
        metricTags cluster tagDimensions p !! k = Some v)
  /\ (forall v old, tags p !! k = Some old ->
        tags (applyDimension p (k, DimString v)) !! k = Some v
        /\ (forall k', k' <> k -> tags (applyDimension p (k, DimString v)) !! k' = tags p !! k')
        /\ fields (applyDimension p (k, DimString v)) = fields p)
  /\ (forall (points : gmap string point) (dp : dataPoint),
        exists p',
          addDatapoint int64_of_float64 points dp !! seriesKeyOf (default ∅ (Tags dp)) = Some p'
          /\ fields p' !! fieldKeyOf dp = Some (fieldValueOf int64_of_float64 dp))
  /\ (forall (before after : list dataPoint) (dp : dataPoint),
        (forall d, d ∈ after ->
           seriesKeyOf (default ∅ (Tags d)) <> seriesKeyOf (default ∅ (Tags dp))
           \/ fieldKeyOf d <> fieldKeyOf dp) ->
        exists p',
          collectPoints int64_of_float64 (before ++ dp :: after)
            !! seriesKeyOf (default ∅ (Tags dp)) = Some p'
          /\ fields p' !! fieldKeyOf dp = Some (fieldValueOf int64_of_float64 dp)).
Proof.
  split; [|split; [|split; [|split]]].
  - intros v Hl. now rewrite metricTags_lookup, Hl.
  - intros v Hl Hin Ht.
    now rewrite metricTags_lookup, Hl, bool_decide_eq_true_2, Ht.
  - intros v old _. cbn. split; [apply lookup_insert_eq|]. split; [|reflexivity].
    intros k' Hk'. now rewrite lookup_insert_ne.
  - intros points dp. apply addDatapoint_stores.
  - intros before after dp. apply collectPoints_last_write.
Qed.

(** C5 at two datapoints whose tag maps differ, the value of one holding
    the separators of the series key: both get the key "a=b,c=d", so
    [createPoints] returns a single point, with the tags of the first. *)
Theorem createPoints_merges_distinct_tag_maps (v1 v2 : float64) :
  let tags1 : gmap string string := <["a" := "b,c=d"]> ∅ in
  let tags2 : gmap string string := <["a" := "b"]> (<["c" := "d"]> ∅) in
  tags1 <> tags2
  /\ seriesKeyOf tags1 = seriesKeyOf tags2
  /\ createPoints int64_of_float64
       {| Datapoints := [ {| Name := "load"; Tags := Some tags1; Unit := "count"; Value := v1 |};
                          {| Name := "uptime"; Tags := Some tags2; Unit := "count"; Value := v2 |} ];
          Dimensions := ∅ |}
     = [ {| tags := tags1; labels := ∅;
            fields := <["load" := Float64 v1]> (<["uptime" := Float64 v2]> ∅) |} ].
Proof.
  cbv zeta. split; [|split; vm_compute; reflexivity].
  intros H. apply (f_equal (fun m : gmap string string => m !! "c")) in H.
  vm_compute in H. discriminate H.
Qed.

End DCOSFacts.

(** ** The buffer: bounded length and drop-oldest *)

Section BufferFacts.
Import Metric Buffer.

Lemma PushAll_snoc (ms : list Metric) (m : Metric) (b : Buffer) :
  PushAll (ms ++ [m]) b = (Push m (PushAll ms b)).1.
Proof. unfold PushAll. now rewrite foldl_app. Qed.

Lemma Push_capacity (m : Metric) (b : Buffer) : capacity (Push m b).1 = capacity b.
Proof. unfold Push. now destruct (capacity b <=? Len b)%nat. Qed.

Lemma PushAll_capacity (ms : list Metric) (b : Buffer) :
  capacity (PushAll ms b) = capacity b.
Proof.
  induction ms as [|m ms IH] using rev_ind; [reflexivity|].
  now rewrite PushAll_snoc, Push_capacity.
Qed.

Lemma tail_drop {A} (n : nat) (l : list A) : tail (drop n l) = drop (S n) l.
Proof.
  replace (S n) with (n + 1)%nat by lia. rewrite <- drop_drop.
  now destruct (drop n l).
Qed.

(** A buffer that respects its bound keeps respecting it when a metric is
    pushed; a positive capacity is what makes the eviction free a slot. *)
Lemma Push_bounded (m : Metric) (b : Buffer) :
  (0 < capacity b)%nat -> (Len b <= capacity b)%nat ->
  (Len (Push m b).1 <= capacity b)%nat.
Proof.
  unfold Push, Len. intros Hc Hl.
  destruct (Nat.leb_spec (capacity b) (length (items b))); simpl.
  - destruct (items b) as [|x l]; simpl in *; [lia|].
    rewrite length_app. simpl. lia.
  - rewrite length_app. simpl. lia.
Qed.

(** The content after any pushes into a fresh buffer: the pushed metrics
    without the first [length ms - N] of them. *)
Lemma PushAll_items (N : nat) (b0 : Buffer) (ms : list Metric) :
  NewBuffer N = Some b0 ->
  items (PushAll ms b0) = drop (length ms - N) ms.
Proof.
  unfold NewBuffer. destruct (Nat.eqb_spec N 0) as [|HN]; [discriminate|].
  intros [= <-].
  induction ms as [|m ms IH] using rev_ind; [reflexivity|].
  rewrite PushAll_snoc. unfold Push, Len.
  rewrite PushAll_capacity, IH. cbn [capacity].
  rewrite length_drop, length_app. cbn [length].
  destruct (Nat.leb_spec N (length ms - (length ms - N))); cbn [fst items].
  - assert (Hle : (N <= length ms)%nat) by lia.
    replace (length ms + 1 - N)%nat with (S (length ms - N)) by lia.
    rewrite drop_app_le by lia.
    f_equal. apply tail_drop.
  - replace (length ms - N)%nat with 0%nat by lia.
    replace (length ms + 1 - N)%nat with 0%nat by lia.
    reflexivity.
Qed.

(** The bound holds in every buffer that can come about. *)
Lemma reachable_bounded (b : Buffer) :
  reachable b -> (0 < capacity b)%nat /\ (Len b <= capacity b)%nat.
Proof.
  induction 1 as [N b Hnew|m b _ [Hc Hl]|maxSize b _ IH|t b _ [Hc Hl]].
  - unfold NewBuffer in Hnew. destruct (Nat.eqb_spec N 0); [discriminate|].
    injection Hnew as <-. unfold Len. cbn. lia.
  - rewrite Push_capacity. split; [assumption|]. now apply Push_bounded.
  - exact IH.
  - unfold Acknowledge, Len in *. cbn. rewrite length_drop. split; lia.
Qed.

(** C1: a buffer of capacity [N] never holds more than [N] metrics,
    whatever is pushed, and after [N + k] pushes ([k > 0]) into the empty
    buffer it holds exactly the last [N] metrics pushed, in push order. *)
Theorem Push_bounded_drop_oldest (N : nat) (b0 : Buffer) (ms : list Metric) :
  NewBuffer N = Some b0 ->
  (forall b : Buffer, reachable b -> (Len b <= Capacity b)%nat)
  /\ (forall n : nat, (Len (PushAll (take n ms) b0) <= Capacity (PushAll (take n ms) b0))%nat
                   /\ Capacity (PushAll (take n ms) b0) = N)
  /\ (forall k : nat, (0 < k)%nat -> length ms = (N + k)%nat ->
        items (PushAll ms b0) = drop k ms
        /\ Len (PushAll ms b0) = N
        /\ exists evicted, ms = evicted ++ items (PushAll ms b0) /\ length evicted = k).
Proof.
  intros Hnew. split; [intros b Hb; now apply reachable_bounded|]. split.
  - intros n. unfold Capacity, Len.
    rewrite PushAll_capacity, (PushAll_items N b0 _ Hnew), length_drop.
    unfold NewBuffer in Hnew. destruct (N =? 0)%nat; [discriminate|].
    injection Hnew as <-. cbn [capacity]. lia.
  - intros k Hk Hlen. unfold Len.
    rewrite (PushAll_items N b0 _ Hnew), Hlen.
    replace (N + k - N)%nat with k by lia.
    rewrite length_drop. repeat split; [lia|].
    exists (take k ms). rewrite take_drop, length_take. split; [reflexivity|lia].
Qed.

End BufferFacts.

(** ** The metric model: construction, fields, tags, identity *)

Section MetricFacts.
Import GoStrings Metric.
Local Open Scope string_scope.

#[export] Instance tag_le_total : Total tag_le.
Proof. intros a b. apply string_le_total. Qed.

#[export] Instance tag_le_trans : Transitive tag_le.
Proof. intros a b c. apply string_le_trans. Qed.

Lemma sortTags_perm (l : list (string * string)) : sortTags l ≡ₚ l.
Proof. apply merge_sort_Permutation. Qed.

Lemma sortTags_sorted (l : list (string * string)) : Sorted tag_le (sortTags l).
Proof. apply Sorted_merge_sort. apply _. Qed.

(** Pairs with pairwise distinct keys have one sorted arrangement. *)
Lemma sortTags_unique (l1 l2 : list (string * string)) :
  NoDup l1.*1 -> l1 ≡ₚ l2 -> sortTags l1 = sortTags l2.
Proof.
  intros Hnd Hp.
  apply (Sorted_unique_strong tag_le); try apply sortTags_sorted.
  - intros [k1 v1] [k2 v2] H1 H2 Hle1 Hle2.
    assert (k1 = k2) as <- by (apply (anti_symm string_le); assumption).
    f_equal.
    rewrite sortTags_perm in H1. rewrite sortTags_perm, <- Hp in H2.
    clear -Hnd H1 H2. induction l1 as [|[k v] l IH]; [inversion H1|].
    simpl in Hnd. apply NoDup_cons in Hnd as [Hk Hnd].
    apply elem_of_cons in H1 as [[= -> ->]|H1], H2 as [[= E]|H2]; subst; auto.
    + exfalso. apply Hk. apply list_elem_of_fmap. now exists (k, v2).
    + exfalso. apply Hk. apply list_elem_of_fmap. now exists (k, v1).
  - now rewrite !sortTags_perm.
Qed.

Lemma seriesKey_inj (m1 m2 : Metric) :
  seriesKey m1 = seriesKey m2 <-> name m1 = name m2 /\ tags m1 = tags m2.
Proof.
  unfold seriesKey, TagList. split.
  - intros [= Hn Ht]. split; [assumption|].
    apply map_to_list_inj. now rewrite <- (sortTags_perm (map_to_list (tags m1))), Ht, sortTags_perm.
  - now intros [-> ->].
Qed.

(** In the metric model two metrics are series-identical exactly when
    their names and their tag mappings are equal; fields and timestamp play
    no part; the tags are compared as the list of pairs sorted by key, whose
    keys are pairwise distinct and which is the same for every order in
    which the mapping is enumerated. *)
Lemma seriesIdentical_name_tags (m1 m2 : Metric) :
  (seriesIdentical m1 m2 = true <-> name m1 = name m2 /\ tags m1 = tags m2)
  /\ (forall fs1 t1 fs2 t2,
        seriesIdentical (SetTime (SetFields m1 fs1) t1) (SetTime (SetFields m2 fs2) t2)
        = seriesIdentical m1 m2)
  /\ Sorted tag_le (TagList m1)
  /\ NoDup (TagList m1).*1
  /\ (forall pairs, pairs ≡ₚ map_to_list (tags m1) -> sortTags pairs = TagList m1).
Proof.
  split; [unfold seriesIdentical; rewrite bool_decide_eq_true; apply seriesKey_inj|].
  split.
  { intros. unfold seriesIdentical. apply bool_decide_ext.
    rewrite !seriesKey_inj. reflexivity. }
  split; [apply sortTags_sorted|].
  split; [unfold TagList; rewrite sortTags_perm; apply NoDup_fst_map_to_list|].
  intros pairs Hp. unfold TagList. symmetry. apply sortTags_unique.
  - apply NoDup_fst_map_to_list.
  - now symmetry.
Qed.

(** In the metric model adding a tag or a field under a key that is
    present replaces the value, leaves every other key alone, adds no second
    entry and does not fail; of two writes to one key the later one is
    kept; whether a field is refused depends on its value alone. *)
Lemma Metric_Add_overwrites (m : Metric) (key : string) :
  (forall old new, tags m !! key = Some old ->
     tags (AddTag m key new) !! key = Some new
     /\ (forall k, k <> key -> tags (AddTag m key new) !! k = tags m !! k)
     /\ size (tags (AddTag m key new)) = size (tags m)
     /\ fields (AddTag m key new) = fields m)
  /\ (forall old new, fields m !! key = Some old ->
     exists m', AddField m key (Supported new) = Ok m'
       /\ fields m' !! key = Some new
       /\ (forall k, k <> key -> fields m' !! k = fields m !! k)
       /\ size (fields m') = size (fields m)
       /\ tags m' = tags m)
  /\ (forall v1 v2, AddTag (AddTag m key v1) key v2 = AddTag m key v2)
  /\ (forall v1 v2 m1, AddField m key (Supported v1) = Ok m1 ->
        AddField m1 key (Supported v2) = AddField m key (Supported v2))
  /\ (forall (v : offered) (m2 : Metric) (e : MetricError),
        AddField m key v = Err e -> AddField m2 key v = Err e).
Proof.
  split; [|split; [|split; [|split]]].
  - intros old new Hold. cbn. split; [apply lookup_insert_eq|].
    split; [intros k Hk; now apply lookup_insert_ne|].
    split; [|reflexivity].
    apply map_size_insert_Some. now exists old.
  - intros old new Hold. eexists. split; [reflexivity|]. cbn.
    split; [apply lookup_insert_eq|].
    split; [intros k Hk; now apply lookup_insert_ne|].
    split; [|reflexivity].
    apply map_size_insert_Some. now exists old.
  - intros v1 v2. unfold AddTag. cbn. now rewrite insert_insert_eq.
  - intros v1 v2 m1 [= <-]. unfold AddField. cbn. now rewrite insert_insert_eq.
  - intros [sv|goType] m2 e; cbn; [discriminate|auto].
Qed.

End MetricFacts.

(** ** The accumulator: errors on record, metrics forwarded *)

Section AccumulatorFacts.
Import Metric Buffer Accumulator.
Variable build : string -> gmap string string -> list (string * offered) -> Z -> result Metric.
Variable now : Z.

Lemma perform_errors (acc : Accumulator) (c : call) :
  errors (perform build now acc c) = errors acc ++ reported build now c.
Proof.
  destruct c as [measurement tg fs timestamp|err]; cbn; [|reflexivity].
  unfold AddFields. destruct (build measurement tg fs (default now timestamp)); cbn.
  - now rewrite app_nil_r.
  - reflexivity.
Qed.

Lemma perform_buffers (acc1 acc2 : Accumulator) (c : call) :
  buffers acc1 = buffers acc2 ->
  buffers (perform build now acc1 c) = buffers (perform build now acc2 c).
Proof.
  intros H. destruct c as [measurement tg fs timestamp|err]; cbn; [|exact H].
  unfold AddFields. destruct (build measurement tg fs (default now timestamp)); cbn;
    now rewrite H.
Qed.

Lemma foldl_perform_errors (calls : list call) : forall acc : Accumulator,
  errors (foldl (perform build now) acc calls)
  = errors acc ++ mjoin (reported build now <$> calls).
Proof.
  induction calls as [|c calls IH]; intros acc; cbn.
  - now rewrite app_nil_r.
  - now rewrite IH, perform_errors, <- app_assoc.
Qed.

Lemma foldl_perform_buffers (calls : list call) : forall acc1 acc2 : Accumulator,
  buffers acc1 = buffers acc2 ->
  buffers (foldl (perform build now) acc1 calls)
  = buffers (foldl (perform build now) acc2 (List.filter (fun c => negb (isAddError c)) calls)).
Proof.
  induction calls as [|c calls IH]; intros acc1 acc2 H; cbn; [exact H|].
  destruct c as [measurement tg fs timestamp|err]; cbn.
  - apply IH. now apply (perform_buffers _ _ (CallAddFields measurement tg fs timestamp)).
  - apply IH. exact H.
Qed.

(** C6: [AddError] puts the error on the record of the run and touches
    nothing else; an [AddFields] that follows forwards to the buffers what
    it would have forwarded without the error; when the run is over the
    errors recorded are surfaced, in the order of the calls, and the
    buffers hold what the [AddFields] calls alone would have put there. *)
Theorem AddError_recorded_AddFields_unaffected (err : RunError) (acc : Accumulator) :
  errors (AddError err acc) = errors acc ++ [err]
  /\ buffers (AddError err acc) = buffers acc
  /\ (forall measurement tags fields timestamp,
        buffers (AddFields build now measurement tags fields timestamp (AddError err acc))
        = buffers (AddFields build now measurement tags fields timestamp acc))
  /\ (forall destinations calls fatal,
        run_errors (run build now destinations calls fatal)
        = mjoin (reported build now <$> calls)
        /\ run_buffers (run build now destinations calls fatal)
           = run_buffers (run build now destinations
                            (List.filter (fun c => negb (isAddError c)) calls) fatal)
        /\ (forall e, CallAddError e ∈ calls ->
              e ∈ run_errors (run build now destinations calls fatal))).
Proof.
  split; [reflexivity|]. split; [reflexivity|]. split.
  - intros measurement tg fs ts.
    apply (perform_buffers _ _ (CallAddFields measurement tg fs ts)). reflexivity.
  - intros destinations calls fatal. unfold run. cbn [run_errors run_buffers].
    split; [now rewrite foldl_perform_errors|].
    split; [now apply foldl_perform_buffers|].
    intros e He. rewrite foldl_perform_errors. cbn.
    apply list_elem_of_join. exists (reported build now (CallAddError e)). split.
    + now left.
    + now apply list_elem_of_fmap_2.
Qed.

End AccumulatorFacts.

(** ** influxdb: the UDP client and its tests *)

Section InfluxUDPFacts.
Import Metric InfluxUDP.
Local Open Scope string_scope.

Context {Client : Type}.
Variable metric_New :
  string -> gmap string string -> gmap string value -> Z -> result Metric.
Variable NewUDPClient : UDPConfig -> Client + error.
Variable Write : Client -> list Metric -> option run.

Abbreviation writes := (InfluxUDP.writes Client NewUDPClient Write).
Abbreviation getMetric := (InfluxUDP.getMetric metric_New).
Abbreviation metricWithoutFields := (InfluxUDP.metricWithoutFields metric_New).
Abbreviation TestUDP_Simple := (InfluxUDP.TestUDP_Simple Client metric_New NewUDPClient Write).
Abbreviation TestUDP_DialError :=
  (InfluxUDP.TestUDP_DialError Client metric_New NewUDPClient Write).
Abbreviation TestUDP_WriteError :=
  (InfluxUDP.TestUDP_WriteError Client metric_New NewUDPClient Write).
Abbreviation TestUDP_ErrorLogging :=
  (InfluxUDP.TestUDP_ErrorLogging Client metric_New NewUDPClient Write).

(** A passing test of [Write] made the client, constructed the batch and
    saw [Write] return, with its assertions true of the call. *)
Lemma writes_passes (config : UDPConfig) (metrics : list (result Metric))
    (assertions : run -> bool) :
  writes config metrics assertions = true ->
  exists client batch r,
    NewUDPClient config = inl client
    /\ constructed metrics = Some batch
    /\ Write client batch = Some r
    /\ admits config r = true
    /\ assertions r = true.
Proof.
  unfold InfluxUDP.writes.
  destruct (NewUDPClient config) as [client|]; [|discriminate].
  destruct (constructed metrics) as [batch|]; [|discriminate].
  destruct (Write client batch) as [r|] eqn:Hw; [|discriminate].
  intros H. apply andb_true_iff in H as [Ha Hr].
  exists client, batch, r. repeat split; solve [reflexivity | assumption].
Qed.

Lemma constructed_one (c : result Metric) (batch : list Metric) :
  constructed [c] = Some batch -> exists m, c = Ok m /\ batch = [m].
Proof.
  unfold constructed. cbn. destruct c as [m|e]; cbn; [|discriminate].
  intros [= <-]. now exists m.
Qed.


(** Nothing is handed to a connection whose [WriteF] is nil, and nothing
    is closed when [CloseF] is nil, in a call the mocks admit. *)
Lemma admits_bare (config : UDPConfig) (r : run) :
  Dialer config = Some {| DialContextF := inl bareConn |} ->
  admits config r = true -> written r = [] /\ closes r = 0%nat.
Proof.
  unfold admits. intros ->. cbn. intros H.
  apply andb_true_iff in H as [Hw Hc].
  apply Nat.eqb_eq in Hw, Hc. split; [now apply length_zero_iff_nil|assumption].
Qed.

(** The two cases of [TestUDP_ErrorLogging], when the test passes. *)
Lemma ErrorLogging_passes :
  TestUDP_ErrorLogging = true ->
  (exists client m r,
     NewUDPClient config_NeedMoreSpace = inl client
     /\ getMetric = Ok m
     /\ Write client [m] = Some r
     /\ returned r = None /\ written r = [] /\ closes r = 0%nat
     /\ Contains (logged r) logContains_NeedMoreSpace = true)
  /\ (exists client m r,
        NewUDPClient config_SeriesName = inl client
        /\ metricWithoutFields = Ok m
        /\ Write client [m] = Some r
        /\ returned r = None /\ written r = [] /\ closes r = 0%nat
        /\ Contains (logged r) logContains_SeriesName = true).
Proof.
  unfold InfluxUDP.TestUDP_ErrorLogging. cbn [forallb].
  intros H. apply andb_true_iff in H as [H1 H2].
  apply andb_true_iff in H2 as [H2 _].
  split.
  - apply writes_passes in H1 as (client & batch & r & Hc & Hb & Hw & Ha & Hr).
    apply constructed_one in Hb as (m & Hm & ->).
    apply andb_true_iff in Hr as [Hret Hlog]. apply bool_decide_eq_true in Hret.
    destruct (admits_bare config_NeedMoreSpace r eq_refl Ha) as [Hwr Hcl].
    exists client, m, r. repeat split; assumption.
  - apply writes_passes in H2 as (client & batch & r & Hc & Hb & Hw & Ha & Hr).
    apply constructed_one in Hb as (m & Hm & ->).
    apply andb_true_iff in Hr as [Hret Hlog]. apply bool_decide_eq_true in Hret.
    destruct (admits_bare config_SeriesName r eq_refl Ha) as [Hwr Hcl].
    exists client, m, r. repeat split; assumption.
Qed.


End InfluxUDPFacts.

(** ** Construction of a metric: the specification and the call sites *)

Section ConstructionFacts.
Import Metric TestUtil InfluxUDP.
Local Open Scope Z_scope.
Local Open Scope string_scope.

(** [TestRequireMetricsEqual], when it passes, has built its metrics. *)
Lemma RequireMetricsEqual_passes (cmpOption : Type)
    (MustMetric : string -> gmap string string -> gmap string value -> Z -> result Metric)
    (SortMetrics : cmpOption)
    (RequireMetricsEqual : list Metric -> list Metric -> list cmpOption -> bool) :
  TestRequireMetricsEqual cmpOption MustMetric SortMetrics RequireMetricsEqual = true ->
  exists cpu net,
    MustMetric "cpu" ∅ ∅ 0 = Ok cpu /\ MustMetric "net" ∅ ∅ 0 = Ok net
    /\ RequireMetricsEqual [net; cpu] [cpu; net] [SortMetrics] = true.
Proof.
  unfold TestRequireMetricsEqual, constructed. cbn.
  destruct (MustMetric "cpu" ∅ ∅ 0) as [cpu|]; cbn; [|discriminate].
  destruct (MustMetric "net" ∅ ∅ 0) as [net|]; cbn; [|discriminate].
  intros H. now exists cpu, net.
Qed.

(** C3, as stated, fails.  The construction of the claim refuses the metric
    of the case "logs series name" of [TestUDP_ErrorLogging], which has a
    name, a tag and the empty field map, with [InvalidMetric]; the test
    passes only with a [metric.New] that returns a metric for it, whatever
    the client, and [TestRequireMetricsEqual] passes only with a
    [MustMetric] that returns the metrics "cpu" and "net" for the empty
    field map.  Both tests pass with [construct]. *)
Lemma construct_spec_refuses_metrics_of_tests :
  construct_spec "cpu" (<["host" := "example.org"]> ∅) ∅ 0 = Err InvalidMetric
  /\ (forall (Client : Type) metric_New (NewUDPClient : UDPConfig -> Client + error) Write,
        TestUDP_ErrorLogging Client metric_New NewUDPClient Write = true ->
        exists m, metric_New "cpu" (<["host" := "example.org"]> ∅) ∅ 0 = Ok m)
  /\ (forall (cmpOption : Type) MustMetric (SortMetrics : cmpOption) RequireMetricsEqual,
        TestRequireMetricsEqual cmpOption MustMetric SortMetrics RequireMetricsEqual = true ->
        exists cpu net, MustMetric "cpu" ∅ ∅ 0 = Ok cpu /\ MustMetric "net" ∅ ∅ 0 = Ok net)
  /\ (forall (Client : Type) (NewUDPClient : UDPConfig -> Client + error) Write,
        TestUDP_ErrorLogging Client construct_spec NewUDPClient Write = false)
  /\ (forall (cmpOption : Type) (SortMetrics : cmpOption) RequireMetricsEqual,
        TestRequireMetricsEqual cmpOption construct_spec SortMetrics RequireMetricsEqual = false)
  /\ TestUDP_ErrorLogging UDPStandIn.Client construct UDPStandIn.NewUDPClient UDPStandIn.Write
     = true
  /\ TestRequireMetricsEqual unit construct tt sameSeries = true.
Proof.
  split; [reflexivity|]. split; [|split; [|split; [|split; [|split]]]].
  - intros Client metric_New NewUDPClient Write H.
    destruct (ErrorLogging_passes _ _ _ H) as [_ (client & m & r & _ & Hm & _)].
    now exists m.
  - intros cmpOption MustMetric SortMetrics RequireMetricsEqual H.
    destruct (RequireMetricsEqual_passes _ _ _ _ H) as (cpu & net & Hcpu & Hnet & _).
    now exists cpu, net.
  - intros Client NewUDPClient Write.
    destruct (TestUDP_ErrorLogging Client construct_spec NewUDPClient Write) eqn:H;
      [|reflexivity].
    destruct (ErrorLogging_passes _ _ _ H) as [_ (client & m & r & _ & Hm & _)].
    discriminate Hm.
  - intros cmpOption SortMetrics RequireMetricsEqual.
    destruct (TestRequireMetricsEqual cmpOption construct_spec SortMetrics RequireMetricsEqual)
      eqn:H; [|reflexivity].
    destruct (RequireMetricsEqual_passes _ _ _ _ H) as (cpu & net & Hcpu & _).
    discriminate Hcpu.
  - vm_compute. reflexivity.
  - vm_compute. reflexivity.
Qed.

(** C3, amended: an attempted construction fails with [InvalidMetric] when
    the measurement name is the empty string, and only then; with a
    non-empty name it succeeds, for the empty field mapping as for any
    other, and gives the metric of the name, tags, fields and time.  It
    differs from the construction of section 4.1 for the empty field
    mapping with a non-empty name and nowhere else. *)
Theorem construct_fails_on_empty_name_only (name : string) (tags : gmap string string)
    (fields : gmap string value) (tm : Z) :
  (construct name tags fields tm = Err InvalidMetric <-> name = EmptyString)
  /\ (name <> EmptyString ->
        exists m, construct name tags fields tm = Ok m
                  /\ Metric.name m = name /\ Metric.tags m = tags
                  /\ Metric.fields m = fields /\ Metric.tm m = tm)
  /\ (construct name tags fields tm = construct_spec name tags fields tm
      <-> ~ (fields = ∅ /\ name <> EmptyString)).
Proof.
  unfold construct, construct_spec.
  destruct (decide (name = EmptyString)) as [Hn|Hn].
  - split; [tauto|]. split; [tauto|].
    rewrite decide_True by now right. tauto.
  - split; [split; [discriminate|tauto]|].
    split; [intros _; eexists; split; [reflexivity|]; cbn; tauto|].
    destruct (decide (fields = ∅)) as [Hf|Hf].
    + rewrite decide_True by now left. split; [discriminate|tauto].
    + rewrite decide_False by tauto. tauto.
Qed.

End ConstructionFacts.

(** ** The tests of the UDP client, with a client that passes them *)

Section UDPStandInFacts.
Import Metric InfluxUDP.
Local Open Scope Z_scope.
Local Open Scope string_scope.

(** The tests pass with the client written for them. *)
Lemma UDPStandIn_passes :
  TestUDP_NewUDPClientNoURL UDPStandIn.Client UDPStandIn.ErrMissingURL UDPStandIn.NewUDPClient
  = true
  /\ TestUDP_URL UDPStandIn.Client UDPStandIn.NewUDPClient UDPStandIn.client_URL = true
  /\ TestUDP_Simple UDPStandIn.Client construct UDPStandIn.NewUDPClient UDPStandIn.Write = true
  /\ TestUDP_DialError UDPStandIn.Client construct UDPStandIn.NewUDPClient UDPStandIn.Write
     = true
  /\ TestUDP_WriteError UDPStandIn.Client construct UDPStandIn.NewUDPClient UDPStandIn.Write
     = true
  /\ TestUDP_ErrorLogging UDPStandIn.Client construct UDPStandIn.NewUDPClient UDPStandIn.Write
     = true.
Proof. repeat split; vm_compute; reflexivity. Qed.



End UDPStandInFacts.

(** ** The runner: a batch is acknowledged as a whole or not at all *)

Section DeliveryFacts.
Import Metric Buffer Delivery.
Local Open Scope string_scope.

Lemma drop_length_take {A} (n : nat) (l : list A) : drop (length (take n l)) l = drop n l.
Proof.
  rewrite length_take. destruct (Nat.le_ge_cases n (length l)).
  - now rewrite Nat.min_l.
  - rewrite Nat.min_r by assumption. now rewrite !drop_ge.
Qed.

Lemma flush_error_keeps_batch (write : list Metric -> option string) (batchSize : nat)
    (b : Buffer) (err : string) :
  (flush write batchSize b).2 = Some err ->
  items (flush write batchSize b).1 = items b.
Proof.
  unfold flush, PeekBatch.
  destruct (take batchSize (items b)) as [|m batch]; [discriminate|].
  now destruct (write (m :: batch)).
Qed.

Lemma flush_nil_removes_batch (write : list Metric -> option string) (batchSize : nat)
    (b : Buffer) :
  (flush write batchSize b).2 = None ->
  items (flush write batchSize b).1 = drop batchSize (items b).
Proof.
  unfold flush, PeekBatch.
  destruct (take batchSize (items b)) as [|m batch] eqn:Hb.
  - intros _. cbn. rewrite <- (drop_length_take batchSize), Hb. reflexivity.
  - destruct (write (m :: batch)); [discriminate|]. intros _. cbn.
    replace (removed b + S (length batch) - removed b)%nat with (length (m :: batch))
      by (cbn; lia).
    now rewrite <- Hb, drop_length_take.
Qed.

End DeliveryFacts.

(** ** Worked instances *)

Section Instances.
Import Metric Buffer Accumulator Delivery Scenario.
Local Open Scope string_scope.

(** The scenario of section 8 of the spec: capacity 3; A, B, C, D pushed;
    a batch of two peeked; a failing [Write]; a retry that succeeds. *)
Example scenario_capacity_3 :
  let b := PushAll [mA; mB; mC; mD] buffer3 in
  items b = [mB; mC; mD]
  /\ (PeekBatch 2 b).1.1 = [mB; mC]
  /\ items (flush (fun _ => Some "connection refused") 2 b).1 = [mB; mC; mD]
  /\ items (flush (fun _ => None) 2 (flush (fun _ => Some "connection refused") 2 b).1).1 = [mD].
Proof. cbv zeta. repeat split. Qed.

(** An acknowledgment after an eviction removes what is left of the batch. *)
Example acknowledge_after_eviction :
  let b := PushAll [mA; mB; mC] buffer3 in
  let '(batch, token, b) := PeekBatch 2 b in
  batch = [mA; mB] /\ items (Acknowledge token (Push mD b).1) = [mC; mD].
Proof. cbv zeta. repeat split. Qed.

Lemma Push_bounded_drop_oldest_witness :
  NewBuffer 3 = Some buffer3
  /\ items (PushAll [mA; mB; mC; mD] buffer3) = [mB; mC; mD].
Proof.
  split; [reflexivity|].
  destruct (Push_bounded_drop_oldest 3 buffer3 [mA; mB; mC; mD] eq_refl) as (_ & _ & H).
  destruct (H 1%nat (Nat.lt_0_succ 0) eq_refl) as [-> _]. reflexivity.
Defined.

Lemma AddError_recorded_AddFields_unaffected_witness :
  run_errors (run buildMetric 9 [buffer3] calls3 None)
  = [PluginErr "container 7: connection refused"]
  /\ Len <$> run_buffers (run buildMetric 9 [buffer3] calls3 None) = [2%nat].
Proof.
  destruct (AddError_recorded_AddFields_unaffected buildMetric 9
              (PluginErr "x") (NewAccumulator [buffer3])) as (_ & _ & _ & H).
  destruct (H [buffer3] calls3 None) as (He & Hb & _).
  split.
  - rewrite He. reflexivity.
  - rewrite Hb. vm_compute. reflexivity.
Defined.

Lemma accumulation_last_write_wins_witness :
  DCOS.metricTags "prod" DCOS.containerDimensions
    {| DCOS.tags := <["hostname" := "10.0.0.1"]> ∅;
       DCOS.labels := <["cluster" := "from-label"]> ∅;
       DCOS.fields := ∅ |} !! "cluster"
  = Some "from-label".
Proof.
  apply (proj1 (accumulation_last_write_wins (fun _ => 0%Z) "prod" DCOS.containerDimensions
                  {| DCOS.tags := <["hostname" := "10.0.0.1"]> ∅;
                     DCOS.labels := <["cluster" := "from-label"]> ∅;
                     DCOS.fields := ∅ |} "cluster")).
  vm_compute. reflexivity.
Defined.

Lemma Init_nil_timeouts_path_witness :
  (Init0 client0).2 = None
  /\ exists srv, Prometheus.server (Init0 client0).1 = Some srv
       /\ Prometheus.srvReadTimeout srv = (10 * Prometheus.Second)%Z
       /\ Prometheus.srvWriteTimeout srv = (10 * Prometheus.Second)%Z
       /\ Prometheus.Path (Init0 client0).1 = "/metrics".
Proof.
  split; [vm_compute; reflexivity|].
  assert (Hinit : Init0 client0 = ((Init0 client0).1, None)) by (vm_compute; reflexivity).
  destruct (Init_nil_timeouts_path tt (fun r _ => inl r) (fun _ => None)
              (fun _ _ _ _ => tt) (fun _ _ _ _ => tt) (fun cidr => inl cidr)
              (fun secret => inl secret) (fun _ => inl None) client0 _ Hinit)
    as (srv & Hs & _ & _ & Hr & Hw & _ & _ & Hp & _).
  exists srv. repeat split; assumption.
Defined.

End Instances.

(** ** homie.go: what [normalizeID] keeps and what it drops *)

Section NormalizeIDMore.
Import Homie.
Variable unicodeLower : rune -> rune.


Lemma filter_replaceRuns (s : list rune) : forall b,
  List.filter HomieDevice.alnum (replaceRuns b s) = List.filter HomieDevice.alnum s.
Proof.
  unfold HomieDevice.alnum. induction s as [|r rest IH]; intros b; simpl; [reflexivity|].
  destruct (idRe_class r) eqn:Hr; simpl.
  - destruct b; simpl; [apply IH|].
    change (idRe_class hyphen) with true. simpl. apply IH.
  - rewrite Hr. simpl. f_equal. apply IH.
Qed.

Lemma filter_TrimLeft (s : list rune) : List.filter HomieDevice.alnum (TrimLeft s) = List.filter HomieDevice.alnum s.
Proof.
  induction s as [|r rest IH]; simpl; [reflexivity|].
  destruct (N.eqb_spec r hyphen) as [->|]; [|reflexivity].
  rewrite IH. reflexivity.
Qed.

Lemma filter_TrimRight (s : list rune) : List.filter HomieDevice.alnum (TrimRight s) = List.filter HomieDevice.alnum s.
Proof.
  induction s as [|r rest IH]; simpl; [reflexivity|].
  destruct (TrimRight rest) as [|x t] eqn:Ht.
  - simpl in IH. rewrite <- IH.
    destruct (N.eqb_spec r hyphen) as [->|]; simpl; [reflexivity|].
    now destruct (HomieDevice.alnum r).
  - simpl. destruct (HomieDevice.alnum r); [f_equal|]; exact IH.
Qed.

Lemma length_replaceRuns (s : list rune) : forall b,
  (length (replaceRuns b s) <= length s)%nat.
Proof.
  induction s as [|r rest IH]; intros b; simpl; [lia|].
  destruct (idRe_class r); [destruct b|]; simpl;
    match goal with |- context [replaceRuns ?c rest] => specialize (IH c) end; lia.
Qed.

Lemma length_TrimLeft (s : list rune) : (length (TrimLeft s) <= length s)%nat.
Proof.
  induction s as [|r rest IH]; simpl; [lia|].
  destruct (r =? hyphen); simpl; lia.
Qed.

Lemma length_TrimRight (s : list rune) : (length (TrimRight s) <= length s)%nat.
Proof.
  induction s as [|r rest IH]; simpl; [lia|].
  destruct (TrimRight rest) as [|x t]; [destruct (r =? hyphen)|]; simpl in *; lia.
Qed.

(** In a string of the shape [canon] no hyphen follows a hyphen. *)
Lemma canon_no_adjacent (s : list rune) : forall b i,
  canon b s -> s !! i = Some hyphen -> s !! S i <> Some hyphen.
Proof.
  induction s as [|r rest IH]; intros b i Hc Hi; [discriminate|].
  simpl in Hc. destruct i as [|i].
  - injection Hi as ->. change (idRe_class hyphen) with true in Hc. cbv iota in Hc.
    destruct Hc as (_ & _ & Hc). simpl.
    destruct rest as [|x rest']; [discriminate|]. simpl. intros [= ->].
    simpl in Hc. change (idRe_class hyphen) with true in Hc. cbv iota in Hc.
    destruct Hc as (_ & ? & _). discriminate.
  - simpl in Hi |- *.
    destruct (idRe_class r); [destruct Hc as (_ & _ & Hc)|]; eapply IH; eauto.
Qed.

(** X1: [normalizeID] loses no letter and no digit: the runes of [a-z0-9] of
    the result are those of the lowered input, in their order.  The result
    is never longer than the input. *)
Theorem normalizeID_keeps_alnum (s : list rune) :
  List.filter HomieDevice.alnum (normalizeID unicodeLower s)
  = List.filter HomieDevice.alnum (ToLower unicodeLower s)
  /\ (length (normalizeID unicodeLower s) <= length s)%nat.
Proof.
  unfold normalizeID, ReplaceAllString, Trim. split.
  - now rewrite filter_TrimLeft, filter_TrimRight, filter_replaceRuns.
  - pose proof (length_TrimLeft (TrimRight (replaceRuns false (ToLower unicodeLower s)))).
    pose proof (length_TrimRight (replaceRuns false (ToLower unicodeLower s))).
    pose proof (length_replaceRuns (ToLower unicodeLower s) false).
    unfold ToLower in *. rewrite length_map in *. lia.
Qed.

(** X2: no two hyphens of an ID are adjacent, and the ID is empty exactly when
    no rune of the input lowers to a letter or a digit. *)
Theorem normalizeID_hyphens_single (s : list rune) :
  (forall i, normalizeID unicodeLower s !! i = Some hyphen ->
             normalizeID unicodeLower s !! S i <> Some hyphen)
  /\ (normalizeID unicodeLower s = []
      <-> Forall (fun r => idRe_class (toLower unicodeLower r) = true) s).
Proof.
  assert (Hc : canon false (normalizeID unicodeLower s)).
  { unfold normalizeID, ReplaceAllString, Trim.
    apply TrimLeft_canon, TrimRight_canon, replaceRuns_canon. }
  split; [intros i; now apply (canon_no_adjacent _ false)|].
  assert (Hf : List.filter HomieDevice.alnum (normalizeID unicodeLower s)
               = List.filter HomieDevice.alnum (ToLower unicodeLower s)).
  { unfold normalizeID, ReplaceAllString, Trim.
    now rewrite filter_TrimLeft, filter_TrimRight, filter_replaceRuns. }
  split.
  - intros H. rewrite H in Hf. simpl in Hf. clear -Hf.
    unfold ToLower in Hf. induction s as [|r rest IH]; constructor.
    + simpl in Hf. unfold HomieDevice.alnum in Hf.
      destruct (idRe_class (toLower unicodeLower r)); [reflexivity|discriminate].
    + apply IH. simpl in Hf. destruct (HomieDevice.alnum (toLower unicodeLower r)); [discriminate|exact Hf].
  - intros H.
    assert (Hnil : List.filter HomieDevice.alnum (ToLower unicodeLower s) = []).
    { clear -H. unfold ToLower. induction H as [|r rest Hr _ IH]; simpl; [reflexivity|].
      unfold HomieDevice.alnum at 1. now rewrite Hr. }
    rewrite Hnil in Hf.
    pose proof (TrimLeft_head (TrimRight (replaceRuns false (ToLower unicodeLower s)))) as Hh.
    change (TrimLeft (TrimRight (replaceRuns false (ToLower unicodeLower s))))
      with (normalizeID unicodeLower s) in Hh.
    destruct (normalizeID unicodeLower s) as [|r t]; [reflexivity|].
    exfalso. simpl in Hc, Hf, Hh. unfold HomieDevice.alnum in Hf at 1.
    destruct (idRe_class r); [|discriminate].
    destruct Hc as (-> & _). now apply Hh.
Qed.

End NormalizeIDMore.

(** ** homie.go: the device messages *)

Section HomieDeviceFacts.
Import GoStrings HomieDevice.
Local Open Scope string_scope.

Variable unicodeLower : Homie.rune -> Homie.rune.
Variable decode : string -> list Homie.rune.
Context {Template Metric FieldValue : Type}.
Variable Execute : Template -> Metric -> string + string.
Variable TagList : Metric -> list (string * string).
Variable FieldList : Metric -> list (string * FieldValue).

Abbreviation collectHomieDeviceMessages :=
  (HomieDevice.collectHomieDeviceMessages unicodeLower decode Template Metric FieldValue
     Execute TagList FieldList).
Abbreviation homieGenerate := (HomieDevice.homieGenerate Template Metric Execute).
Abbreviation normID := (HomieDevice.normalizeID unicodeLower decode).
Abbreviation seen := (homieSeen Template).
Abbreviation nodeGen := (homieNodeIDGenerator Template).
Abbreviation devGen := (homieDeviceNameGenerator Template).
Abbreviation propertiesOf metric :=
  (Strings (((fun tag : string * string => normID tag.1) <$> TagList metric)
            ++ ((fun field : string * FieldValue => normID field.1) <$> FieldList metric))%list).

Lemma append_inv_l (a b c : string) : a ++ b = a ++ c -> b = c.
Proof.
  induction a as [|x a IH]; [exact (fun H => H)|].
  change (String x (a ++ b) = String x (a ++ c) -> b = c).
  intros [= H]. now apply IH.
Qed.

(** The bytes of an ID are those of the class [idChar]. *)
Lemma normalizeID_bytes (raw : string) :
  Forall (fun c => Homie.idChar (N_of_ascii c) = true) (list_ascii_of_string (normID raw)).
Proof.
  unfold HomieDevice.normalizeID, stringOfRunes.
  rewrite list_ascii_of_string_of_list_ascii.
  assert (H : Forall (fun r => Homie.idChar r = true)
                (Homie.normalizeID unicodeLower (decode raw))).
  { apply (canon_idChar _ false).
    unfold Homie.normalizeID, Homie.ReplaceAllString, Homie.Trim.
    apply TrimLeft_canon, TrimRight_canon, replaceRuns_canon. }
  induction H as [|r rest Hr _ IH]; constructor; [|exact IH].
  rewrite N_ascii_embedding; [exact Hr|].
  revert Hr. unfold Homie.idChar, Homie.isLowerAZ, Homie.isDigit, Homie.hyphen.
  intros Hr.
  repeat match goal with
  | H : orb _ _ = true |- _ => apply orb_true_iff in H; destruct H
  | H : andb _ _ = true |- _ => apply andb_true_iff in H; destruct H
  | H : N.leb _ _ = true |- _ => apply N.leb_le in H
  | H : N.eqb _ _ = true |- _ => apply N.eqb_eq in H
  end; lia.
Qed.

Lemma idChar_bytes_no_slash (s : string) :
  Forall (fun c => Homie.idChar (N_of_ascii c) = true) (list_ascii_of_string s) ->
  Contains s "/" = false.
Proof.
  induction s as [|c s IH]; simpl; [reflexivity|].
  intros H. apply Forall_cons in H as [Hc H]. rewrite (IH H), orb_false_r.
  destruct (Ascii.eqb_spec c "/") as [->|]; [discriminate Hc|reflexivity].
Qed.

(** The steps of a successful call, by what the device and the node were
    before it. *)
Lemma collect_success (m m1 : MQTT Template) (topic : string) (metric : Metric)
    (msgs : list message) (nodeID : string) :
  collectHomieDeviceMessages m topic metric = (m1, inl (msgs, nodeID)) ->
  exists nodeName device,
    homieGenerate (nodeGen m) metric = inl nodeName
    /\ nodeID = normID nodeName
    /\ (match seen m !! topic with
        | Some _ => device = []
        | None => exists deviceName,
            homieGenerate (devGen m) metric = inl deviceName
            /\ device = [ Message (topic ++ "/$homie") "4.0";
                          Message (topic ++ "/$name") deviceName;
                          Message (topic ++ "/$state") "ready" ]
        end)
    /\ let nodes := default ∅ (seen m !! topic) in
       let final := Message (topic ++ "/" ++ nodeID ++ "/$properties")
                           (Join (propertiesOf metric) ",") in
       if default false (nodes !! nodeID)
       then msgs = (device ++ [final])%list /\ m1 = m
       else msgs = (device
                    ++ [ Message (topic ++ "/$nodes")
                                 (Join (Strings (map_to_list (<[nodeID := true]> nodes)).*1) ",");
                         Message (topic ++ "/" ++ nodeID ++ "/$name") nodeName; final ])%list
            /\ seen m1 = <[topic := <[nodeID := true]> nodes]> (seen m)
            /\ devGen m1 = devGen m
            /\ nodeGen m1 = nodeGen m.
Proof.
  unfold HomieDevice.collectHomieDeviceMessages. intros H.
  destruct (seen m !! topic) as [nodes|] eqn:Hs.
  - destruct (homieGenerate (nodeGen m) metric) as [nodeName|err] eqn:Hg;
      [|discriminate H].
    exists nodeName, []. cbn [default from_option Datatypes.id] in *. rewrite Hs in H. cbn [default from_option Datatypes.id] in H.
    destruct (default false (nodes !! normID nodeName)) eqn:Hn;
      injection H as <- <- <-; rewrite Hn.
    + repeat split; reflexivity.
    + repeat split; reflexivity.
  - destruct (homieGenerate (devGen m) metric) as [deviceName|err] eqn:Hd;
      [|discriminate H].
    cbn [homieNodeIDGenerator set_homieSeen homieSeen] in H.
    destruct (homieGenerate (nodeGen m) metric) as [nodeName|err] eqn:Hg;
      [|discriminate H].
    rewrite lookup_insert_eq in H. cbn [default from_option Datatypes.id] in H.
    rewrite lookup_empty in H. cbn [default from_option Datatypes.id] in H.
    injection H as <- <- <-.
    eexists nodeName, _. split; [reflexivity|]. split; [reflexivity|].
    split; [exists deviceName; split; reflexivity|].
    cbn [default from_option Datatypes.id]. rewrite lookup_empty. cbn [default from_option Datatypes.id].
    split; [reflexivity|].
    cbn [homieSeen set_homieSeen homieDeviceNameGenerator homieNodeIDGenerator].
    split; [|split; reflexivity].
    now rewrite insert_insert_eq.
Qed.

(** X3: a call that succeeded, made again with the same topic and metric,
    returns the "$properties" message alone, the one the first call ended
    with, and leaves [homieSeen] as it is: a device and a node are
    announced once. *)
Theorem collectHomieDeviceMessages_repeat (m m1 : MQTT Template) (topic : string)
    (metric : Metric) (msgs : list message) (nodeID : string) :
  collectHomieDeviceMessages m topic metric = (m1, inl (msgs, nodeID)) ->
  exists props,
    last msgs = Some props
    /\ collectHomieDeviceMessages m1 topic metric = (m1, inl ([props], nodeID)).
Proof.
  intros H. destruct (collect_success _ _ _ _ _ _ H) as (nodeName & device & Hg & Hid & Hdev & Hrest).
  cbv zeta in Hrest.
  eexists. destruct (default false (default ∅ (seen m !! topic) !! nodeID)) eqn:Hn.
  - destruct Hrest as (-> & ->). split; [apply last_snoc|].
    destruct (seen m !! topic) as [nodes|] eqn:Hs.
    + unfold HomieDevice.collectHomieDeviceMessages. rewrite Hs, Hg. cbn [default from_option Datatypes.id].
      rewrite Hs. cbn [default from_option Datatypes.id] in *. rewrite <- Hid, Hn. reflexivity.
    + cbn in Hn. rewrite lookup_empty in Hn. discriminate Hn.
  - destruct Hrest as (-> & Hseen & Hgd & Hgn).
    split.
    { rewrite last_app. reflexivity. }
    assert (Hl : seen m1 !! topic = Some (<[nodeID := true]> (default ∅ (seen m !! topic))))
      by (rewrite Hseen; apply lookup_insert_eq).
    unfold HomieDevice.collectHomieDeviceMessages. rewrite Hl. cbv beta iota zeta.
    rewrite Hgn, Hg, Hl. cbn [default from_option Datatypes.id].
    rewrite <- Hid, lookup_insert_eq. cbn [default from_option Datatypes.id]. reflexivity.
Qed.

(** X4: when the node-ID template fails on the first metric of a topic, the
    call returns the error but has already recorded the topic as seen, with
    no node.  The next call for the topic, when it succeeds, therefore
    sends three messages, none of them the "$homie", the device "$name" or
    the "$state" message. *)
Theorem collectHomieDeviceMessages_node_error (m : MQTT Template) (topic : string)
    (metric : Metric) (deviceName err : string) :
  seen m !! topic = None ->
  homieGenerate (devGen m) metric = inl deviceName ->
  homieGenerate (nodeGen m) metric = inr err ->
  exists m1,
    collectHomieDeviceMessages m topic metric = (m1, inr ("generating device ID failed: " ++ err))
    /\ seen m1 !! topic = Some ∅
    /\ forall metric2 m2 msgs nodeID,
         collectHomieDeviceMessages m1 topic metric2 = (m2, inl (msgs, nodeID)) ->
         length msgs = 3%nat
         /\ forall msg, msg ∈ msgs ->
              HomieDevice.topic msg <> topic ++ "/$homie"
              /\ HomieDevice.topic msg <> topic ++ "/$name"
              /\ HomieDevice.topic msg <> topic ++ "/$state".
Proof.
  intros Hs Hd Hg. eexists. split; [|split].
  - unfold HomieDevice.collectHomieDeviceMessages. rewrite Hs, Hd. cbv beta iota zeta.
    cbn [homieNodeIDGenerator set_homieSeen]. rewrite Hg. reflexivity.
  - cbn [homieSeen set_homieSeen]. apply lookup_insert_eq.
  - intros metric2 m2 msgs nodeID H.
    destruct (collect_success _ _ _ _ _ _ H) as (nodeName & device & _ & _ & Hdev & Hrest).
    cbn [homieSeen set_homieSeen] in Hdev, Hrest. rewrite lookup_insert_eq in Hdev, Hrest.
    subst device. cbv zeta in Hrest. cbn [default from_option Datatypes.id] in Hrest.
    rewrite lookup_empty in Hrest. cbn [default from_option Datatypes.id] in Hrest.
    destruct Hrest as (-> & _). split; [reflexivity|].
    intros msg Hmsg. cbn [app] in Hmsg.
    assert (Hlen : forall (u v w : string),
              String.length v <> (String.length u + String.length w)%nat ->
              topic ++ "/" ++ u ++ w <> topic ++ String "/" v).
    { intros u v w Hne Heq. apply append_inv_l in Heq.
      change (String "/" (u ++ w) = String "/" v) in Heq. injection Heq as Heq.
      apply Hne. now rewrite <- Heq, length_append. }
    assert (Hnil : forall (u v w : string),
              String.length v = String.length w -> v <> w ->
              topic ++ "/" ++ u ++ w <> topic ++ String "/" v).
    { intros u v w Hl Hne Heq. apply append_inv_l in Heq.
      change (String "/" (u ++ w) = String "/" v) in Heq. injection Heq as Heq.
      assert (Hu : String.length u = 0%nat).
      { apply (f_equal String.length) in Heq. rewrite length_append in Heq. lia. }
      destruct u; [|discriminate Hu]. now apply Hne. }
    repeat (apply elem_of_cons in Hmsg as [->|Hmsg]); [| | |inversion Hmsg];
      cbn [HomieDevice.topic].
    + repeat split; intros Heq; apply append_inv_l in Heq; discriminate Heq.
    + repeat split; first [ apply Hlen; cbn; lia | apply Hnil; [reflexivity|discriminate] ].
    + repeat split; apply Hlen; cbn; lia.
Qed.

(** X5: when a node is new for its topic, the "$nodes" message lists the node
    IDs recorded for the topic, the new one among them, each once and in
    the order of [sort.Strings], and the new ID is recorded. *)
Theorem collectHomieDeviceMessages_nodes (m m1 : MQTT Template) (topic : string)
    (metric : Metric) (msgs : list message) (nodeID : string) :
  collectHomieDeviceMessages m topic metric = (m1, inl (msgs, nodeID)) ->
  default false (default ∅ (seen m !! topic) !! nodeID) = false ->
  exists nodeIDs,
    Message (topic ++ "/$nodes") (Join nodeIDs ",") ∈ msgs
    /\ Sorted string_le nodeIDs
    /\ NoDup nodeIDs
    /\ (forall k, k ∈ nodeIDs
                  <-> k = nodeID \/ is_Some (default ∅ (seen m !! topic) !! k))
    /\ seen m1 !! topic = Some (<[nodeID := true]> (default ∅ (seen m !! topic))).
Proof.
  intros H Hn.
  destruct (collect_success _ _ _ _ _ _ H) as (nodeName & device & _ & _ & _ & Hrest).
  cbv zeta in Hrest. rewrite Hn in Hrest. destruct Hrest as (-> & Hseen & _).
  set (nodes := default ∅ (seen m !! topic)) in *.
  exists (Strings (map_to_list (<[nodeID := true]> nodes)).*1).
  assert (Hperm : Strings (map_to_list (<[nodeID := true]> nodes)).*1
                  ≡ₚ (map_to_list (<[nodeID := true]> nodes)).*1)
    by apply merge_sort_Permutation.
  split; [|split; [|split; [|split]]].
  - apply elem_of_app. right. left.
  - apply Sorted_merge_sort, _.
  - rewrite Hperm. apply NoDup_fst_map_to_list.
  - intros k. rewrite Hperm. rewrite list_elem_of_fmap. split.
    + intros ([k' v] & -> & Hin). apply elem_of_map_to_list in Hin. cbn.
      destruct (decide (k' = nodeID)) as [->|Hne]; [now left|right].
      rewrite lookup_insert_ne in Hin by congruence. eauto.
    + intros [->|[v Hv]].
      * exists (nodeID, true). split; [reflexivity|].
        apply elem_of_map_to_list, lookup_insert_eq.
      * destruct (decide (k = nodeID)) as [->|Hne].
        -- exists (nodeID, true). split; [reflexivity|].
           apply elem_of_map_to_list, lookup_insert_eq.
        -- exists (k, v). split; [reflexivity|].
           apply elem_of_map_to_list. now rewrite lookup_insert_ne by congruence.
  - rewrite Hseen. apply lookup_insert_eq.
Qed.

(** X6: whatever a call returns, it leaves the generators and the other topics
    alone, and a node recorded for a topic stays recorded. *)
Theorem collectHomieDeviceMessages_seen_grows (m m1 : MQTT Template) (topic : string)
    (metric : Metric) (r : list message * string + string) :
  collectHomieDeviceMessages m topic metric = (m1, r) ->
  devGen m1 = devGen m
  /\ nodeGen m1 = nodeGen m
  /\ (forall t, t <> topic -> seen m1 !! t = seen m !! t)
  /\ (forall t nodes k, seen m !! t = Some nodes -> nodes !! k = Some true ->
        exists nodes', seen m1 !! t = Some nodes' /\ nodes' !! k = Some true).
Proof.
  intros H.
  assert (Hfail : forall m0 : MQTT Template,
            devGen m0 = devGen m -> nodeGen m0 = nodeGen m ->
            (seen m0 = seen m \/ (seen m !! topic = None /\ seen m0 = <[topic := ∅]> (seen m))) ->
            devGen m0 = devGen m
            /\ nodeGen m0 = nodeGen m
            /\ (forall t, t <> topic -> seen m0 !! t = seen m !! t)
            /\ (forall t nodes k, seen m !! t = Some nodes -> nodes !! k = Some true ->
                  exists nodes', seen m0 !! t = Some nodes' /\ nodes' !! k = Some true)).
  { intros m0 Hd Hg [Hs|[Hnone Hs]]; (split; [exact Hd|split; [exact Hg|]]); rewrite Hs.
    - split; [reflexivity|eauto].
    - split; [intros t Ht; now rewrite lookup_insert_ne by congruence|].
      intros t nodes k Ht Hk. exists nodes. split; [|exact Hk].
      rewrite lookup_insert_ne; [exact Ht|]. intros ->. congruence. }
  destruct r as [[msgs nodeID]|err].
  - destruct (collect_success _ _ _ _ _ _ H) as (nodeName & device & _ & _ & _ & Hrest).
    cbv zeta in Hrest.
    destruct (default false (default ∅ (seen m !! topic) !! nodeID)) eqn:Hn.
    + destruct Hrest as (_ & ->). apply Hfail; auto.
    + destruct Hrest as (_ & Hs & Hd & Hg). split; [exact Hd|split; [exact Hg|]].
      rewrite Hs. split; [intros t Ht; now rewrite lookup_insert_ne by congruence|].
      intros t nodes k Ht Hk. destruct (decide (t = topic)) as [->|Hne].
      * rewrite lookup_insert_eq, Ht. cbn [default from_option Datatypes.id].
        eexists. split; [reflexivity|].
        destruct (decide (k = nodeID)) as [->|Hk'];
          [apply lookup_insert_eq|now rewrite lookup_insert_ne by congruence].
      * rewrite lookup_insert_ne by congruence. eauto.
  - unfold HomieDevice.collectHomieDeviceMessages in H.
    destruct (seen m !! topic) as [nodes|] eqn:Hs.
    + destruct (homieGenerate (nodeGen m) metric); [|injection H as <- _; apply Hfail; auto].
      destruct (default false _); discriminate H.
    + destruct (homieGenerate (devGen m) metric) as [deviceName|];
        [|injection H as <- _; apply Hfail; auto].
      cbv beta iota zeta in H. cbn [homieNodeIDGenerator set_homieSeen] in H.
      destruct (homieGenerate (nodeGen m) metric).
      * destruct (default false _); discriminate H.
      * injection H as <- _. apply Hfail; auto.
Qed.

(** X7: the node ID a call returns is [normalizeID] of the name the node
    template generates for the metric; it is a Homie ID: bytes of [a-z0-9]
    and hyphens only, so no "/".  The last message is the "$properties"
    message of the node; its payload joins, in the order of [sort.Strings],
    the list that holds [normalizeID] of the key of each tag and of the key
    of each field of the metric, equal IDs repeated: the sorted list is a
    permutation of the IDs of the tag keys followed by those of the field
    keys, and the values of the tags and fields have no part in it. *)
Theorem collectHomieDeviceMessages_ids (m m1 : MQTT Template) (topic : string)
    (metric : Metric) (msgs : list message) (nodeID : string) :
  collectHomieDeviceMessages m topic metric = (m1, inl (msgs, nodeID)) ->
  (exists nodeName,
     homieGenerate (nodeGen m) metric = inl nodeName /\ nodeID = normID nodeName)
  /\ Forall (fun c => Homie.idChar (N_of_ascii c) = true) (list_ascii_of_string nodeID)
  /\ Contains nodeID "/" = false
  /\ exists properties,
       last msgs = Some (Message (topic ++ "/" ++ nodeID ++ "/$properties")
                                 (Join properties ","))
       /\ Sorted string_le properties
       /\ properties
          ≡ₚ (((fun tag : string * string => normID tag.1) <$> TagList metric)
              ++ ((fun field : string * FieldValue => normID field.1) <$> FieldList metric))%list
       /\ length properties = (length (TagList metric) + length (FieldList metric))%nat
       /\ Forall (fun p => Forall (fun c => Homie.idChar (N_of_ascii c) = true)
                                  (list_ascii_of_string p)) properties.
Proof.
  intros H.
  destruct (collect_success _ _ _ _ _ _ H) as (nodeName & device & Hgen & Hid & _ & Hrest).
  cbv zeta in Hrest.
  split; [exists nodeName; split; assumption|].
  assert (Hbytes : Forall (fun c => Homie.idChar (N_of_ascii c) = true)
                     (list_ascii_of_string nodeID)) by (rewrite Hid; apply normalizeID_bytes).
  split; [exact Hbytes|]. split; [now apply idChar_bytes_no_slash|].
  exists (propertiesOf metric).
  assert (Hperm : propertiesOf metric
                  ≡ₚ (((fun tag : string * string => normID tag.1) <$> TagList metric)
                      ++ ((fun field : string * FieldValue => normID field.1) <$> FieldList metric))%list)
    by apply merge_sort_Permutation.
  split; [|split; [|split; [|split]]].
  - destruct (default false _); [destruct Hrest as (-> & _)|destruct Hrest as (-> & _)];
      rewrite last_app; reflexivity.
  - apply Sorted_merge_sort, _.
  - exact Hperm.
  - rewrite Hperm, length_app, !length_fmap. reflexivity.
  - rewrite Hperm. apply Forall_app. split; apply Forall_fmap, Forall_forall;
      intros x _; apply normalizeID_bytes.
Qed.

End HomieDeviceFacts.

(** ** prometheus_client: what makes [Init] fail, and listening *)

Section PrometheusMore.
Import Prometheus PrometheusServe.
Local Open Scope Z_scope.
Local Open Scope string_scope.

Context {Collector MetricTypes Secret IPNet ServerConfig TLSConf Registry Listener : Type}.
Variable NewRegistry : Registry.
Variable Register : Registry -> Registrant Collector -> Registry + error.
Variable TypeMappings_Init : MetricTypes -> option error.
Variable v1_NewCollector v2_NewCollector : Duration -> bool -> bool -> MetricTypes -> Collector.
Variable ParseCIDR : string -> IPNet + error.
Variable Secret_Get : Secret -> string + error.
Variable TLSConfig : ServerConfig -> option TLSConf + error.

Variable ParseRequestURI : string -> URL + error.
Variable strings_ToLower : string -> string.
Variable tls_Listen : string -> TLSConf -> Listener + error.
Variable net_Listen : string -> Listener + error.
Variable SplitHostPort : string -> string * string + error.
Variable ParseUint : string -> Z + error.
Variable vsock_Listen : Z -> Listener + error.
Variable Listener_Addr : Listener -> string.
Variable URL_String : URL -> string.
Variable Shutdown : Server IPNet TLSConf Registry -> option error.

Abbreviation pclient := (PrometheusClient Collector MetricTypes Secret IPNet ServerConfig TLSConf Registry).
Abbreviation plugin := (Plugin Collector MetricTypes Secret IPNet ServerConfig TLSConf Registry).
Abbreviation Init reg :=
  (Prometheus.Init Collector MetricTypes Secret IPNet ServerConfig TLSConf Registry NewRegistry reg
        TypeMappings_Init v1_NewCollector v2_NewCollector ParseCIDR Secret_Get TLSConfig).
Abbreviation registerDefaultsWith reg :=
  (registerDefaults Collector Registry reg).
Abbreviation parseRange := (parseIPRange IPNet ParseCIDR).
Abbreviation Connect :=
  (PrometheusServe.Connect Collector MetricTypes Secret IPNet ServerConfig TLSConf Registry Listener
     ParseRequestURI strings_ToLower tls_Listen net_Listen SplitHostPort ParseUint
     vsock_Listen Listener_Addr).
Abbreviation listen :=
  (PrometheusServe.listen Collector MetricTypes Secret IPNet ServerConfig TLSConf Registry Listener
     ParseRequestURI strings_ToLower tls_Listen net_Listen SplitHostPort ParseUint
     vsock_Listen).
Abbreviation listenVsock := (PrometheusServe.listenVsock Listener SplitHostPort ParseUint vsock_Listen).
Abbreviation Close :=
  (PrometheusServe.Close Collector MetricTypes Secret IPNet ServerConfig TLSConf Registry Shutdown).
Abbreviation URL_of :=
  (PrometheusServe.URL_of Collector MetricTypes Secret IPNet ServerConfig TLSConf Registry URL_String).

(** What is left of a map after the [delete] of every key of a list. *)
Lemma foldl_delete_lookup (exclude : list string) :
  forall (m : gmap string bool) (k : string) (v : bool),
  foldl (fun m c => delete c m) m exclude !! k = Some v ->
  m !! k = Some v /\ k ∉ exclude.
Proof.
  induction exclude as [|c rest IH]; intros m k v H; cbn in H.
  - split; [exact H|]. apply not_elem_of_nil.
  - apply IH in H as [H Hrest]. apply lookup_delete_Some in H as [Hne H].
    split; [exact H|]. intros Hin. apply elem_of_cons in Hin as [->|Hin]; auto.
Qed.

(** The default collectors left are names the loop of [Init] knows, and
    none of them is excluded. *)
Lemma defaultCollectors_names (exclude : list string) (name : string) :
  name ∈ (map_to_list (defaultCollectors exclude)).*1 ->
  (name = "gocollector" \/ name = "process") /\ name ∉ exclude.
Proof.
  rewrite list_elem_of_fmap. intros ([k v] & -> & Hin). cbn.
  apply elem_of_map_to_list in Hin. unfold defaultCollectors in Hin.
  apply foldl_delete_lookup in Hin as [Hin Hex]. split; [|exact Hex].
  apply lookup_insert_Some in Hin as [[<- _]|[_ Hin]]; [now left|].
  apply lookup_insert_Some in Hin as [[<- _]|[_ Hin]]; [now right|].
  now rewrite lookup_empty in Hin.
Qed.

Lemma registerDefaults_error (names : list string) :
  (forall name, name ∈ names -> name = "gocollector" \/ name = "process") ->
  forall registry err,
  registerDefaultsWith Register registry names = inr err ->
  exists registry' r, Register registry' r = inr err.
Proof.
  induction names as [|name rest IH]; intros Hnames registry err H; [discriminate H|].
  cbn [registerDefaults] in H.
  assert (Hrest : forall n, n ∈ rest -> n = "gocollector" \/ n = "process")
    by (intros n Hn; apply Hnames; now right).
  destruct (Hnames name) as [->| ->]; [now left| |].
  - change ("gocollector" =? "gocollector") with true in H. cbv iota in H.
    destruct (Register registry (GoCollector Collector)) as [registry'|e] eqn:Hr.
    + eapply IH; eauto.
    + injection H as <-. eauto.
  - change ("process" =? "gocollector") with false in H.
    change ("process" =? "process") with true in H. cbv iota in H.
    destruct (Register registry (ProcessCollector Collector)) as [registry'|e] eqn:Hr.
    + eapply IH; eauto.
    + injection H as <-. eauto.
Qed.

Lemma parseIPRange_error (cidrs : list string) (err : error) :
  parseRange cidrs = inr err ->
  exists cidr msg, cidr ∈ cidrs /\ ParseCIDR cidr = inr msg
                   /\ err = "error parsing ip_range: " ++ msg.
Proof.
  induction cidrs as [|cidr rest IH]; cbn [parseIPRange]; [discriminate|].
  destruct (ParseCIDR cidr) as [ipNet|msg] eqn:Hc.
  - destruct (parseRange rest) as [nets|e]; [discriminate|].
    intros [= <-]. destruct (IH eq_refl) as (c & msg & Hin & Hp & He).
    exists c, msg. split; [now right|auto].
  - intros [= <-]. exists cidr, msg. split; [now left|auto].
Qed.

Lemma parseIPRange_ok (cidrs : list string) (nets : list IPNet) :
  parseRange cidrs = inl nets <-> Forall2 (fun cidr ipNet => ParseCIDR cidr = inl ipNet) cidrs nets.
Proof.
  revert nets. induction cidrs as [|cidr rest IH]; intros nets; cbn [parseIPRange].
  - split; [intros [= <-]; constructor|intros H; now inversion H].
  - destruct (ParseCIDR cidr) as [ipNet|msg] eqn:Hc.
    + destruct (parseRange rest) as [nets'|e]; split.
      * intros [= <-]. constructor; [exact Hc|]. now apply IH.
      * intros H. inversion H as [|? n ? ns Hn Hrest]; subst.
        apply IH in Hrest. congruence.
      * discriminate.
      * intros H. inversion H as [|? n ? ns Hn Hrest]; subst.
        apply IH in Hrest. discriminate Hrest.
    + split; [discriminate|]. intros H. inversion H; subst. congruence.
Qed.

(** X8: every error of [Init] is the error of a call it makes: a registration,
    the type mappings, one entry of [ip_range] (wrapped), the password or
    the TLS configuration.  The "unrecognized collector" branch of its loop
    cannot be reached, and a failed [Init] installs no server. *)
Theorem Init_error_origin (p p' : pclient) (err : error) :
  Init Register p = (p', Some err) ->
  ((exists registry r, Register registry r = inr err)
   \/ TypeMappings_Init (TypeMappings _ _ _ _ _ _ _ p) = Some err
   \/ (exists cidr msg, cidr ∈ IPRange _ _ _ _ _ _ _ p /\ ParseCIDR cidr = inr msg
                        /\ err = "error parsing ip_range: " ++ msg)
   \/ Secret_Get (BasicPassword _ _ _ _ _ _ _ p) = inr err
   \/ TLSConfig (tlsServerConfig _ _ _ _ _ _ _ p) = inr err)
  /\ server p' = server p.
Proof.
  unfold Prometheus.Init. intros H.
  destruct (registerDefaultsWith Register NewRegistry _) as [registry|e] eqn:Hreg.
  2:{ injection H as <- <-. split; [left|reflexivity].
      apply registerDefaults_error in Hreg; [exact Hreg|].
      intros name Hname. now apply defaultCollectors_names in Hname. }
  destruct (TypeMappings_Init _) as [e|] eqn:Htm.
  { injection H as <- <-. split; [right; left; reflexivity|reflexivity]. }
  cbv zeta in H.
  destruct (Register registry _) as [registry'|e] eqn:Hr.
  2:{ injection H as <- <-. split; [left; eauto|reflexivity]. }
  destruct (parseRange _) as [nets|e] eqn:Hip.
  2:{ injection H as <- <-. split; [|reflexivity].
      right; right; left. apply parseIPRange_error in Hip. exact Hip. }
  destruct (Secret_Get _) as [password|e] eqn:Hs.
  2:{ injection H as <- <-. split; [|reflexivity]. right; right; right; left. reflexivity. }
  destruct (TLSConfig _) as [tlsConfig|e] eqn:Ht; [discriminate H|].
  injection H as <- <-. split.
  - right; right; right; right. revert Ht. cbn.
    now destruct (String.eqb _ EmptyString).
  - cbn. now destruct (String.eqb _ EmptyString).
Qed.

Lemma registerDefaults_ext (Register' : Registry -> Registrant Collector -> Registry + error)
    (exclude names : list string) :
  (forall registry r,
     ~ (r = GoCollector Collector /\ "gocollector" ∈ exclude) ->
     ~ (r = ProcessCollector Collector /\ "process" ∈ exclude) ->
     Register registry r = Register' registry r) ->
  (forall name, name ∈ names -> name ∉ exclude) ->
  forall registry,
  registerDefaultsWith Register registry names = registerDefaultsWith Register' registry names.
Proof.
  intros Hagree. induction names as [|name rest IH]; intros Hnames registry; [reflexivity|].
  cbn [registerDefaults].
  assert (Hname : name ∉ exclude) by (apply Hnames; now left).
  assert (Hrest : forall n, n ∈ rest -> n ∉ exclude) by (intros n Hn; apply Hnames; now right).
  destruct (String.eqb_spec name "gocollector") as [->|_].
  - rewrite <- Hagree by (intros [? ?]; try discriminate; contradiction).
    destruct (Register registry _); [now apply IH|reflexivity].
  - destruct (String.eqb_spec name "process") as [->|_]; [|reflexivity].
    rewrite <- Hagree by (intros [? ?]; try discriminate; contradiction).
    destruct (Register registry _); [now apply IH|reflexivity].
Qed.

(** X9: a default collector named in [collectors_exclude] is not registered:
    [Init] does the same whatever registering it would have done. *)
Theorem Init_excluded_not_registered
    (Register' : Registry -> Registrant Collector -> Registry + error) (p : pclient) :
  (forall registry r,
     ~ (r = GoCollector Collector /\ "gocollector" ∈ CollectorsExclude _ _ _ _ _ _ _ p) ->
     ~ (r = ProcessCollector Collector /\ "process" ∈ CollectorsExclude _ _ _ _ _ _ _ p) ->
     Register registry r = Register' registry r) ->
  Init Register p = Init Register' p.
Proof.
  intros Hagree. unfold Prometheus.Init.
  rewrite (registerDefaults_ext Register' (CollectorsExclude _ _ _ _ _ _ _ p))
    by (try exact Hagree; intros name Hname; now apply defaultCollectors_names in Hname).
  destruct (registerDefaultsWith Register' NewRegistry _) as [registry|e]; [|reflexivity].
  destruct (TypeMappings_Init _); [reflexivity|]. cbv zeta.
  rewrite <- Hagree by (intros [? ?]; discriminate). reflexivity.
Qed.

(** X10: when [Init] returns nil, the metrics route and the landing page are
    both behind the header, basic-auth and IP-range handlers, the range
    holding one network for each entry of [ip_range] in order; the server
    listens on [Listen] with the TLS configuration that was built; the
    collector is the version 2 collector for [metric_version] 2 and the
    version 1 collector for every other value. *)
Theorem Init_nil_server (p p' : pclient) :
  Init Register p = (p', None) ->
  exists srv registry nets password,
    server p' = Some srv
    /\ Forall2 (fun cidr ipNet => ParseCIDR cidr = inl ipNet) (IPRange _ _ _ _ _ _ _ p) nets
    /\ Secret_Get (BasicPassword _ _ _ _ _ _ _ p) = inl password
    /\ TLSConfig (tlsServerConfig _ _ _ _ _ _ _ p) = inl (srvTLSConfig srv)
    /\ Addr srv = Listen p
    /\ srvHandler srv
       = [ (Path p',
            headerHandler _ _ (authHandler _ _ (BasicUsername _ _ _ _ _ _ _ p) password
              (rangeHandler _ _ nets (promHandler _ _ registry))));
           ("/",
            headerHandler _ _ (authHandler _ _ (BasicUsername _ _ _ _ _ _ _ p) password
              (rangeHandler _ _ nets (landingPageHandler _ _)))) ]
    /\ Path p' = (if String.eqb (Path p) EmptyString then "/metrics" else Path p)
    /\ collector p'
       = Some ((if (MetricVersion _ _ _ _ _ _ _ p =? 2)%Z then v2_NewCollector else v1_NewCollector)
                 (ExpirationInterval _ _ _ _ _ _ _ p) (StringAsLabel _ _ _ _ _ _ _ p)
                 (ExportTimestamp _ _ _ _ _ _ _ p) (TypeMappings _ _ _ _ _ _ _ p)).
Proof.
  unfold Prometheus.Init. intros H.
  destruct (registerDefaultsWith Register NewRegistry _) as [registry0|e]; [|discriminate H].
  destruct (TypeMappings_Init _); [discriminate H|]. cbv zeta in H.
  destruct (Register registry0 _) as [registry|e]; [|discriminate H].
  destruct (parseRange _) as [nets|e] eqn:Hip; [|discriminate H].
  destruct (Secret_Get _) as [password|e] eqn:Hs; [|discriminate H].
  destruct (TLSConfig _) as [tlsConfig|e] eqn:Ht; [|discriminate H].
  injection H as <-. apply parseIPRange_ok in Hip.
  cbn [set_collector IPRange BasicPassword] in Hip, Hs.
  assert (Ht' : TLSConfig (tlsServerConfig _ _ _ _ _ _ _ p) = inl tlsConfig)
    by (revert Ht; cbn; now destruct (String.eqb _ EmptyString)).
  clear Ht.
  destruct (String.eqb_spec (Path p) EmptyString) as [Hp|Hp];
    cbn -[Z.ltb String.eqb Z.eqb];
    destruct (Z.ltb _ Second); cbn -[Z.ltb String.eqb Z.eqb];
    destruct (Z.ltb _ Second); cbn -[Z.ltb String.eqb Z.eqb];
    eexists _, registry, nets, password;
    (split; [reflexivity|]); cbn -[Z.ltb String.eqb Z.eqb];
    repeat split; try assumption; try reflexivity;
    now destruct (MetricVersion _ _ _ _ _ _ _ p =? 2)%Z.
Qed.

(** What [Init] leaves when it returns nil: the server, with the TLS
    configuration that was built, and the path. *)
Lemma Init_nil_tls_path (p p' : pclient) :
  Init Register p = (p', None) ->
  exists srv,
    server p' = Some srv
    /\ TLSConfig (tlsServerConfig _ _ _ _ _ _ _ p) = inl (srvTLSConfig srv)
    /\ Path p' = (if String.eqb (Path p) EmptyString then "/metrics" else Path p).
Proof.
  unfold Prometheus.Init. intros H.
  destruct (registerDefaultsWith Register NewRegistry _) as [registry0|e]; [|discriminate H].
  destruct (TypeMappings_Init _); [discriminate H|]. cbv zeta in H.
  destruct (Register registry0 _) as [registry|e]; [|discriminate H].
  destruct (parseRange _) as [nets|e]; [|discriminate H].
  destruct (Secret_Get _) as [password|e]; [|discriminate H].
  destruct (TLSConfig _) as [tlsConfig|e] eqn:Ht; [|discriminate H].
  injection H as <-.
  assert (Ht' : TLSConfig (tlsServerConfig _ _ _ _ _ _ _ p) = inl tlsConfig)
    by (revert Ht; cbn; now destruct (String.eqb _ EmptyString)).
  clear Ht.
  destruct (String.eqb_spec (Path p) EmptyString) as [Hp|Hp];
    cbn -[Z.ltb String.eqb Z.eqb];
    destruct (Z.ltb _ Second); cbn -[Z.ltb String.eqb Z.eqb];
    destruct (Z.ltb _ Second); cbn -[Z.ltb String.eqb Z.eqb];
    eexists; (split; [reflexivity|]); cbn -[Z.ltb String.eqb Z.eqb];
    split; first [assumption | reflexivity].
Qed.

(** X11: [Init] followed by [Connect]: when both return nil the URL of the
    plugin has the scheme "https" if the TLS configuration is set and "http"
    otherwise, the address of the listener that was opened as its host, and
    [Path] as its path, "/metrics" where none was configured. *)
Theorem Init_Connect_URL (p p' : pclient) (u0 : option URL) (pl : plugin) :
  Init Register p = (p', None) ->
  Connect {| client := p'; url := u0 |} = Done (pl, None) ->
  exists listener tlsConfig,
    listen p' = Done (inl listener)
    /\ TLSConfig (tlsServerConfig _ _ _ _ _ _ _ p) = inl tlsConfig
    /\ client pl = p'
    /\ url pl = Some {| Scheme := match tlsConfig with Some _ => "https" | None => "http" end;
                        Host := Listener_Addr listener;
                        urlPath := if String.eqb (Path p) EmptyString
                                   then "/metrics" else Path p |}.
Proof.
  intros Hinit Hc.
  destruct (Init_nil_tls_path _ _ Hinit) as (srv & Hsrv & Htls & Hpath).
  unfold PrometheusServe.Connect in Hc. cbn [client] in Hc.
  destruct (listen p') as [[listener|e]|] eqn:Hl; [|discriminate Hc..].
  rewrite Hsrv in Hc. injection Hc as <-.
  exists listener, (srvTLSConfig srv). cbn [client url].
  rewrite Hpath. repeat split; assumption.
Qed.

(** X12: [Connect] that returns an error leaves the plugin as it was.  After a
    [Connect] that returned nil, [Close] returns what [Shutdown] returned
    and, also when that is an error, [URL] is the empty string again. *)
Theorem Connect_Close_URL (pl pl1 : plugin) (result : option error) :
  Connect pl = Done (pl1, result) ->
  match result with
  | Some _ => pl1 = pl
  | None =>
      exists srv pl2,
        server (client pl) = Some srv
        /\ Close pl1 = Done (pl2, Shutdown srv)
        /\ URL_of pl2 = EmptyString
        /\ client pl2 = client pl
  end.
Proof.
  unfold PrometheusServe.Connect. intros H.
  destruct (listen (client pl)) as [[listener|e]|]; [|injection H as <- <-; reflexivity|discriminate H].
  destruct (server (client pl)) as [srv|] eqn:Hs; [|discriminate H].
  injection H as <- <-. exists srv. eexists. unfold PrometheusServe.Close. cbn [client]. rewrite Hs.
  repeat split.
Qed.

(** X13: on a vsock address the listener is opened by [vsock.Listen] on the
    port of the host part, without TLS even when a TLS configuration is
    set; the URL that [Connect] records has the scheme "https" all the same
    in that case. *)
Theorem Connect_vsock (pl : plugin) (srv : Server IPNet TLSConf Registry) (u : URL) :
  server (client pl) = Some srv ->
  ParseRequestURI (Listen (client pl)) = inl u ->
  strings_ToLower (Scheme u) = "vsock" ->
  listen (client pl) = Done (listenVsock (Host u))
  /\ Connect pl
     = match listenVsock (Host u) with
       | inr err => Done (pl, Some err)
       | inl listener =>
           Done ({| client := client pl;
                    url := Some {| Scheme := match srvTLSConfig srv with
                                             | Some _ => "https"
                                             | None => "http"
                                             end;
                                   Host := Listener_Addr listener;
                                   urlPath := Path (client pl) |} |}, None)
       end.
Proof.
  intros Hs Hu Hv.
  assert (Hl : listen (client pl) = Done (listenVsock (Host u))).
  { unfold PrometheusServe.listen. rewrite Hu. cbv zeta. rewrite Hv. reflexivity. }
  split; [exact Hl|]. unfold PrometheusServe.Connect. rewrite Hl.
  destruct (listenVsock (Host u)); [rewrite Hs|]; reflexivity.
Qed.

End PrometheusMore.

(** ** dcos: the points of [createPoints] and the calls of [addMetrics] *)

Section DCOSMore.
Import GoStrings DCOS.
Local Open Scope string_scope.
Variable int64_of_float64 : float64 -> Z.

Abbreviation seriesKeyOfDp dp := (seriesKeyOf (default ∅ (Tags dp))).
Abbreviation points_of dps := (collectPoints int64_of_float64 dps).

Lemma collectPoints_dom (dps : list dataPoint) :
  dom (points_of dps) = (list_to_set ((fun dp => seriesKeyOfDp dp) <$> dps) : gset string).
Proof.
  induction dps as [|d dps IH] using rev_ind;
    [unfold collectPoints; cbn [foldl fmap list_fmap list_to_set]; apply dom_empty_L|].
  rewrite collectPoints_snoc, fmap_app, list_to_set_app_L. cbn [fmap list_fmap list_to_set].
  unfold addDatapoint. rewrite dom_insert_L, IH.
  rewrite (right_id_L ∅ (∪)). apply (comm_L (∪)).
Qed.

Lemma size_list_to_set_le (l : list string) :
  (size (list_to_set l : gset string) <= length l)%nat.
Proof.
  induction l as [|x l IH]; cbn [list_to_set length]; [now rewrite size_empty|].
  rewrite size_union_alt, size_singleton.
  assert (size (list_to_set l ∖ {[x]} : gset string) <= size (list_to_set l : gset string))%nat
    by (apply subseteq_size, subseteq_difference_l; reflexivity).
  lia.
Qed.

(** What holds of every point while the datapoints are collected: it has
    no label yet, its tags are those of a datapoint of its series, it has a
    field, and each field is the key and value of a datapoint of the
    series. *)
Lemma collectPoints_inv (dps : list dataPoint) (key : string) (p : point) :
  points_of dps !! key = Some p ->
  labels p = ∅
  /\ (exists dp, dp ∈ dps /\ seriesKeyOfDp dp = key /\ tags p = default ∅ (Tags dp))
  /\ (exists k, is_Some (fields p !! k))
  /\ (forall k v, fields p !! k = Some v ->
        exists dp, dp ∈ dps /\ seriesKeyOfDp dp = key
                   /\ fieldKeyOf dp = k /\ fieldValueOf int64_of_float64 dp = v).
Proof.
  revert p. induction dps as [|d dps IH] using rev_ind; intros p.
  - unfold collectPoints. cbn. now rewrite lookup_empty.
  - rewrite collectPoints_snoc. unfold addDatapoint.
    destruct (decide (seriesKeyOfDp d = key)) as [Hkey|Hne].
    + rewrite Hkey, lookup_insert_eq. intros [= <-]. cbn [labels tags fields].
      assert (Hd : d ∈ (dps ++ [d])%list) by (apply elem_of_app; right; left).
      destruct (points_of dps !! key) as [p0|] eqn:Hp0.
      * destruct (IH _ eq_refl) as (Hl & (dp & Hin & Hk & Ht) & _ & Hf).
        split; [exact Hl|]. split.
        { exists dp. split; [apply elem_of_app; now left|auto]. }
        split; [exists (fieldKeyOf d); rewrite lookup_insert_eq; eauto|].
        intros k v Hkv. destruct (decide (fieldKeyOf d = k)) as [Hk'|Hk'].
        -- rewrite Hk', lookup_insert_eq in Hkv. injection Hkv as <-. eauto.
        -- rewrite lookup_insert_ne in Hkv by assumption.
           destruct (Hf _ _ Hkv) as (dp' & Hin' & ?). exists dp'.
           split; [apply elem_of_app; now left|auto].
      * cbn [labels tags fields]. split; [reflexivity|]. split; [eauto|].
        split; [exists (fieldKeyOf d); rewrite lookup_insert_eq; eauto|].
        intros k v Hkv. destruct (decide (fieldKeyOf d = k)) as [Hk'|Hk'].
        -- rewrite Hk', lookup_insert_eq in Hkv. injection Hkv as <-. eauto.
        -- rewrite lookup_insert_ne, lookup_empty in Hkv by assumption. discriminate Hkv.
    + rewrite lookup_insert_ne by assumption. intros Hp.
      destruct (IH _ Hp) as (Hl & (dp & Hin & Hk & Ht) & Hsome & Hf).
      split; [exact Hl|]. split.
      { exists dp. split; [apply elem_of_app; now left|auto]. }
      split; [exact Hsome|]. intros k v Hkv.
      destruct (Hf _ _ Hkv) as (dp' & Hin' & ?). exists dp'.
      split; [apply elem_of_app; now left|auto].
Qed.

(** The loop over the dimensions, on the tags, the labels and the fields
    of a point. *)
Lemma foldl_applyDimension_tags (l : list (string * dimension)) :
  NoDup l.*1 -> forall (p : point) (k : string),
  tags (foldl applyDimension p l) !! k
  = match (list_to_map l : gmap string dimension) !! k with
    | Some (DimString v) => Some v
    | _ => tags p !! k
    end.
Proof.
  induction l as [|[k1 d1] l IH]; intros Hnd p k; cbn [foldl list_to_map foldr].
  - now rewrite lookup_empty.
  - cbn in Hnd. apply NoDup_cons in Hnd as [Hk1 Hnd]. rewrite (IH Hnd). cbn [fst snd].
    destruct (decide (k1 = k)) as [->|Hne].
    + rewrite lookup_insert_eq, (not_elem_of_list_to_map_1 _ _ Hk1).
      unfold applyDimension. cbn [fst snd].
      destruct d1 as [v|v|]; cbn [tags];
        [apply lookup_insert_eq|now destruct (String.eqb k "labels")|reflexivity].
    + rewrite lookup_insert_ne by assumption.
      assert (Ht : tags (applyDimension p (k1, d1)) !! k = tags p !! k).
      { unfold applyDimension. cbn [fst snd].
        destruct d1 as [v|v|]; cbn [tags];
          [now rewrite lookup_insert_ne|now destruct (String.eqb k1 "labels")|reflexivity]. }
      now rewrite Ht.
Qed.

Lemma foldl_applyDimension_labels (l : list (string * dimension)) :
  NoDup l.*1 -> forall (p : point),
  labels (foldl applyDimension p l)
  = match (list_to_map l : gmap string dimension) !! "labels" with
    | Some (DimStringMap v) =>
        foldl (fun acc kv => <[kv.1 := kv.2]> acc) (labels p) (map_to_list v)
    | _ => labels p
    end.
Proof.
  induction l as [|[k1 d1] l IH]; intros Hnd p; cbn [foldl list_to_map foldr].
  - now rewrite lookup_empty.
  - cbn in Hnd. apply NoDup_cons in Hnd as [Hk1 Hnd]. rewrite (IH Hnd). cbn [fst snd].
    destruct (String.eqb_spec k1 "labels") as [->|Hne].
    + rewrite lookup_insert_eq, (not_elem_of_list_to_map_1 _ _ Hk1).
      unfold applyDimension. cbn [fst snd].
      destruct d1 as [v|v|]; reflexivity.
    + rewrite lookup_insert_ne by assumption.
      assert (Hl : labels (applyDimension p (k1, d1)) = labels p).
      { unfold applyDimension. cbn [fst snd]. destruct d1 as [v|v|]; [reflexivity| |reflexivity].
        destruct (String.eqb_spec k1 "labels"); [contradiction|reflexivity]. }
      now rewrite Hl.
Qed.

Lemma foldl_applyDimension_fields (l : list (string * dimension)) : forall (p : point),
  fields (foldl applyDimension p l) = fields p.
Proof.
  induction l as [|[k1 d1] l IH]; intros p; cbn [foldl]; [reflexivity|].
  rewrite IH. unfold applyDimension. cbn [fst snd].
  destruct d1; [reflexivity| |reflexivity]. now destruct (String.eqb k1 "labels").
Qed.

Lemma foldl_insert_all (v : gmap string string) :
  foldl (fun acc kv => <[kv.1 := kv.2]> acc) (∅ : gmap string string) (map_to_list v) = v.
Proof.
  apply map_eq. intros k.
  rewrite foldl_insert_lookup by apply NoDup_fst_map_to_list.
  rewrite list_to_map_to_list, lookup_empty. now destruct (v !! k).
Qed.

(** A point of [createPoints], from the point collected for its series. *)
Lemma createPoints_elem (m : metrics) (p : point) :
  p ∈ createPoints int64_of_float64 m ->
  exists key p0,
    points_of (Datapoints m) !! key = Some p0
    /\ p = foldl applyDimension p0 (map_to_list (Dimensions m)).
Proof.
  unfold createPoints. cbv zeta. rewrite list_elem_of_fmap.
  intros ([key p0] & -> & Hin). apply elem_of_map_to_list in Hin. eauto.
Qed.

(** The labels and the fields of a point of [createPoints]. *)
Lemma createPoints_labels (m : metrics) (p : point) :
  p ∈ createPoints int64_of_float64 m ->
  labels p = match Dimensions m !! "labels" with
             | Some (DimStringMap v) => v
             | _ => ∅
             end.
Proof.
  intros Hp. apply createPoints_elem in Hp as (key & p0 & Hp0 & ->).
  destruct (collectPoints_inv _ _ _ Hp0) as (Hl & _).
  rewrite foldl_applyDimension_labels by apply NoDup_fst_map_to_list.
  rewrite list_to_map_to_list, Hl.
  destruct (Dimensions m !! "labels") as [[v|v|]|]; try reflexivity.
  apply foldl_insert_all.
Qed.

Lemma createPoints_has_field (m : metrics) (p : point) :
  p ∈ createPoints int64_of_float64 m -> exists k, is_Some (fields p !! k).
Proof.
  intros Hp. apply createPoints_elem in Hp as (key & p0 & Hp0 & ->).
  rewrite foldl_applyDimension_fields.
  now destruct (collectPoints_inv _ _ _ Hp0) as (_ & _ & Hsome & _).
Qed.

(** X14: [createPoints] returns one point for each distinct series key of the
    datapoints: never more points than datapoints, and none for no
    datapoint, whatever the dimensions. *)
Theorem createPoints_count (m : metrics) :
  length (createPoints int64_of_float64 m)
  = size (list_to_set ((fun dp => seriesKeyOfDp dp) <$> Datapoints m) : gset string)
  /\ (length (createPoints int64_of_float64 m) <= length (Datapoints m))%nat
  /\ (Datapoints m = [] -> createPoints int64_of_float64 m = []).
Proof.
  assert (Hlen : length (createPoints int64_of_float64 m)
                 = size (list_to_set ((fun dp => seriesKeyOfDp dp) <$> Datapoints m) : gset string)).
  { unfold createPoints. cbv zeta.
    rewrite length_fmap, length_map_to_list, <- collectPoints_dom. symmetry. apply size_dom. }
  split; [exact Hlen|]. split.
  - rewrite Hlen. etransitivity; [apply size_list_to_set_le|]. now rewrite length_fmap.
  - intros Hnil. rewrite Hnil in Hlen. cbn in Hlen. rewrite size_empty in Hlen.
    now destruct (createPoints int64_of_float64 m).
Qed.

(** X15: every point carries each string dimension as a tag, in place of the
    datapoint's tag of that key if there was one; the other tags are those
    of a datapoint of the series.  Its labels are the "labels" dimension
    when that is a string map, and empty otherwise: string maps under any
    other key and values of other types are ignored. *)
Theorem createPoints_dimensions (m : metrics) (p : point) :
  p ∈ createPoints int64_of_float64 m ->
  (forall k v, Dimensions m !! k = Some (DimString v) -> tags p !! k = Some v)
  /\ labels p = match Dimensions m !! "labels" with
                | Some (DimStringMap v) => v
                | _ => ∅
                end
  /\ exists dp, dp ∈ Datapoints m
       /\ forall k, (forall v, Dimensions m !! k <> Some (DimString v)) ->
                    tags p !! k = default ∅ (Tags dp) !! k.
Proof.
  intros Hp. apply createPoints_elem in Hp as (key & p0 & Hp0 & ->).
  destruct (collectPoints_inv _ _ _ Hp0) as (Hl & (dp & Hin & _ & Ht) & _ & _).
  split; [|split].
  - intros k v Hk.
    rewrite foldl_applyDimension_tags by apply NoDup_fst_map_to_list.
    now rewrite list_to_map_to_list, Hk.
  - apply createPoints_labels. unfold createPoints. cbv zeta. apply list_elem_of_fmap.
    exists (key, p0). split; [reflexivity|]. now apply elem_of_map_to_list.
  - exists dp. split; [exact Hin|]. intros k Hk.
    rewrite foldl_applyDimension_tags by apply NoDup_fst_map_to_list.
    rewrite list_to_map_to_list, Ht.
    destruct (Dimensions m !! k) as [[v|v|]|] eqn:Hd; try reflexivity.
    now destruct (Hk v).
Qed.

(** X16: no point is empty and no field is made up: every point has a field,
    each of its fields is the field key and the value of one of the
    datapoints, and every datapoint has its field key in some point. *)
Theorem createPoints_fields (m : metrics) :
  (forall p, p ∈ createPoints int64_of_float64 m ->
     (exists k, is_Some (fields p !! k))
     /\ forall k v, fields p !! k = Some v ->
          exists dp, dp ∈ Datapoints m /\ fieldKeyOf dp = k
                     /\ fieldValueOf int64_of_float64 dp = v)
  /\ (forall dp, dp ∈ Datapoints m ->
        exists p, p ∈ createPoints int64_of_float64 m /\ is_Some (fields p !! fieldKeyOf dp)).
Proof.
  split.
  - intros p Hp. apply createPoints_elem in Hp as (key & p0 & Hp0 & ->).
    rewrite foldl_applyDimension_fields.
    destruct (collectPoints_inv _ _ _ Hp0) as (_ & _ & Hsome & Hf).
    split; [exact Hsome|]. intros k v Hkv.
    destruct (Hf _ _ Hkv) as (dp & Hin & _ & Hk & Hv). eauto.
  - intros dp Hin.
    destruct (collectPoints_holds int64_of_float64 _ _ Hin) as (p0 & Hp0 & Hf).
    exists (foldl applyDimension p0 (map_to_list (Dimensions m))). split.
    + unfold createPoints. cbv zeta. apply list_elem_of_fmap.
      exists (seriesKeyOfDp dp, p0). split; [reflexivity|].
      now apply elem_of_map_to_list.
    + now rewrite foldl_applyDimension_fields.
Qed.

(** X17: [addMetrics] makes one [AddFields] call for each point, all with the
    given measurement and the one time read at the start, none with an
    empty field map.  A call's tag keys are "cluster", tag dimensions and
    label keys only, so a datapoint tag outside the tag dimensions is
    dropped; "cluster" is always set, to the cluster name unless a label or
    a tag dimension has that key. *)
Theorem addMetrics_calls (tm : Z) (cluster mname : string) (m : metrics)
    (tagDimensions : list string) :
  length (addMetrics int64_of_float64 tm cluster mname m tagDimensions)
  = length (createPoints int64_of_float64 m)
  /\ forall c, c ∈ addMetrics int64_of_float64 tm cluster mname m tagDimensions ->
       call_measurement c = mname
       /\ call_time c = tm
       /\ (exists k, is_Some (call_fields c !! k))
       /\ is_Some (call_tags c !! "cluster")
       /\ (forall k, is_Some (call_tags c !! k) ->
             k = "cluster" \/ k ∈ tagDimensions
             \/ exists v, Dimensions m !! "labels" = Some (DimStringMap v)
                          /\ is_Some (v !! k))
       /\ ("cluster" ∉ tagDimensions ->
           (forall v, Dimensions m !! "labels" = Some (DimStringMap v) -> v !! "cluster" = None) ->
           call_tags c !! "cluster" = Some cluster).
Proof.
  unfold addMetrics. split; [apply length_fmap|].
  intros c Hc. apply list_elem_of_fmap in Hc as (p & -> & Hp).
  cbn [call_measurement call_time call_fields call_tags].
  pose proof (createPoints_labels _ _ Hp) as Hl.
  pose proof (createPoints_has_field _ _ Hp) as Hsome.
  split; [reflexivity|]. split; [reflexivity|]. split; [exact Hsome|].
  split; [|split].
  - rewrite metricTags_lookup. destruct (labels p !! "cluster"); [eauto|].
    destruct (if bool_decide ("cluster" ∈ tagDimensions) then tags p !! "cluster" else None);
      [eauto|].
    rewrite bool_decide_eq_true_2 by reflexivity. eauto.
  - intros k. rewrite metricTags_lookup.
    destruct (labels p !! k) as [lv|] eqn:Hlk.
    { intros _. right; right. rewrite Hl in Hlk.
      destruct (Dimensions m !! "labels") as [[v|v|]|];
        try (rewrite lookup_empty in Hlk; discriminate Hlk).
      exists v. eauto. }
    destruct (decide (k ∈ tagDimensions)) as [Hin|Hin]; [now (intros _; right; left)|].
    rewrite (bool_decide_eq_false_2 _ Hin).
    destruct (decide (k = "cluster")) as [->|Hne]; [now left|].
    rewrite (bool_decide_eq_false_2 _ Hne). intros [? [=]].
  - intros Hnd Hnl. rewrite metricTags_lookup.
    assert (Hlc : labels p !! "cluster" = None).
    { rewrite Hl. destruct (Dimensions m !! "labels") as [[v|v|]|] eqn:Hd;
        try apply lookup_empty. now apply Hnl. }
    rewrite Hlc, (bool_decide_eq_false_2 _ Hnd).
    now rewrite bool_decide_eq_true_2 by reflexivity.
Qed.

(** A list that lists a map in some order has the keys of the map,
    each once, and gives the map back. *)
Lemma range_order {A : Type} (m : gmap string A) (l : list (string * A)) :
  l ≡ₚ map_to_list m -> NoDup l.*1 /\ (list_to_map l : gmap string A) = m.
Proof.
  intros Hperm.
  assert (Hnd : NoDup l.*1) by (rewrite Hperm; apply NoDup_fst_map_to_list).
  split; [exact Hnd|].
  rewrite (list_to_map_proper l (map_to_list m) Hnd Hperm). apply list_to_map_to_list.
Qed.

(** The loop over the dimensions gives the same point for every order of
    the range. *)
Lemma applyDimension_order (p : point) (dimensions : gmap string dimension)
    (dims : list (string * dimension)) :
  dims ≡ₚ map_to_list dimensions ->
  foldl applyDimension p dims = foldl applyDimension p (map_to_list dimensions).
Proof.
  intros Hperm. destruct (range_order _ _ Hperm) as [Hnd Hmap].
  assert (Hnd0 : NoDup (map_to_list dimensions).*1) by apply NoDup_fst_map_to_list.
  assert (Ht : tags (foldl applyDimension p dims)
               = tags (foldl applyDimension p (map_to_list dimensions))).
  { apply map_eq. intros k.
    rewrite !foldl_applyDimension_tags by assumption.
    now rewrite Hmap, list_to_map_to_list. }
  assert (Hl : labels (foldl applyDimension p dims)
               = labels (foldl applyDimension p (map_to_list dimensions))).
  { rewrite !foldl_applyDimension_labels by assumption.
    now rewrite Hmap, list_to_map_to_list. }
  assert (Hf : fields (foldl applyDimension p dims)
               = fields (foldl applyDimension p (map_to_list dimensions)))
    by now rewrite !foldl_applyDimension_fields.
  destruct (foldl applyDimension p dims), (foldl applyDimension p (map_to_list dimensions)).
  cbn in Ht, Hl, Hf. now subst.
Qed.

(** X24: the order in which Go ranges over a map shows in the order of the
    points [createPoints] returns, and of the calls of [AddFields], and in
    nothing else.  The series key of a tag map (range of line 204), the
    point after the loop over the dimensions (line 230), the labels after
    the loop over a "labels" dimension (line 236) and the tags after the
    loop over the labels (line 261) are the same for every order of the
    range.  The range over the points (line 229) decides the order of the
    result: for every order in which it visits the points, and every order
    of the range over the dimensions at each point, the slice returned is a
    permutation of [createPoints m], and the calls [addMetrics] makes are a
    permutation of [addMetrics tm cluster mname m tagDimensions]. *)
Theorem createPoints_range_order (m : metrics) (tm : Z) (cluster mname : string)
    (tagDimensions : list string) :
  (forall (tagmap : gmap string string) tagList, tagList ≡ₚ map_to_list tagmap ->
     seriesKeyFrom tagList = seriesKeyOf tagmap)
  /\ (forall (p : point) (dimensions : gmap string dimension) dims,
        dims ≡ₚ map_to_list dimensions ->
        foldl applyDimension p dims = foldl applyDimension p (map_to_list dimensions))
  /\ (forall (v acc : gmap string string) labelList, labelList ≡ₚ map_to_list v ->
        foldl (fun l kv => <[kv.1 := kv.2]> l) acc labelList
        = foldl (fun l kv => <[kv.1 := kv.2]> l) acc (map_to_list v))
  /\ (forall (p : point) labelList, labelList ≡ₚ map_to_list (labels p) ->
        foldl (fun acc kv => <[kv.1 := kv.2]> acc)
              (foldl (fun acc tagkey =>
                        match tags p !! tagkey with
                        | Some v => <[tagkey := v]> acc
                        | None => acc
                        end) (<["cluster" := cluster]> ∅) tagDimensions)
              labelList
        = metricTags cluster tagDimensions p)
  /\ (forall (visited : list (string * point))
             (dimsAt : string * point -> list (string * dimension)),
        visited ≡ₚ map_to_list (collectPoints int64_of_float64 (Datapoints m)) ->
        (forall kp, dimsAt kp ≡ₚ map_to_list (Dimensions m)) ->
        let results := (fun kp => foldl applyDimension kp.2 (dimsAt kp)) <$> visited in
        results ≡ₚ createPoints int64_of_float64 m
        /\ ((fun p => {| call_measurement := mname; call_fields := fields p;
                         call_tags := metricTags cluster tagDimensions p;
                         call_time := tm |}) <$> results)
           ≡ₚ addMetrics int64_of_float64 tm cluster mname m tagDimensions).
Proof.
  split; [|split; [|split; [|split]]].
  - intros tagmap tagList Hperm. unfold seriesKeyOf, seriesKeyFrom. f_equal.
    apply Strings_perm. now rewrite Hperm.
  - intros p dimensions dims. apply applyDimension_order.
  - intros v acc labelList Hperm. destruct (range_order _ _ Hperm) as [Hnd Hmap].
    apply map_eq. intros k.
    rewrite !foldl_insert_lookup by (try assumption; apply NoDup_fst_map_to_list).
    now rewrite Hmap, list_to_map_to_list.
  - intros p labelList Hperm. destruct (range_order _ _ Hperm) as [Hnd Hmap].
    unfold metricTags. apply map_eq. intros k.
    rewrite !foldl_insert_lookup by (try assumption; apply NoDup_fst_map_to_list).
    now rewrite Hmap, list_to_map_to_list.
  - intros visited dimsAt Hvisited Hdims results.
    assert (Hres : results ≡ₚ createPoints int64_of_float64 m).
    { unfold results, createPoints.
      rewrite (list_fmap_ext (fun kp => foldl applyDimension kp.2 (dimsAt kp))
                 (fun kp => foldl applyDimension kp.2 (map_to_list (Dimensions m))) visited)
        by (intros i kp _; apply applyDimension_order, Hdims).
      now apply fmap_Permutation. }
    split; [exact Hres|]. unfold addMetrics. now apply fmap_Permutation.
Qed.

Lemma substring_bytes (s : string) : forall (n len : nat) (c : ascii),
  In c (list_ascii_of_string (substring n len s)) -> In c (list_ascii_of_string s).
Proof.
  induction s as [|x s IH]; intros n len c; [now destruct n, len|].
  destruct n as [|n]; [destruct len as [|len]|]; cbn [substring list_ascii_of_string].
  - intros [].
  - intros [->|H]; [now left|right; eapply IH; exact H].
  - intros H. right. eapply IH; exact H.
Qed.

Lemma append_bytes (a b : string) (c : ascii) :
  In c (list_ascii_of_string (a ++ b)) ->
  In c (list_ascii_of_string a) \/ In c (list_ascii_of_string b).
Proof.
  induction a as [|x a IH]; [now right|].
  change (In c (x :: list_ascii_of_string (a ++ b)) ->
          In c (x :: list_ascii_of_string a) \/ In c (list_ascii_of_string b)).
  intros [->|H]; [left; now left|]. destruct (IH H); [left; now right|now right].
Qed.

Lemma ReplaceAll_bytes (s : string) (old new : ascii) :
  old <> new -> ~ In old (list_ascii_of_string (ReplaceAll s old new)).
Proof.
  intros Hne. induction s as [|x s IH]; cbn [ReplaceAll list_ascii_of_string]; [intros []|].
  intros [H|H]; [|now apply IH].
  destruct (Ascii.eqb_spec x old); congruence.
Qed.

Lemma fieldKeyOf_dot_free (dp : dataPoint) :
  In "."%char (list_ascii_of_string (fieldKeyOf dp)) -> False.
Proof.
  unfold fieldKeyOf. cbv zeta.
  set (k0 := ReplaceAll (Name dp) "." "_").
  assert (H0 : ~ In "."%char (list_ascii_of_string k0))
    by (apply ReplaceAll_bytes; discriminate).
  match goal with |- context [TrimPrefix ?k _] => set (k1 := k) end.
  assert (H1 : ~ In "."%char (list_ascii_of_string k1)).
  { subst k1. destruct (_ && _); [|exact H0].
    intros H. apply append_bytes in H as [H|H]; [now apply H0|].
    cbn in H. intuition discriminate. }
  unfold TrimPrefix. destruct (HasPrefix k1 _); [|exact H1].
  intros H. now apply substring_bytes in H.
Qed.

(** X18: a field key never holds a dot, whatever the name of the datapoint:
    the dots of the name become underscores and neither the suffix added
    nor the removal of the prefix brings one back. *)
Theorem fieldKeyOf_no_dot (dp : dataPoint) :
  Forall (fun c => c <> "."%char) (list_ascii_of_string (fieldKeyOf dp)).
Proof.
  apply Forall_forall. intros c Hc ->. apply list_elem_of_In in Hc.
  exact (fieldKeyOf_dot_free dp Hc).
Qed.

End DCOSMore.

(** ** dcos: initialisation *)

Section DCOSInitFacts.
Import DCOSInit.
Local Open Scope string_scope.

Context {Client Filter PrivateKey ClientConfig TLSConf ParsedURL : Type}.
Variable NewIncludeExcludeFilter : list string -> list string -> option Filter * option error.
Variable TLSConfig : ClientConfig -> TLSConf + error.
Variable url_Parse : string -> ParsedURL + error.
Variable newClusterClient : ParsedURL -> Z -> Z -> TLSConf -> Client.
Variable ReadFile : string -> string + error.
Variable ParseRSAPrivateKeyFromPEM : string -> PrivateKey + error.

Abbreviation dcos := (DCOS Client Filter PrivateKey ClientConfig).
Abbreviation initialize :=
  (DCOSInit.initialize Client Filter PrivateKey ClientConfig TLSConf ParsedURL
     NewIncludeExcludeFilter TLSConfig url_Parse newClusterClient ReadFile
     ParseRSAPrivateKeyFromPEM).
Abbreviation createFilters :=
  (DCOSInit.createFilters Client Filter PrivateKey ClientConfig NewIncludeExcludeFilter).
Abbreviation createClient :=
  (DCOSInit.createClient Client Filter PrivateKey ClientConfig TLSConf ParsedURL
     TLSConfig url_Parse newClusterClient).
Abbreviation createCredentials :=
  (DCOSInit.createCredentials Client Filter PrivateKey ClientConfig ReadFile ParseRSAPrivateKeyFromPEM).
Abbreviation clientOf := (client Client Filter PrivateKey ClientConfig).
Abbreviation credsOf := (creds Client Filter PrivateKey ClientConfig).
Abbreviation initializedOf := (initialized Client Filter PrivateKey ClientConfig).
Abbreviation accountID := (ServiceAccountID Client Filter PrivateKey ClientConfig).
Abbreviation accountKey := (ServiceAccountPrivateKey Client Filter PrivateKey ClientConfig).
Abbreviation tokenFile := (TokenFile Client Filter PrivateKey ClientConfig).

(** [createFilters] assigns the three createFilters and nothing else; its error
    is the error of one of the three constructions. *)
Lemma createFilters_frame (d d' : dcos) (r : option error) :
  createFilters d = (d', r) ->
  clientOf d' = clientOf d /\ credsOf d' = credsOf d
  /\ initializedOf d' = initializedOf d
  /\ createClient d' = createClient d
  /\ createCredentials d' = createCredentials d
  /\ (forall err, r = Some err ->
        (NewIncludeExcludeFilter (NodeInclude _ _ _ _ d) (NodeExclude _ _ _ _ d)).2 = Some err
        \/ (NewIncludeExcludeFilter (ContainerInclude _ _ _ _ d) (ContainerExclude _ _ _ _ d)).2
           = Some err
        \/ (NewIncludeExcludeFilter (AppInclude _ _ _ _ d) (AppExclude _ _ _ _ d)).2 = Some err).
Proof.
  unfold DCOSInit.createFilters.
  destruct (NewIncludeExcludeFilter (NodeInclude _ _ _ _ d) _) as [f1 [e1|]] eqn:H1;
    cbn [set_nodeFilter ContainerInclude ContainerExclude AppInclude AppExclude].
  { intros [= <- <-]. repeat split. intros err [= <-]. now left. }
  destruct (NewIncludeExcludeFilter (ContainerInclude _ _ _ _ d) _) as [f2 [e2|]] eqn:H2;
    cbn [set_nodeFilter set_containerFilter AppInclude AppExclude].
  { intros [= <- <-]. repeat split. intros err [= <-]. right. now left. }
  destruct (NewIncludeExcludeFilter (AppInclude _ _ _ _ d) _) as [f3 [e3|]] eqn:H3.
  { intros [= <- <-]. repeat split. intros err [= <-]. right. now right. }
  intros [= <- <-]. repeat split. discriminate.
Qed.

(** X19: after [initialize] has returned nil the plugin is initialised and a
    further call changes nothing and cannot fail: no filter is rebuilt, no
    file is read.  The first successful call leaves a client and
    credentials in place, and keeps those that were set beforehand. *)
Theorem initialize_once (d d' : dcos) :
  initialize d = (d', None) ->
  initialize d' = (d', None)
  /\ initializedOf d' = true
  /\ (initializedOf d = false -> is_Some (clientOf d') /\ is_Some (credsOf d'))
  /\ (forall c, clientOf d = Some c -> clientOf d' = Some c)
  /\ (forall c, credsOf d = Some c -> credsOf d' = Some c).
Proof.
  unfold DCOSInit.initialize at 1.
  destruct (initializedOf d) eqn:Hi; cbn [negb].
  { intros [= <-]. unfold DCOSInit.initialize. rewrite Hi. cbn [negb].
    repeat split; [discriminate..|auto|auto]. }
  destruct (createFilters d) as [d1 [e|]] eqn:Hf; [discriminate|].
  destruct (createFilters_frame _ _ _ Hf) as (Hc & Hcr & _ & _ & _ & _).
  intros H.
  assert (Hd' : initializedOf d' = true
                /\ is_Some (clientOf d') /\ is_Some (credsOf d')
                /\ (forall c, clientOf d1 = Some c -> clientOf d' = Some c)
                /\ (forall c, credsOf d1 = Some c -> credsOf d' = Some c)).
  { destruct (clientOf d1) as [c|] eqn:Hc1.
    - destruct (credsOf d1) as [cr|] eqn:Hcr1.
      + injection H as <-. cbn. rewrite Hc1, Hcr1. repeat split; eauto.
      + destruct (createCredentials d1) as [cr|e]; [|discriminate H].
        injection H as <-. cbn. rewrite Hc1. repeat split; eauto. discriminate.
    - destruct (createClient d1) as [c|e]; [|discriminate H].
      cbn [creds set_client] in H.
      destruct (credsOf d1) as [cr|] eqn:Hcr1.
      + injection H as <-. cbn. rewrite Hcr1. repeat split; eauto. discriminate.
      + destruct (createCredentials _) as [cr|e]; [|discriminate H].
        injection H as <-. cbn. repeat split; eauto; discriminate. }
  destruct Hd' as (Hinit & Hsc & Hscr & Hkc & Hkcr).
  split; [unfold DCOSInit.initialize; now rewrite Hinit|]. split; [exact Hinit|].
  split; [auto|]. rewrite <- Hc, <- Hcr. auto.
Qed.

(** X20: when [initialize] returns an error the plugin stays uninitialised, so
    the next call starts over; a client or credentials set beforehand are
    kept.  The error is that of a filter, of the TLS configuration or the
    cluster URL when no client was set, or of reading or parsing the
    private key when no credentials were set and both the account ID and
    the key path are configured. *)
Theorem initialize_error (d d' : dcos) (err : error) :
  initialize d = (d', Some err) ->
  initializedOf d = false
  /\ initializedOf d' = false
  /\ (forall c, clientOf d = Some c -> clientOf d' = Some c)
  /\ credsOf d' = credsOf d
  /\ ((NewIncludeExcludeFilter (NodeInclude _ _ _ _ d) (NodeExclude _ _ _ _ d)).2 = Some err
      \/ (NewIncludeExcludeFilter (ContainerInclude _ _ _ _ d) (ContainerExclude _ _ _ _ d)).2
         = Some err
      \/ (NewIncludeExcludeFilter (AppInclude _ _ _ _ d) (AppExclude _ _ _ _ d)).2 = Some err
      \/ (clientOf d = None
          /\ (TLSConfig (tlsClientConfig _ _ _ _ d) = inr err
              \/ url_Parse (ClusterURL _ _ _ _ d) = inr err))
      \/ (credsOf d = None
          /\ accountID d <> EmptyString /\ accountKey d <> EmptyString
          /\ (ReadFile (accountKey d) = inr err
              \/ exists bs, ReadFile (accountKey d) = inl bs
                            /\ ParseRSAPrivateKeyFromPEM bs = inr err))).
Proof.
  unfold DCOSInit.initialize.
  destruct (initializedOf d) eqn:Hi; cbn [negb]; [discriminate|].
  destruct (createFilters d) as [d1 [e|]] eqn:Hf.
  { destruct (createFilters_frame _ _ _ Hf) as (Hc & Hcr & Hin & _ & _ & He).
    intros [= <- <-]. rewrite Hc, Hcr, Hin.
    split; [reflexivity|]. split; [exact Hi|]. split; [auto|]. split; [reflexivity|].
    destruct (He _ eq_refl) as [H|[H|H]]; auto. }
  destruct (createFilters_frame _ _ _ Hf) as (Hc & Hcr & Hin & Hnc & Hncr & _).
  assert (Hcreds : forall e, createCredentials d = inr e ->
            accountID d <> EmptyString /\ accountKey d <> EmptyString
            /\ (ReadFile (accountKey d) = inr e
                \/ exists bs, ReadFile (accountKey d) = inl bs
                              /\ ParseRSAPrivateKeyFromPEM bs = inr e)).
  { intros e. unfold DCOSInit.createCredentials.
    destruct (String.eqb_spec (accountID d) EmptyString) as [|Hid]; cbn [negb andb].
    { now destruct (_ =? _). }
    destruct (String.eqb_spec (accountKey d) EmptyString) as [|Hkey]; cbn [negb].
    { now destruct (_ =? _). }
    destruct (ReadFile _) as [bs|e1]; [|intros [= <-]; auto].
    destruct (ParseRSAPrivateKeyFromPEM bs) as [k|e2] eqn:Hk; [discriminate|].
    intros [= <-]. eauto 8. }
  assert (Hclient : forall e, createClient d = inr e ->
            TLSConfig (tlsClientConfig _ _ _ _ d) = inr e
            \/ url_Parse (ClusterURL _ _ _ _ d) = inr e).
  { intros e. unfold DCOSInit.createClient. destruct (TLSConfig _); [|intros [= <-]; now left].
    destruct (url_Parse _); [discriminate|intros [= <-]; now right]. }
  intros H. split; [reflexivity|].
  destruct (clientOf d1) as [c|] eqn:Hc1.
  - destruct (credsOf d1) as [cr|] eqn:Hcr1; [discriminate H|].
    destruct (createCredentials d1) as [cr|e] eqn:He; [discriminate H|].
    injection H as <- <-. rewrite Hncr in He. rewrite Hin, Hcr1, Hc1, <- Hc, <- Hcr.
    split; [exact Hi|]. split; [auto|]. split; [reflexivity|].
    do 4 right. split; [reflexivity|]. now apply Hcreds.
  - destruct (createClient d1) as [c|e] eqn:Hn.
    + cbn [creds set_client] in H.
      destruct (credsOf d1) as [cr|] eqn:Hcr1; [discriminate H|].
      assert (Hsame : createCredentials (set_client _ _ _ _ c d1) = createCredentials d1)
        by reflexivity.
      rewrite Hsame in H. destruct (createCredentials d1) as [cr|e] eqn:He; [discriminate H|].
      injection H as <- <-. rewrite Hncr in He. cbn [initialized client creds set_client].
      rewrite Hin, Hcr1, <- Hc, <- Hcr.
      split; [exact Hi|]. split; [congruence|]. split; [reflexivity|].
      do 4 right. split; [reflexivity|]. now apply Hcreds.
    + injection H as <- <-. rewrite Hnc in Hn. rewrite Hin, Hc1, <- Hc, Hcr.
      split; [exact Hi|]. split; [auto|]. split; [reflexivity|].
      do 3 right. left. split; [reflexivity|]. now apply Hclient.
Qed.

(** X21: the choice of credentials: a service account only when both the
    account ID and the path of the private key are set, and then the token
    file is not looked at; otherwise the token file if one is set, else
    null credentials.  Only the service account reads a file and can
    fail. *)
Theorem createCredentials_choice (d : dcos) :
  (accountID d = EmptyString \/ accountKey d = EmptyString ->
   createCredentials d
   = inl (if String.eqb (tokenFile d) EmptyString
          then nullCreds PrivateKey else tokenCreds PrivateKey (tokenFile d)))
  /\ (accountID d <> EmptyString -> accountKey d <> EmptyString ->
      createCredentials d
      = match ReadFile (accountKey d) with
        | inr err => inr err
        | inl bs =>
            match ParseRSAPrivateKeyFromPEM bs with
            | inr err => inr err
            | inl privateKey => inl (serviceAccount PrivateKey (accountID d) privateKey)
            end
        end).
Proof.
  unfold DCOSInit.createCredentials. split.
  - intros [H|H]; rewrite H; cbn [String.eqb negb andb];
      [|rewrite andb_false_r]; now destruct (String.eqb (tokenFile d) EmptyString).
  - intros Hid Hkey.
    destruct (String.eqb_spec (accountID d) EmptyString); [contradiction|].
    destruct (String.eqb_spec (accountKey d) EmptyString); [contradiction|].
    reflexivity.
Qed.

End DCOSInitFacts.

(** ** dcos: what [Gather] returns and what it adds *)

Section DCOSGatherFacts.
Import DCOS DCOSInit DCOSGather.
Local Open Scope Z_scope.
Local Open Scope string_scope.

Variable int64_of_float64 : float64 -> Z.
Context {Client Filter PrivateKey ClientConfig TLSConf ParsedURL : Type}.
Variable NewIncludeExcludeFilter : list string -> list string -> option Filter * option DCOSInit.error.
Variable TLSConfig : ClientConfig -> TLSConf + DCOSInit.error.
Variable url_Parse : string -> ParsedURL + DCOSInit.error.
Variable newClusterClient : ParsedURL -> Z -> Z -> TLSConf -> Client.
Variable ReadFile : string -> string + DCOSInit.error.
Variable ParseRSAPrivateKeyFromPEM : string -> PrivateKey + DCOSInit.error.
Variable Match : Filter -> string -> bool.
Variable token : credentials PrivateKey -> option Client -> result (string + goError).
Variable setToken : Client -> string -> Client.
Variable getSummary : Client -> summary + goError.
Variable getContainers : Client -> string -> list string + goError.
Variable getNodeMetrics : Client -> string -> metrics + goError.
Variable getContainerMetrics : Client -> string -> string -> metrics + goError.
Variable getAppMetrics : Client -> string -> string -> metrics + goError.
Variable now : routine -> Z.

Abbreviation dcos := (DCOS Client Filter PrivateKey ClientConfig).
Abbreviation initialize :=
  (DCOSInit.initialize Client Filter PrivateKey ClientConfig TLSConf ParsedURL
     NewIncludeExcludeFilter TLSConfig url_Parse newClusterClient ReadFile
     ParseRSAPrivateKeyFromPEM).
Abbreviation Gather :=
  (DCOSGather.Gather int64_of_float64 Client Filter PrivateKey ClientConfig TLSConf ParsedURL
     NewIncludeExcludeFilter TLSConfig url_Parse newClusterClient ReadFile
     ParseRSAPrivateKeyFromPEM Match token setToken getSummary getContainers
     getNodeMetrics getContainerMetrics getAppMetrics now).
Abbreviation gatherNodes :=
  (DCOSGather.gatherNodes int64_of_float64 Client Filter PrivateKey ClientConfig Match
     getContainers getNodeMetrics getContainerMetrics getAppMetrics now).
Abbreviation gatherNode :=
  (DCOSGather.gatherNode int64_of_float64 Client Filter PrivateKey ClientConfig Match
     getContainers getNodeMetrics getContainerMetrics getAppMetrics now).
Abbreviation gatherContainers :=
  (DCOSGather.gatherContainers int64_of_float64 Client Filter PrivateKey ClientConfig Match
     getContainers getContainerMetrics getAppMetrics now).
Abbreviation containerRoutines :=
  (DCOSGather.containerRoutines int64_of_float64 Client Filter PrivateKey ClientConfig Match
     getContainerMetrics getAppMetrics now).
Abbreviation clientOf := (client Client Filter PrivateKey ClientConfig).
Abbreviation credsOf := (creds Client Filter PrivateKey ClientConfig).

(** Where a call on the accumulator comes from, for the client [c] and
    the nodes [nodes]. *)
Abbreviation accounted c nodes call :=
  (match call with
   | AddError err =>
       exists node, node ∈ nodes
         /\ (getNodeMetrics c node = inr err
             \/ getContainers c node = inr err
             \/ (isNotFound err = false
                 /\ exists container,
                      getContainerMetrics c node container = inr err
                      \/ getAppMetrics c node container = inr err))
   | AddFields call =>
       (call_measurement call = "dcos_node" \/ call_measurement call = "dcos_container"
        \/ call_measurement call = "dcos_app")
       /\ is_Some (call_tags call !! "cluster")
   end).

Lemma addMetrics_call_shape (tm : Z) (cluster mname : string) (m : metrics)
    (tagDimensions : list string) (call : addFieldsCall) :
  call ∈ addMetrics int64_of_float64 tm cluster mname m tagDimensions ->
  call_measurement call = mname /\ is_Some (call_tags call !! "cluster").
Proof.
  unfold addMetrics. intros H. apply list_elem_of_fmap in H as (p & -> & _).
  split; [reflexivity|]. cbn [call_tags]. rewrite metricTags_lookup.
  destruct (labels p !! "cluster"); [eauto|].
  destruct (if bool_decide ("cluster" ∈ tagDimensions) then tags p !! "cluster" else None);
    [eauto|].
  rewrite bool_decide_eq_true_2 by reflexivity. eauto.
Qed.

Lemma containerRoutines_accounted (d : dcos) (c : Client) (cluster node : string)
    (nodes : list string) (containers : list string) :
  node ∈ nodes ->
  forall routines, containerRoutines d c cluster node containers = Returns routines ->
  forall calls call, calls ∈ routines -> call ∈ calls -> accounted c nodes call.
Proof.
  intros Hnode. induction containers as [|container rest IH]; intros routines H calls call Hcalls Hcall.
  - injection H as <-. inversion Hcalls.
  - cbn [DCOSGather.containerRoutines] in H.
    destruct (containerFilter _ _ _ _ d) as [cf|]; [|discriminate H].
    destruct (appFilter _ _ _ _ d) as [af|]; [|discriminate H].
    destruct (containerRoutines d c cluster node rest) as [more|]; [|discriminate H].
    injection H as <-.
    assert (Hcontainer : call ∈ containerRoutine int64_of_float64 Client getContainerMetrics now
                                  c cluster node container -> accounted c nodes call).
    { unfold containerRoutine.
      destruct (getContainerMetrics c node container) as [m|err] eqn:Hm.
      - intros Hin. apply list_elem_of_fmap in Hin as (f & -> & Hf).
        apply addMetrics_call_shape in Hf as [-> Hf]. split; [right; now left|exact Hf].
      - destruct (isNotFound err) eqn:Hnf; [intros Hin; inversion Hin|].
        intros Hin. apply list_elem_of_singleton in Hin as ->.
        exists node. split; [exact Hnode|]. right; right. split; [exact Hnf|]. eauto. }
    assert (Happ : call ∈ appRoutine int64_of_float64 Client getAppMetrics now
                            c cluster node container -> accounted c nodes call).
    { unfold appRoutine.
      destruct (getAppMetrics c node container) as [m|err] eqn:Hm.
      - intros Hin. apply list_elem_of_fmap in Hin as (f & -> & Hf).
        apply addMetrics_call_shape in Hf as [-> Hf]. split; [right; now right|exact Hf].
      - destruct (isNotFound err) eqn:Hnf; [intros Hin; inversion Hin|].
        intros Hin. apply list_elem_of_singleton in Hin as ->.
        exists node. split; [exact Hnode|]. right; right. split; [exact Hnf|]. eauto. }
    apply elem_of_app in Hcalls as [Hcalls|Hcalls]; [|now apply (IH more eq_refl calls)].
    destruct (Match cf container), (Match af container); cbn [app] in Hcalls;
      repeat (apply elem_of_cons in Hcalls as [Heq|Hcalls]; [subst calls; first [exact (Hcontainer Hcall) | exact (Happ Hcall)]|]);
      inversion Hcalls.
Qed.

Lemma gatherNode_accounted (d : dcos) (c : Client) (cluster node : string)
    (nodes : list string) :
  node ∈ nodes ->
  forall routines, gatherNode d c cluster node = Returns routines ->
  forall calls call, calls ∈ routines -> call ∈ calls -> accounted c nodes call.
Proof.
  intros Hnode routines H calls call Hcalls Hcall.
  unfold DCOSGather.gatherNode in H.
  destruct (nodeFilter _ _ _ _ d) as [nf|]; [|discriminate H].
  destruct (Match nf node); cbn [negb] in H.
  2:{ injection H as <-. apply list_elem_of_singleton in Hcalls as ->. inversion Hcall. }
  destruct (gatherContainers d c cluster node) as [[own started]|] eqn:Hg; [|discriminate H].
  injection H as <-. unfold DCOSGather.gatherContainers in Hg.
  destruct (getContainers c node) as [containers|err] eqn:Hc.
  - destruct (containerRoutines d c cluster node containers) as [more|] eqn:Hmore;
      [|discriminate Hg].
    injection Hg as <- <-.
    apply elem_of_cons in Hcalls as [->|Hcalls]; [inversion Hcall|].
    apply elem_of_cons in Hcalls as [->|Hcalls];
      [|now apply (containerRoutines_accounted d c cluster node nodes containers Hnode
                     more Hmore calls)].
    unfold nodeMetricsRoutine in Hcall.
    destruct (getNodeMetrics c node) as [m|err] eqn:Hm.
    + apply list_elem_of_fmap in Hcall as (f & -> & Hf).
      apply addMetrics_call_shape in Hf as [-> Hf]. split; [now left|exact Hf].
    + apply list_elem_of_singleton in Hcall as ->. exists node. auto.
  - injection Hg as <- <-.
    apply elem_of_cons in Hcalls as [->|Hcalls].
    { apply list_elem_of_singleton in Hcall as ->. exists node. auto. }
    apply list_elem_of_singleton in Hcalls as ->.
    unfold nodeMetricsRoutine in Hcall.
    destruct (getNodeMetrics c node) as [m|err'] eqn:Hm.
    + apply list_elem_of_fmap in Hcall as (f & -> & Hf).
      apply addMetrics_call_shape in Hf as [-> Hf]. split; [now left|exact Hf].
    + apply list_elem_of_singleton in Hcall as ->. exists node. auto.
Qed.

Lemma gatherNodes_accounted (d : dcos) (c : Client) (cluster : string)
    (nodes : list string) (some : list string) :
  (forall node, node ∈ some -> node ∈ nodes) ->
  forall routines, gatherNodes d c cluster some = Returns routines ->
  forall calls call, calls ∈ routines -> call ∈ calls -> accounted c nodes call.
Proof.
  induction some as [|node rest IH]; intros Hsub routines H calls call Hcalls Hcall.
  - injection H as <-. inversion Hcalls.
  - cbn [DCOSGather.gatherNodes] in H.
    destruct (gatherNode d c cluster node) as [first|] eqn:Hn; [|discriminate H].
    destruct (gatherNodes d c cluster rest) as [more|] eqn:Hr; [|discriminate H].
    injection H as <-. apply elem_of_app in Hcalls as [Hcalls|Hcalls].
    + apply (gatherNode_accounted d c cluster node nodes (Hsub node ltac:(left))
               first Hn calls call Hcalls Hcall).
    + apply (IH (fun n Hin => Hsub n ltac:(right; exact Hin)) more eq_refl calls call Hcalls Hcall).
Qed.

(** X22: [Gather] returns an error only when [initialize], the token of
    the credentials or the summary of the cluster fails, and then no call
    has been made on the accumulator: a node, a container or an app whose
    request fails never makes [Gather] fail. *)
Theorem Gather_error (d d' : dcos) (err : gatherError) (routines : list routineCalls) :
  Gather d = (d', Returns (Some err, routines)) ->
  routines = []
  /\ match err with
     | InitError e => initialize d = (d', Some e)
     | CallError e =>
         exists d1 credentials,
           initialize d = (d1, None)
           /\ credsOf d1 = Some credentials
           /\ ((token credentials (clientOf d1) = Returns (inr e) /\ d' = d1)
               \/ exists tok c,
                    token credentials (clientOf d1) = Returns (inl tok)
                    /\ clientOf d1 = Some c
                    /\ getSummary (setToken c tok) = inr e
                    /\ d' = set_client _ _ _ _ (setToken c tok) d1)
     end.
Proof.
  unfold DCOSGather.Gather. intros H.
  destruct (initialize d) as [d1 [e|]] eqn:Hi.
  { injection H as <- <- <-. split; reflexivity. }
  destruct (credsOf d1) as [credentials|] eqn:Hcr; [|discriminate H].
  destruct (token credentials (clientOf d1)) as [[tok|e]|] eqn:Ht; [| |discriminate H].
  - destruct (clientOf d1) as [c|] eqn:Hc; [|discriminate H]. cbv zeta in H.
    destruct (getSummary (setToken c tok)) as [s|e] eqn:Hs.
    + destruct (gatherNodes _ _ _ _); discriminate H.
    + injection H as <- <- <-. split; [reflexivity|].
      exists d1, credentials. split; [reflexivity|]. split; [exact Hcr|].
      right. exists tok, c. rewrite Hc. auto.
  - injection H as <- <- <-. split; [reflexivity|].
    exists d1, credentials. split; [reflexivity|]. split; [exact Hcr|]. left. auto.
Qed.

(** X23: when [Gather] returns nil, every error it has added is the error
    of a request for a node of the summary: for its metrics, for its list
    of containers, or for the metrics of a container or an app, the last
    two only when the error is no 404 (a 404 of those is dropped without
    notice).  Every metric it has added
    is a "dcos_node", "dcos_container" or "dcos_app" metric with a
    "cluster" tag. *)
Theorem Gather_nil_calls (d d' : dcos) (routines : list routineCalls) :
  Gather d = (d', Returns (None, routines)) ->
  exists c s,
    clientOf d' = Some c
    /\ getSummary c = inl s
    /\ forall calls call, calls ∈ routines -> call ∈ calls ->
         match call with
         | AddError err =>
             exists node, node ∈ Slaves s
               /\ (getNodeMetrics c node = inr err
                   \/ getContainers c node = inr err
                   \/ (isNotFound err = false
                       /\ exists container,
                            getContainerMetrics c node container = inr err
                            \/ getAppMetrics c node container = inr err))
         | AddFields call =>
             (call_measurement call = "dcos_node" \/ call_measurement call = "dcos_container"
              \/ call_measurement call = "dcos_app")
             /\ is_Some (call_tags call !! "cluster")
         end.
Proof.
  unfold DCOSGather.Gather. intros H.
  destruct (initialize d) as [d1 [e|]] eqn:Hi; [discriminate H|].
  destruct (credsOf d1) as [credentials|] eqn:Hcr; [|discriminate H].
  destruct (token credentials (clientOf d1)) as [[tok|e]|] eqn:Ht; [|discriminate H..].
  destruct (clientOf d1) as [c|] eqn:Hc; [|discriminate H]. cbv zeta in H.
  destruct (getSummary (setToken c tok)) as [s|e] eqn:Hs; [|discriminate H].
  destruct (gatherNodes _ _ _ _) as [rs|] eqn:Hn; [|discriminate H].
  injection H as <- <-. exists (setToken c tok), s.
  split; [reflexivity|]. split; [exact Hs|].
  intros calls call Hcalls Hcall.
  exact (gatherNodes_accounted _ _ _ (Slaves s) (Slaves s) (fun _ Hin => Hin) rs Hn
           calls call Hcalls Hcall).
Qed.

End DCOSGatherFacts.

(** ** The properties above at the instances *)

Section MoreInstances.
Import Examples.
Local Open Scope Z_scope.
Local Open Scope string_scope.

Lemma collectHomieDeviceMessages_repeat_witness :
  let first := collect0 mqtt0 "telegraf/host" "CPU" in
  exists props,
    last (messagesOf first.2) = Some props
    /\ collect0 first.1 "telegraf/host" "CPU" = (first.1, inl ([props], "node-cpu")).
Proof.
  cbv zeta.
  apply (collectHomieDeviceMessages_repeat (fun r => r) Homie.asciiRunes Execute0 TagList0
           FieldList0 mqtt0 _ "telegraf/host" "CPU" _ "node-cpu").
  vm_compute. reflexivity.
Defined.

Lemma collectHomieDeviceMessages_node_error_witness :
  exists m1,
    collect0 mqtt1 "telegraf/host" "CPU"
    = (m1, inr "generating device ID failed: template: node: unexpected EOF")
    /\ HomieDevice.homieSeen _ m1 !! "telegraf/host" = Some ∅.
Proof.
  destruct (collectHomieDeviceMessages_node_error (fun r => r) Homie.asciiRunes Execute0
              TagList0 FieldList0 mqtt1 "telegraf/host" "CPU" "Telegraf CPU"
              "template: node: unexpected EOF")
    as (m1 & H1 & H2 & _); [vm_compute; reflexivity..|].
  exists m1. split; assumption.
Defined.

Lemma collectHomieDeviceMessages_nodes_witness :
  exists nodeIDs,
    HomieDevice.Message "telegraf/host/$nodes" (GoStrings.Join nodeIDs ",")
      ∈ messagesOf (collect0 mqtt0 "telegraf/host" "CPU").2
    /\ (forall k, k ∈ nodeIDs <-> k = "node-cpu" \/ is_Some ((∅ : gmap string bool) !! k)).
Proof.
  destruct (collectHomieDeviceMessages_nodes (fun r => r) Homie.asciiRunes Execute0
              TagList0 FieldList0 mqtt0 (collect0 mqtt0 "telegraf/host" "CPU").1
              "telegraf/host" "CPU"
              (messagesOf (collect0 mqtt0 "telegraf/host" "CPU").2) "node-cpu")
    as (nodeIDs & H1 & _ & _ & H2 & _); [vm_compute; reflexivity..|].
  exists nodeIDs. split; [exact H1|exact H2].
Defined.

Lemma collectHomieDeviceMessages_seen_grows_witness :
  HomieDevice.homieNodeIDGenerator _ (collect0 mqtt0 "telegraf/host" "CPU").1 = Some "Node "
  /\ HomieDevice.homieSeen _ (collect0 mqtt0 "telegraf/host" "CPU").1 !! "telegraf/other" = None.
Proof.
  destruct (collectHomieDeviceMessages_seen_grows (fun r => r) Homie.asciiRunes Execute0
              TagList0 FieldList0 mqtt0 (collect0 mqtt0 "telegraf/host" "CPU").1
              "telegraf/host" "CPU" (collect0 mqtt0 "telegraf/host" "CPU").2)
    as (_ & H1 & H2 & _); [vm_compute; reflexivity|].
  split; [exact H1|]. apply H2. discriminate.
Defined.

Lemma collectHomieDeviceMessages_ids_witness :
  HomieDevice.Contains "node-cpu" "/" = false
  /\ exists properties,
       last (messagesOf (collect0 mqtt0 "telegraf/host" "CPU").2)
       = Some (HomieDevice.Message "telegraf/host/node-cpu/$properties"
                                   (GoStrings.Join properties ","))
       /\ properties ≡ₚ ["host"; "cpu"; "usage-idle"; "usage-user"].
Proof.
  destruct (collectHomieDeviceMessages_ids (fun r => r) Homie.asciiRunes Execute0
              TagList0 FieldList0 mqtt0 (collect0 mqtt0 "telegraf/host" "CPU").1
              "telegraf/host" "CPU"
              (messagesOf (collect0 mqtt0 "telegraf/host" "CPU").2) "node-cpu")
    as (_ & _ & H1 & properties & H2 & _ & H3 & _); [vm_compute; reflexivity|].
  split; [exact H1|]. exists properties. split; [exact H2|].
  rewrite H3. vm_compute. reflexivity.
Defined.

Lemma Init_error_origin_witness :
  (Init1 Scenario.client0).2
  = Some "error parsing ip_range: invalid CIDR address: 192.168.0.0/24"
  /\ Prometheus.server (Init1 Scenario.client0).1 = None.
Proof.
  split; [vm_compute; reflexivity|].
  destruct (Init_error_origin tt (fun r _ => inl r) (fun _ => None)
              (fun _ _ _ _ => tt) (fun _ _ _ _ => tt)
              (fun cidr => inr ("invalid CIDR address: " ++ cidr))
              (fun secret => inl secret) (fun _ => inl None)
              Scenario.client0 (Init1 Scenario.client0).1
              "error parsing ip_range: invalid CIDR address: 192.168.0.0/24")
    as (_ & H); [vm_compute; reflexivity|].
  exact H.
Defined.

Lemma Init_excluded_not_registered_witness :
  Scenario.Init0 Scenario.client0 = Init2 Scenario.client0.
Proof.
  apply (Init_excluded_not_registered tt (fun r _ => inl r) (fun _ => None)
           (fun _ _ _ _ => tt) (fun _ _ _ _ => tt) (fun cidr => inl cidr)
           (fun secret => inl secret) (fun _ => inl None) Register2 Scenario.client0).
  intros registry [| |c] _ Hprocess; try reflexivity.
  exfalso. apply Hprocess. split; [reflexivity|]. vm_compute. left.
Defined.

Lemma Init_nil_server_witness :
  exists srv,
    Prometheus.server (Scenario.Init0 Scenario.client0).1 = Some srv
    /\ Prometheus.Addr srv = ":9273"
    /\ Prometheus.collector (Scenario.Init0 Scenario.client0).1 = Some tt.
Proof.
  destruct (Init_nil_server tt (fun r _ => inl r) (fun _ => None)
              (fun _ _ _ _ => tt) (fun _ _ _ _ => tt) (fun cidr => inl cidr)
              (fun secret => inl secret) (fun _ => inl None)
              Scenario.client0 (Scenario.Init0 Scenario.client0).1)
    as (srv & registry & nets & password & H1 & _ & _ & _ & H2 & _ & _ & H3);
    [vm_compute; reflexivity|].
  exists srv. split; [exact H1|]. split; [exact H2|exact H3].
Defined.

Lemma Init_Connect_URL_witness :
  exists pl,
    Connect0 {| PrometheusServe.client := (Scenario.Init0 Scenario.client0).1;
                PrometheusServe.url := None |}
    = PrometheusServe.Done (pl, None)
    /\ exists listener,
         PrometheusServe.url pl
         = Some {| PrometheusServe.Scheme := "http";
                   PrometheusServe.Host := listener;
                   PrometheusServe.urlPath := "/metrics" |}.
Proof.
  eexists. split; [vm_compute; reflexivity|].
  destruct (Init_Connect_URL tt (fun r _ => inl r) (fun _ => None)
              (fun _ _ _ _ => tt) (fun _ _ _ _ => tt) (fun cidr => inl cidr)
              (fun secret => inl secret) (fun _ => inl None)
              ParseRequestURI0 (fun s => s)
              (fun host _ => inl ("[::]" ++ host)) (fun host => inl ("[::]" ++ host))
              (fun host => inl ("2", "9273")) (fun _ => inl 9273)
              (fun port => inl "vm(2):9273") (fun listener => listener)
              Scenario.client0 (Scenario.Init0 Scenario.client0).1 None _
              ltac:(vm_compute; reflexivity) ltac:(vm_compute; reflexivity))
    as (listener & tlsConfig & _ & Htls & _ & Hurl).
  exists listener. injection Htls as <-. exact Hurl.
Defined.

Lemma Connect_Close_URL_witness :
  exists pl1 pl2,
    Connect0 {| PrometheusServe.client := (Scenario.Init0 Scenario.client0).1;
                PrometheusServe.url := None |}
    = PrometheusServe.Done (pl1, None)
    /\ Close0 pl1 = PrometheusServe.Done (pl2, Some "context deadline exceeded")
    /\ URL0 pl2 = EmptyString.
Proof.
  eexists. 
  destruct (Connect_Close_URL ParseRequestURI0 (fun s => s)
              (fun host _ => inl ("[::]" ++ host)) (fun host => inl ("[::]" ++ host))
              (fun host => inl ("2", "9273")) (fun _ => inl 9273)
              (fun port => inl "vm(2):9273") (fun listener => listener)
              (fun u => PrometheusServe.Scheme u ++ "://" ++ PrometheusServe.Host u
                        ++ PrometheusServe.urlPath u)
              (fun _ => Some "context deadline exceeded")
              {| PrometheusServe.client := (Scenario.Init0 Scenario.client0).1;
                 PrometheusServe.url := None |} _ None
              ltac:(vm_compute; reflexivity))
    as (srv & pl2 & _ & Hclose & Hurl & _).
  exists pl2. split; [vm_compute; reflexivity|]. split; [exact Hclose|exact Hurl].
Defined.

Lemma Connect_vsock_witness :
  Connect0 {| PrometheusServe.client := client3; PrometheusServe.url := None |}
  = PrometheusServe.Done
      ({| PrometheusServe.client := client3;
          PrometheusServe.url := Some {| PrometheusServe.Scheme := "https";
                                         PrometheusServe.Host := "vm(2):9273";
                                         PrometheusServe.urlPath := "/metrics" |} |},
       None).
Proof.
  destruct (Connect_vsock ParseRequestURI0 (fun s => s)
              (fun host _ => inl ("[::]" ++ host)) (fun host => inl ("[::]" ++ host))
              (fun host => inl ("2", "9273")) (fun _ => inl 9273)
              (fun port => inl "vm(2):9273") (fun listener => listener)
              {| PrometheusServe.client := client3; PrometheusServe.url := None |}
              server3
              {| PrometheusServe.Scheme := "vsock"; PrometheusServe.Host := "2:9273";
                 PrometheusServe.urlPath := EmptyString |})
    as (_ & H); [vm_compute; reflexivity..|].
  exact H.
Defined.

Lemma createPoints_dimensions_witness :
  DCOS.createPoints (fun _ => 0) metrics0 = [point0]
  /\ DCOS.tags point0 !! "hostname" = Some "192.168.122.18"
  /\ DCOS.labels point0 = <["DCOS_SPACE" := "/telegraf"]> ∅.
Proof.
  assert (Hp : DCOS.createPoints (fun _ => 0) metrics0 = [point0]) by (vm_compute; reflexivity).
  split; [exact Hp|].
  destruct (createPoints_dimensions (fun _ => 0) metrics0 point0) as (Ht & Hl & _).
  { rewrite Hp. apply list_elem_of_here. }
  split; [apply Ht; vm_compute; reflexivity|exact Hl].
Defined.

Lemma initialize_once_witness :
  (initialize0 dcos0).2 = None
  /\ initialize0 (initialize0 dcos0).1 = ((initialize0 dcos0).1, None)
  /\ DCOSInit.creds _ _ _ _ (initialize0 dcos0).1
     = Some (DCOSInit.tokenCreds _ "/home/dcos/.dcos/token").
Proof.
  split; [vm_compute; reflexivity|].
  destruct (initialize_once (fun include exclude => (Some (include, exclude), None))
              (fun _ => inl tt) (fun address => inl address) (fun address _ _ _ => address)
              (fun path => inr ("open " ++ path ++ ": no such file or directory"))
              (fun bs => inl bs) dcos0 (initialize0 dcos0).1)
    as (H & _); [vm_compute; reflexivity|].
  split; [exact H|vm_compute; reflexivity].
Defined.

Lemma initialize_error_witness :
  (initialize0 dcos1).2
  = Some "open /etc/telegraf/telegraf-sa-key.pem: no such file or directory"
  /\ DCOSInit.initialized _ _ _ _ (initialize0 dcos1).1 = false.
Proof.
  split; [vm_compute; reflexivity|].
  destruct (initialize_error (fun include exclude => (Some (include, exclude), None))
              (fun _ => inl tt) (fun address => inl address) (fun address _ _ _ => address)
              (fun path => inr ("open " ++ path ++ ": no such file or directory"))
              (fun bs => inl bs) dcos1 (initialize0 dcos1).1
              "open /etc/telegraf/telegraf-sa-key.pem: no such file or directory")
    as (_ & H & _); [vm_compute; reflexivity|].
  exact H.
Defined.

Lemma Gather_error_witness :
  Gather1 dcos0
  = ((Gather1 dcos0).1,
     DCOSGather.Returns
       (Some (DCOSGather.CallError {| DCOSGather.errMessage := "unauthorized";
                                      DCOSGather.apiStatus := Some 401 |}), [])).
Proof.
  assert (H : Gather1 dcos0
              = ((Gather1 dcos0).1,
                 DCOSGather.Returns
                   (Some (DCOSGather.CallError {| DCOSGather.errMessage := "unauthorized";
                                                  DCOSGather.apiStatus := Some 401 |}),
                    routinesOf (Gather1 dcos0).2)))
    by (vm_compute; reflexivity).
  destruct (Gather_error (fun _ => 0)
              (fun include exclude => (Some (include, exclude), None))
              (fun _ => inl tt) (fun address => inl address) (fun address _ _ _ => address)
              (fun path => inr ("open " ++ path ++ ": no such file or directory"))
              (fun bs => inl bs) (fun _ _ => true)
              (fun _ _ => DCOSGather.Returns (inl "eyJhbGciOiJSUzI1NiJ9")) (fun c _ => c)
              (fun _ => inr {| DCOSGather.errMessage := "unauthorized";
                               DCOSGather.apiStatus := Some 401 |})
              (fun _ _ => inl ["container1"])
              (fun _ _ => inr {| DCOSGather.errMessage := "connection refused";
                                 DCOSGather.apiStatus := None |})
              (fun _ _ _ => inr {| DCOSGather.errMessage := "not found";
                                   DCOSGather.apiStatus := Some 404 |})
              (fun _ _ _ => inl metrics0) (fun _ => 0)
              dcos0 _ _ _ H) as (Hnil & _).
  rewrite Hnil in H. exact H.
Defined.

Lemma Gather_nil_calls_witness :
  (Gather0 dcos0).2 = DCOSGather.Returns (None, routinesOf (Gather0 dcos0).2)
  /\ length (routinesOf (Gather0 dcos0).2) = 4%nat
  /\ exists c s,
       DCOSInit.client _ _ _ _ (Gather0 dcos0).1 = Some c
       /\ DCOSGather.Slaves s = ["node1"].
Proof.
  split; [vm_compute; reflexivity|]. split; [vm_compute; reflexivity|].
  destruct (Gather_nil_calls (fun _ => 0)
              (fun include exclude => (Some (include, exclude), None))
              (fun _ => inl tt) (fun address => inl address) (fun address _ _ _ => address)
              (fun path => inr ("open " ++ path ++ ": no such file or directory"))
              (fun bs => inl bs) (fun _ _ => true)
              (fun _ _ => DCOSGather.Returns (inl "eyJhbGciOiJSUzI1NiJ9")) (fun c _ => c)
              (fun _ => inl {| DCOSGather.Cluster := "a"; DCOSGather.Slaves := ["node1"] |})
              (fun _ _ => inl ["container1"])
              (fun _ _ => inr {| DCOSGather.errMessage := "connection refused";
                                 DCOSGather.apiStatus := None |})
              (fun _ _ _ => inr {| DCOSGather.errMessage := "not found";
                                   DCOSGather.apiStatus := Some 404 |})
              (fun _ _ _ => inl metrics0) (fun _ => 0)
              dcos0 (Gather0 dcos0).1 (routinesOf (Gather0 dcos0).2))
    as (c & s & Hc & Hs & _); [vm_compute; reflexivity|].
  exists c, s. split; [exact Hc|]. injection Hs as <-. reflexivity.
Defined.

End MoreInstances.
